(** * Prefix-aware global scheduler: a shallow embedding

    The development follows [multi_node/global_scheduler.py]: the sliding
    window histogram, the TTFT overload detector and the scheduler with its
    placement rule and its rebalancer.

    Conventions of the embedding.
    - Tree nodes are Python objects used as dictionary keys and linked by
      [parent] and [children] references.  They live in an arena, a finite
      map from handles to node records; a handle plays the role of the
      object reference.  A handle outside the arena reads as a blank node
      (a Python reference always designates an object, so no run of the
      program observes that case).
    - Python exceptions are explicit: every operation that can raise returns
      an [outcome], and stateful operations return the state reached when
      the exception left the function, because mutations made before a
      raise persist.
    - Recursive methods take a [fuel] bound on the depth of the recursion;
      running out of it is Python's [RecursionError].
    - Numbers that the program computes with [/] or compares with float
      constants are exact rationals ([Qc]); integers are [Z]; lengths are
      [nat].  Wall-clock readings ([datetime.now()]) are parameters, in
      microseconds. *)

From Stdlib Require Import ZArith QArith Qcanon Lia Sorted.
From stdpp Require Import gmap list sets numbers strings sorting.

Abbreviation node := nat (only parsing).
Abbreviation gpu := nat (only parsing).

(** ** Exceptions and the state-and-exception monad *)

Inductive exn :=
| KeyError | IndexError | AttributeError | TypeError | ValueError
| AssertionError | ZeroDivisionError | RecursionError.

Inductive outcome (A : Type) :=
| Return (a : A)
| Raise (e : exn).
Arguments Return {A} a.
Arguments Raise {A} e.

Definition obind {A B} (o : outcome A) (k : A → outcome B) : outcome B :=
  match o with
  | Return a => k a
  | Raise e => Raise e
  end.

Definition M (S A : Type) : Type := S → outcome A * S.

Definition ret {S A} (a : A) : M S A := λ s, (Return a, s).
Definition raise {S A} (e : exn) : M S A := λ s, (Raise e, s).
Definition bind {S A B} (c : M S A) (k : A → M S B) : M S B :=
  λ s, match c s with
       | (Return a, s') => k a s'
       | (Raise e, s') => (Raise e, s')
       end.
Definition get {S} : M S S := λ s, (Return s, s).
Definition put {S} (s : S) : M S unit := λ _, (Return tt, s).
Definition modify {S} (f : S → S) : M S unit := λ s, (Return tt, f s).
Definition pure_of {S A} (o : outcome A) : M S A := λ s, (o, s).

(** Run a computation on a component [T] of the state [S]. *)
Definition zoom {S T A} (proj : S → T) (upd : T → S → S) (c : M T A) : M S A :=
  λ s, let '(o, t') := c (proj s) in (o, upd t' s).

Declare Scope py_scope.
Delimit Scope py_scope with py.
Notation "x ⇐ c ;; k" := (bind c (λ x, k))
  (at level 100, c at next level, right associativity) : py_scope.
Notation "c ;;; k" := (bind c (λ _, k))
  (at level 100, right associativity) : py_scope.
Notation "x ↤ c ;; k" := (obind c (λ x, k))
  (at level 100, c at next level, right associativity) : py_scope.
Open Scope py_scope.

Fixpoint ofoldl {A B} (f : A → B → outcome A) (a : A) (l : list B) : outcome A :=
  match l with
  | [] => Return a
  | x :: l' => a' ↤ f a x ;; ofoldl f a' l'
  end.

(** [for x in l: body(x)] *)
Fixpoint for_each {S A} (l : list A) (body : A → M S unit) : M S unit :=
  match l with
  | [] => ret tt
  | x :: l' => body x ;;; for_each l' body
  end.

(** ** Numbers *)

Definition Zq (z : Z) : Qc := Q2Qc (inject_Z z).
Definition Nq (n : nat) : Qc := Zq (Z.of_nat n).

(** Python's true division [a / b]. *)
Definition truediv (a b : Qc) : outcome Qc :=
  if decide (b = 0%Qc) then Raise ZeroDivisionError else Return (a / b)%Qc.

Fixpoint sum_Qc (l : list Qc) : Qc :=
  match l with
  | [] => 0%Qc
  | x :: l' => (x + sum_Qc l')%Qc
  end.

(** ** Insertion-ordered dictionaries

    [collections.defaultdict] and [dict] iterate in insertion order; where the
    program iterates, a dictionary is an association list with unique keys. *)

Section Dict.
Context {K V : Type} `{EqDecision K}.

Fixpoint dict_get (d : list (K * V)) (k : K) : option V :=
  match d with
  | [] => None
  | (k', v) :: d' => if decide (k' = k) then Some v else dict_get d' k
  end.

(** [d[k] = v]: in place when the key exists, appended otherwise. *)
Fixpoint dict_set (d : list (K * V)) (k : K) (v : V) : list (K * V) :=
  match d with
  | [] => [(k, v)]
  | (k', v') :: d' =>
      if decide (k' = k) then (k, v) :: d' else (k', v') :: dict_set d' k v
  end.

(** [del d[k]] on a present key (keys are unique, so at most one entry
    goes); nothing to remove otherwise. *)
Fixpoint dict_del (d : list (K * V)) (k : K) : list (K * V) :=
  match d with
  | [] => []
  | (k', v') :: d' =>
      if decide (k' = k) then dict_del d' k else (k', v') :: dict_del d' k
  end.
End Dict.

(** ** Tree nodes ([LPTreeNode]) and the radix cache ([LPRadixCache])

    [global_lru_cache.py] is not part of the sources at hand.  The record
    below has the attributes that [global_scheduler.py] reads and writes. *)

Record LPTreeNode := mkNode {
  value : list Z;
  context_length : nat;
  parent : option node;
  children : gmap Z node;
  cached_gpus : gset gpu;
  evicted_gpus : gset gpu;
  ref_counter : list Z;
}.

Definition blank_node : LPTreeNode :=
  mkNode [] 0 None ∅ ∅ ∅ [].

Definition num_tokens (nd : LPTreeNode) : nat := length (value nd).

(** Modelled from the spec: [has_cached_gpu] of the absent [LPTreeNode]
    class, "a node that has [w ∈ cached_gpus]". *)
Definition has_cached_gpu (nd : LPTreeNode) (g : gpu) : bool :=
  bool_decide (g ∈ cached_gpus nd).

Definition deref (st : gmap node LPTreeNode) (n : node) : LPTreeNode :=
  default blank_node (st !! n).

Definition set_cached_gpus (c : gset gpu) (nd : LPTreeNode) : LPTreeNode :=
  mkNode (value nd) (context_length nd) (parent nd) (children nd)
         c (evicted_gpus nd) (ref_counter nd).

Record LPRadixCache := mkCache {
  nodes : gmap node LPTreeNode;
  root_node : node;
  next_handle : node;
  allocated_size_ : list Z;
  cache_num_gpus : nat;
}.

Definition set_nodes (st : gmap node LPTreeNode) (c : LPRadixCache) : LPRadixCache :=
  mkCache st (root_node c) (next_handle c) (allocated_size_ c) (cache_num_gpus c).

(** Modelled from the spec: the constructor of the absent [LPRadixCache]; an
    empty tree is a root with an empty [value] and [context_length] 0. *)
Definition LPRadixCache_init (num_gpus : nat) : LPRadixCache :=
  mkCache {[ 0 := mkNode [] 0 None ∅ ∅ ∅ (replicate num_gpus 0%Z) ]}
          0 1 (replicate num_gpus 0%Z) num_gpus.

Fixpoint match_len (a b : list Z) : nat :=
  match a, b with
  | x :: a', y :: b' => if decide (x = y) then S (match_len a' b') else 0
  | _, _ => 0
  end.

(** Modelled from the spec: [insert] of the absent [LPRadixCache] (4.A).
    It walks down from [cur] along the longest common prefix.  A partial
    match inside a child's [value] splits the child: a new intermediate node
    takes the common prefix, the parent's slot and the child's
    [cached_gpus], [evicted_gpus] and [ref_counter]; the child keeps the
    remainder of the segment and hangs below the intermediate; the pair
    [(child, intermediate)] is recorded.  What is left of [key] becomes a new
    leaf.  Each step consumes at least one token, so [S (length key)] fuel
    is enough. *)
Fixpoint insert_helper (fuel : nat) (cur : node) (key : list Z)
    (split_nodes : list (node * node)) (c : LPRadixCache)
  : node * list (node * node) * LPRadixCache :=
  match fuel with
  | O => (cur, split_nodes, c)
  | S fuel' =>
    match key with
    | [] => (cur, split_nodes, c)
    | k :: _ =>
      let nd := deref (nodes c) cur in
      match children nd !! k with
      | None =>
          let h := next_handle c in
          let leaf := mkNode key (context_length nd + length key) (Some cur)
                             ∅ ∅ ∅ (replicate (cache_num_gpus c) 0%Z) in
          let nd' := mkNode (value nd) (context_length nd) (parent nd)
                            (<[k := h]> (children nd)) (cached_gpus nd)
                            (evicted_gpus nd) (ref_counter nd) in
          (h, split_nodes,
           mkCache (<[h := leaf]> (<[cur := nd']> (nodes c)))
                   (root_node c) (S h) (allocated_size_ c) (cache_num_gpus c))
      | Some ch =>
          let chn := deref (nodes c) ch in
          let p := match_len (value chn) key in
          if decide (p = length (value chn)) then
            insert_helper fuel' ch (drop p key) split_nodes c
          else
            let h := next_handle c in
            let inter := mkNode (take p (value chn)) (context_length nd + p)
                                (Some cur)
                                (match drop p (value chn) with
                                 | t :: _ => {[ t := ch ]}
                                 | [] => ∅
                                 end)
                                (cached_gpus chn) (evicted_gpus chn)
                                (ref_counter chn) in
            let chn' := mkNode (drop p (value chn)) (context_length chn)
                               (Some h) (children chn) ∅ ∅
                               (replicate (cache_num_gpus c) 0%Z) in
            let nd' := mkNode (value nd) (context_length nd) (parent nd)
                              (<[k := h]> (children nd)) (cached_gpus nd)
                              (evicted_gpus nd) (ref_counter nd) in
            insert_helper fuel' h (drop p key) (split_nodes ++ [(ch, h)])
              (mkCache (<[h := inter]> (<[ch := chn']> (<[cur := nd']> (nodes c))))
                       (root_node c) (S h) (allocated_size_ c) (cache_num_gpus c))
      end
    end
  end.

Definition insert (key : list Z) (c : LPRadixCache)
  : node * list (node * node) * LPRadixCache :=
  insert_helper (S (length key)) (root_node c) key [] c.

(** Modelled from the spec: [update_allocated_size] of the absent
    [LPRadixCache] (4.A), "marks [w] cached along the leaf's ancestry and
    adjusts [allocated_size(w)]"; [allocated_size(w)] is the sum of
    [num_tokens] over the nodes cached on [w]. *)
Fixpoint update_allocated_size (fuel : nat) (n : option node) (w : gpu)
  : M LPRadixCache unit :=
  match fuel with
  | O => raise RecursionError
  | S fuel' =>
    match n with
    | None => ret tt
    | Some h =>
        c ⇐ get ;;
        let nd := deref (nodes c) h in
        (if decide (w ∈ cached_gpus nd) then ret tt
         else
           put (mkCache
                  (<[h := mkNode (value nd) (context_length nd) (parent nd)
                                 (children nd) (cached_gpus nd ∪ {[w]})
                                 (evicted_gpus nd ∖ {[w]}) (ref_counter nd)]>
                     (nodes c))
                  (root_node c) (next_handle c)
                  (alter (λ z, (z + Z.of_nat (num_tokens nd))%Z) w
                         (allocated_size_ c))
                  (cache_num_gpus c))) ;;;
        update_allocated_size fuel' (parent nd) w
    end
  end.

(** Modelled from the spec: [find_node] of the absent [LPRadixCache] (4.A),
    "longest-prefix match that must fully cover [seq]". *)
Fixpoint find_helper (fuel : nat) (st : gmap node LPTreeNode) (cur : node)
    (key : list Z) : option node :=
  match fuel with
  | O => None
  | S fuel' =>
    match key with
    | [] => Some cur
    | k :: _ =>
      match children (deref st cur) !! k with
      | None => None
      | Some ch =>
          let v := value (deref st ch) in
          if decide (take (length v) key = v)
          then find_helper fuel' st ch (drop (length v) key)
          else None
      end
    end
  end.

Definition find_node (key : list Z) (c : LPRadixCache) : option node :=
  find_helper (S (length key)) (nodes c) (root_node c) key.

(** ** [SlidingWindowHistogram] *)

Module SlidingWindowHistogram.

(** [gpu_allocations] is the dictionary object that the scheduler passes
    to the constructor and keeps using itself: this field is its only
    home, and the scheduler reads and writes it here. *)
Record t := mk {
  window_duration : Z;
  gpu_allocations : gmap node (gset gpu);
  histogram : list (node * Z);
  node_to_count : gmap node Z;
  timestamps : list (Z * node * node);
  num_gpus : nat;
}.

Definition init (window : Z) (allocs : gmap node (gset gpu)) (n : nat) : t :=
  mk window allocs [] ∅ [] n.

Definition set_gpu_allocations (a : gmap node (gset gpu)) (h : t) : t :=
  mk (window_duration h) a (histogram h) (node_to_count h) (timestamps h)
     (num_gpus h).

Definition set_timestamps (q : list (Z * node * node)) (h : t) : t :=
  mk (window_duration h) (gpu_allocations h) (histogram h) (node_to_count h)
     q (num_gpus h).

(** The body of the purge loop for one popped event, lines 35-40.  The
    first component is a ghost log: the node when the branch
    [histogram[node] <= 0] was taken. *)
Definition expire (st : gmap node LPTreeNode) (nd leaf : node) (h : t)
  : list node * t :=
  let hv := (default 0 (dict_get (histogram h) nd)
             - 1 * Z.of_nat (context_length (deref st leaf)))%Z in
  let cv := (default 0 (node_to_count h !! nd) - 1)%Z in
  if decide (hv ≤ 0)%Z then
    ([nd], mk (window_duration h) (<[nd := ∅]> (gpu_allocations h))
              (dict_del (dict_set (histogram h) nd hv) nd)
              (delete nd (<[nd := cv]> (node_to_count h)))
              (timestamps h) (num_gpus h))
  else
    ([], mk (window_duration h) (gpu_allocations h)
            (dict_set (histogram h) nd hv)
            (<[nd := cv]> (node_to_count h))
            (timestamps h) (num_gpus h)).

(** [self.timestamps[0][0] < window_start] *)
Definition older (timestamp window_start : Z) : bool :=
  bool_decide (timestamp < window_start)%Z.

(** The [while] loop of [_remove_old_entries] over the event FIFO [q]. *)
Fixpoint purge (st : gmap node LPTreeNode) (window_start : Z)
    (q : list (Z * node * node)) (h : t) : list node * t :=
  match q with
  | [] => ([], set_timestamps [] h)
  | (ts, nd, leaf) :: q' =>
      if older ts window_start then
        let '(log1, h1) := expire st nd leaf h in
        let '(log2, h2) := purge st window_start q' h1 in
        (log1 ++ log2, h2)
      else ([], set_timestamps q h)
  end.

Definition _remove_old_entries_log (st : gmap node LPTreeNode)
    (current_timestamp : Z) (h : t) : list node * t :=
  let window_start := (current_timestamp - window_duration h)%Z in
  purge st window_start (timestamps h) h.

Definition _remove_old_entries (st : gmap node LPTreeNode)
    (current_timestamp : Z) (h : t) : t :=
  (_remove_old_entries_log st current_timestamp h).2.

Definition record_event (st : gmap node LPTreeNode) (timestamp : Z)
    (nd leaf : node) (h : t) : t :=
  mk (window_duration h) (gpu_allocations h)
     (dict_set (histogram h) nd
        (default 0 (dict_get (histogram h) nd)
         + 1 * Z.of_nat (context_length (deref st leaf)))%Z)
     (<[nd := (default 0 (node_to_count h !! nd) + 1)%Z]> (node_to_count h))
     (timestamps h ++ [(timestamp, nd, leaf)])
     (num_gpus h).

Definition update_log (st : gmap node LPTreeNode) (timestamp : Z)
    (nd leaf : node) (h : t) : list node * t :=
  _remove_old_entries_log st timestamp (record_event st timestamp nd leaf h).

Definition update (st : gmap node LPTreeNode) (timestamp : Z)
    (nd leaf : node) (h : t) : t :=
  (update_log st timestamp nd leaf h).2.

Definition rename_event (old_node new_node : node) (e : Z * node * node)
  : Z * node * node :=
  let '(ts, important_node, leaf_node) := e in
  (ts, if decide (important_node = old_node) then new_node else important_node,
   leaf_node).

Definition rename_node (old_node new_node : node) : M t unit :=
  h ⇐ get ;;
  match dict_get (histogram h) old_node with
  | None => ret tt
  | Some v =>
      let hist' := dict_set (dict_del (histogram h) old_node) new_node v in
      match node_to_count h !! old_node with
      | None =>
          put (mk (window_duration h) (gpu_allocations h) hist'
                  (node_to_count h) (timestamps h) (num_gpus h)) ;;;
          raise KeyError
      | Some c =>
          put (mk (window_duration h) (gpu_allocations h) hist'
                  (<[new_node := c]> (delete old_node (node_to_count h)))
                  (rename_event old_node new_node <$> timestamps h)
                  (num_gpus h))
      end
  end.

(** [allocation[gpu] += cost / len(self.gpu_allocations.get(node))] *)
Definition add_share (cost : Z) (len : nat) (allocation : list Qc) (g : gpu)
  : outcome (list Qc) :=
  match allocation !! g with
  | None => Raise IndexError
  | Some a =>
      share ↤ truediv (Zq cost) (Nq len) ;;
      Return (<[g := (a + share)%Qc]> allocation)
  end.

Definition current_allocation_per_gpu (h : t) : outcome (list Qc) :=
  ofoldl
    (λ allocation '(nd, cost),
       let gpus := default ∅ (gpu_allocations h !! nd) in
       ofoldl (add_share cost (size gpus)) allocation (elements gpus))
    (replicate (num_gpus h) 0%Qc)
    (histogram h).

(** [query]: a copy of the dictionary. *)
Definition query (h : t) : list (node * Z) := histogram h.

(** [self.node_to_count[node]] on the [defaultdict(int)]: a missing key is
    inserted with 0. *)
Definition read_count (nd : node) : M t Z :=
  h ⇐ get ;;
  match node_to_count h !! nd with
  | Some c => ret c
  | None =>
      put (mk (window_duration h) (gpu_allocations h) (histogram h)
              (<[nd := 0%Z]> (node_to_count h)) (timestamps h) (num_gpus h)) ;;;
      ret 0%Z
  end.

(** The loop of [current_allocation_per_gpu_with_atleast_min_load] over the
    items of the histogram. *)
Fixpoint min_load_loop (min_load : Z) (items : list (node * Z))
    (allocation : list Qc) : M t (list Qc) :=
  match items with
  | [] => ret allocation
  | (nd, cost) :: items' =>
      c ⇐ read_count nd ;;
      if decide (c < min_load)%Z then min_load_loop min_load items' allocation
      else
        h ⇐ get ;;
        let gpus := default ∅ (gpu_allocations h !! nd) in
        allocation' ⇐ pure_of (ofoldl (add_share cost (size gpus)) allocation
                                 (elements gpus)) ;;
        min_load_loop min_load items' allocation'
  end.

Definition current_allocation_per_gpu_with_atleast_min_load (min_load : Z)
  : M t (list Qc) :=
  h ⇐ get ;;
  min_load_loop min_load (histogram h) (replicate (num_gpus h) 0%Qc).

End SlidingWindowHistogram.

(** ** [TTFTWindowedOverloadedDetector] *)

Module TTFTWindowedOverloadedDetector.

Record t := mk {
  data : gmap (node * gpu) (list (Z * Qc));
  window_duration : Z;
  half_window_duration : Z;
}.

(** [timedelta / 2] rounds the microseconds half to even. *)
Definition halve_timedelta (usec : Z) : Z :=
  let q := (usec / 2)%Z in
  let r := (usec mod 2)%Z in
  if decide (2 * r = 2 ∧ q mod 2 = 1)%Z then (q + 1)%Z else q.

Definition init (window : Z) : t := mk ∅ window (halve_timedelta window).

Definition set_data (d : gmap (node * gpu) (list (Z * Qc))) (o : t) : t :=
  mk d (window_duration o) (half_window_duration o).

Fixpoint popleft_while (bound : Z) (q : list (Z * Qc)) : list (Z * Qc) :=
  match q with
  | [] => []
  | (ts, v) :: q' =>
      if decide (ts < bound)%Z then popleft_while bound q' else q
  end.

Definition purge_old_data (key : node * gpu) (current_time : Z) : M t unit :=
  o ⇐ get ;;
  match data o !! key with
  | None => raise KeyError
  | Some q =>
      put (set_data
             (<[key := popleft_while (current_time - window_duration o) q]>
                (data o)) o)
  end.

Definition add_data_point (timestamp : Z) (nd : node) (g : gpu) (v : Qc)
  : M t unit :=
  let key := (nd, g) in
  o ⇐ get ;;
  put (set_data (<[key := default [] (data o !! key) ++ [(timestamp, v)]]>
                   (data o)) o) ;;;
  purge_old_data key timestamp.

Definition rename_node (old_node new_node : node) (runtime_idx : gpu) (o : t) : t :=
  let old_key := (old_node, runtime_idx) in
  let new_key := (new_node, runtime_idx) in
  match data o !! old_key with
  | None => o
  | Some q => set_data (<[new_key := q]> (delete old_key (data o))) o
  end.

(** The two lists that the loop of [calculate_half_window_averages] fills. *)
Definition first_half (cutoff : Z) (q : list (Z * Qc)) : list Qc :=
  (filter (λ e, e.1 < cutoff)%Z q).*2.
Definition second_half (cutoff : Z) (q : list (Z * Qc)) : list Qc :=
  (filter (λ e, ¬ (e.1 < cutoff)%Z) q).*2.

Definition average (l : list Qc) : Qc :=
  match l with
  | [] => 0%Qc
  | _ => (sum_Qc l / Nq (length l))%Qc
  end.

(** [now] is the reading of [datetime.now()]. *)
Definition calculate_half_window_averages (now : Z) (key : node * gpu) (o : t)
  : option Qc * option Qc :=
  let half_window_cutoff := (now - half_window_duration o)%Z in
  match data o !! key with
  | None => (None, None)
  | Some q =>
      let fh := first_half half_window_cutoff q in
      let sh := second_half half_window_cutoff q in
      if decide (length fh = 0) then (None, None)
      else if decide (length sh = 0) then (None, None)
      else (Some (average fh), Some (average sh))
  end.

Definition delete_after_allocation (nd : node) (g : gpu) (o : t) : t :=
  let key := (nd, g) in
  match data o !! key with
  | None => o
  | Some _ => set_data (delete key (data o)) o
  end.

Definition is_node_overloaded (now : Z) (nd : node) (g : gpu) (o : t)
  : outcome bool :=
  let key := (nd, g) in
  match calculate_half_window_averages now key o with
  | (None, None) => Return false
  | (Some avg_first_half, Some avg_second_half) =>
      Return (bool_decide (2 * avg_first_half <= avg_second_half)%Qc)
  | _ => Raise TypeError
  end.

End TTFTWindowedOverloadedDetector.

(** ** [GlobalScheduler] *)

Module GlobalScheduler.

Module H := SlidingWindowHistogram.
Module D := TTFTWindowedOverloadedDetector.

(** One entry of [metrics_dict]; the [overhead] field, a difference of two
    [time.time()] readings, is left out. *)
Record metric := mk_metric {
  m_text : option string;
  m_rid : option string;
  m_selected_runtime : gpu;
}.

Record t := mk {
  num_gpus : nat;
  counter : Z;
  enable_eviction : bool;
  per_gpu_load : gmap gpu Z;
  all_gpus : gset gpu;
  mem_cost : list Z;
  metrics_dict : list metric;
  histogram : H.t;
  cache : LPRadixCache;
  max_tokens_gpu : list Z;
  HIGH_LOAD_THRESHOLD : Qc;
  overload_detector : D.t;
  enable_rebalancing : bool;
}.

Definition three_minutes : Z := 180000000.

Definition init (num_nodes : nat) (eviction rebalancing : bool) : t :=
  mk num_nodes 0 eviction
     (list_to_map ((λ i, (i, 0%Z)) <$> seq 0 num_nodes))
     (list_to_set (seq 0 num_nodes))
     (replicate num_nodes 0%Z)
     []
     (H.init three_minutes ∅ num_nodes)
     (LPRadixCache_init num_nodes)
     (replicate num_nodes 198516%Z)
     (Q2Qc (14 # 10))
     (D.init three_minutes)
     rebalancing.

Definition set_histogram (h : H.t) (s : t) : t :=
  mk (num_gpus s) (counter s) (enable_eviction s) (per_gpu_load s)
     (all_gpus s) (mem_cost s) (metrics_dict s) h (cache s)
     (max_tokens_gpu s) (HIGH_LOAD_THRESHOLD s) (overload_detector s)
     (enable_rebalancing s).

Definition set_cache (c : LPRadixCache) (s : t) : t :=
  mk (num_gpus s) (counter s) (enable_eviction s) (per_gpu_load s)
     (all_gpus s) (mem_cost s) (metrics_dict s) (histogram s) c
     (max_tokens_gpu s) (HIGH_LOAD_THRESHOLD s) (overload_detector s)
     (enable_rebalancing s).

Definition set_overload_detector (d : D.t) (s : t) : t :=
  mk (num_gpus s) (counter s) (enable_eviction s) (per_gpu_load s)
     (all_gpus s) (mem_cost s) (metrics_dict s) (histogram s) (cache s)
     (max_tokens_gpu s) (HIGH_LOAD_THRESHOLD s) d
     (enable_rebalancing s).

Definition set_per_gpu_load (l : gmap gpu Z) (s : t) : t :=
  mk (num_gpus s) (counter s) (enable_eviction s) l
     (all_gpus s) (mem_cost s) (metrics_dict s) (histogram s) (cache s)
     (max_tokens_gpu s) (HIGH_LOAD_THRESHOLD s) (overload_detector s)
     (enable_rebalancing s).

Definition set_counter_metrics (c : Z) (m : list metric) (s : t) : t :=
  mk (num_gpus s) c (enable_eviction s) (per_gpu_load s)
     (all_gpus s) (mem_cost s) m (histogram s) (cache s)
     (max_tokens_gpu s) (HIGH_LOAD_THRESHOLD s) (overload_detector s)
     (enable_rebalancing s).

(** [self.gpu_allocations], the dictionary shared with the histogram. *)
Definition gpu_allocations (s : t) : gmap node (gset gpu) :=
  H.gpu_allocations (histogram s).

Definition set_gpu_allocations (a : gmap node (gset gpu)) (s : t) : t :=
  set_histogram (H.set_gpu_allocations a (histogram s)) s.

Definition tree (s : t) : gmap node LPTreeNode := nodes (cache s).

Definition handle_split_nodes_gpu_allocations (split_nodes : list (node * node))
  : M t unit :=
  for_each split_nodes (λ '(child_node, new_node),
    s ⇐ get ;;
    match gpu_allocations s !! child_node with
    | None => raise KeyError
    | Some a => put (set_gpu_allocations (<[new_node := a]> (gpu_allocations s)) s)
    end).

(** [node.num_tokens > node.context_length - node.num_tokens] *)
Definition is_large_node (st : gmap node LPTreeNode) (n : node) : bool :=
  let nd := deref st n in
  bool_decide (Z.of_nat (context_length nd) - Z.of_nat (num_tokens nd)
               < Z.of_nat (num_tokens nd))%Z.

Definition is_small_node (st : gmap node LPTreeNode) (n : node) : bool :=
  negb (is_large_node st n).

Definition handle_split_node_histogram (split_nodes : list (node * node))
  : M t unit :=
  for_each split_nodes (λ '(child, parent_node),
    s ⇐ get ;;
    if is_large_node (tree s) parent_node && negb (is_large_node (tree s) child)
    then
      zoom histogram set_histogram (H.rename_node child parent_node) ;;;
      s1 ⇐ get ;;
      for_each (elements (default ∅ (gpu_allocations s1 !! child))) (λ g,
        modify (λ s2, set_overload_detector
                        (D.rename_node child parent_node g (overload_detector s2))
                        s2))
    else ret tt).

Fixpoint get_parent_gpu_allocation (fuel : nat) (n : option node) (s : t)
  : outcome (gset gpu) :=
  match fuel with
  | O => Raise RecursionError
  | S fuel' =>
    match n with
    | None => Return (all_gpus s)
    | Some h =>
      match gpu_allocations s !! h with
      | Some a =>
          if decide (a = ∅)
          then get_parent_gpu_allocation fuel' (parent (deref (tree s) h)) s
          else Return a
      | None => get_parent_gpu_allocation fuel' (parent (deref (tree s) h)) s
      end
    end
  end.

(** Line 181 calls [self.update_cached_gpus_of_parent], a name that the
    class does not define: evaluating the attribute raises
    [AttributeError] after the assignment of line 180 took place. *)
Definition update_gpu_cache_for_parent (n : option node) (gpu_id : gset gpu)
  : M t unit :=
  match n with
  | None => ret tt
  | Some h =>
      modify (λ s,
        set_cache
          (set_nodes
             (alter (λ nd, set_cached_gpus (cached_gpus nd ∪ gpu_id) nd) h (tree s))
             (cache s)) s) ;;;
      raise AttributeError
  end.

Fixpoint update_gpu_allocation_for_parent (fuel : nat) (n : option node)
    (gpu_id : gset gpu) : M t unit :=
  match fuel with
  | O => raise RecursionError
  | S fuel' =>
    match n with
    | None => ret tt
    | Some h =>
        s ⇐ get ;;
        put (set_gpu_allocations
               (<[h := default ∅ (gpu_allocations s !! h) ∪ gpu_id]>
                  (gpu_allocations s)) s) ;;;
        update_gpu_allocation_for_parent fuel' (parent (deref (tree s) h)) gpu_id
    end
  end.

(** [is_large_node(None)] reads [None.num_tokens]: [AttributeError]. *)
Fixpoint get_important_node (fuel : nat) (st : gmap node LPTreeNode)
    (n : option node) : outcome node :=
  match fuel with
  | O => Raise RecursionError
  | S fuel' =>
    match n with
    | None => Raise AttributeError
    | Some h =>
        if is_large_node st h then Return h
        else get_important_node fuel' st (parent (deref st h))
    end
  end.

Fixpoint get_recomp_cost_basic (fuel : nat) (st : gmap node LPTreeNode)
    (n : option node) (gpu_id : gpu) : outcome Z :=
  match fuel with
  | O => Raise RecursionError
  | S fuel' =>
    match n with
    | None => Return 0%Z
    | Some h =>
        let nd := deref st h in
        if has_cached_gpu nd gpu_id then Return 0%Z
        else
          match ref_counter nd !! gpu_id with
          | None => Raise IndexError
          | Some r =>
              up ↤ get_recomp_cost_basic fuel' st (parent nd) gpu_id ;;
              Return (Z.of_nat (num_tokens nd) * r + up)%Z
          end
    end
  end.

(** [numpy.argmin]: the first index of the least entry. *)
Fixpoint argmin_from (i best : nat) (least : Qc) (l : list Qc) : nat :=
  match l with
  | [] => best
  | x :: l' =>
      if decide (x < least)%Qc then argmin_from (S i) i x l'
      else argmin_from (S i) best least l'
  end.

Definition argmin (l : list Qc) : outcome nat :=
  match l with
  | [] => Raise ValueError
  | x :: l' => Return (argmin_from 1 0 x l')
  end.

(** Lines 263-269, the branch without a preferred runtime. *)
Definition select_by_cost (fuel : nat) (leaf_node : node) (s : t)
  : outcome (gset gpu) :=
  let st := tree s in
  recom_costs ↤
    ofoldl (λ acc gpu_id,
              c ↤ get_recomp_cost_basic fuel st (parent (deref st leaf_node)) gpu_id ;;
              Return (acc ++ [c]))
           [] (seq 0 (num_gpus s)) ;;
  histogram_mem_cost ↤ H.current_allocation_per_gpu (histogram s) ;;
  totals ↤
    ofoldl (λ acc gpu_id,
              match recom_costs !! gpu_id, histogram_mem_cost !! gpu_id with
              | Some rc, Some mc => Return (acc ++ [(Zq rc + mc)%Qc])
              | _, _ => Raise IndexError
              end)
           [] (seq 0 (num_gpus s)) ;;
  gpu_selected ↤ argmin totals ;;
  Return {[ gpu_selected ]}.

(** Lines 259-271: the candidate set. *)
Definition select_gpus (fuel : nat) (leaf_node : node)
    (runtime_id_with_highest_hit_rate : option gpu) (s : t) : outcome (gset gpu) :=
  let nd := deref (tree s) leaf_node in
  if decide (Z.of_nat (num_tokens nd)
             < Z.of_nat (context_length nd) - Z.of_nat (num_tokens nd))%Z
  then get_parent_gpu_allocation fuel (Some leaf_node) s
  else
    match runtime_id_with_highest_hit_rate with
    | None => select_by_cost fuel leaf_node s
    | Some r => Return {[ r ]}
    end.

(** Lines 275-277; [rnd] stands for the draw of [np.random.choice]. *)
Definition pick_runtime (rnd : nat) (gpu_selected : gset gpu) : outcome gpu :=
  match elements gpu_selected with
  | [] => Raise IndexError
  | first :: rest =>
      if decide (1 < size gpu_selected)
      then Return (nth (rnd mod length (first :: rest)) (first :: rest) first)
      else Return first
  end.

(** *** Rebalancer *)

Fixpoint update_children (fuel : nat) (n : node) (gpu_id : gpu) : M t unit :=
  match fuel with
  | O => raise RecursionError
  | S fuel' =>
      s ⇐ get ;;
      for_each (map_to_list (children (deref (tree s) n))).*2 (λ child,
        modify (λ s1, set_gpu_allocations
                        (<[child := {[ gpu_id ]}]> (gpu_allocations s1)) s1) ;;;
        update_children fuel' child gpu_id)
  end.

(** [heapq] by its contract: the heap is the ascending list of its
    entries, [heappush] puts an entry behind those of equal cost,
    [heappop] takes the head and [heap[0]] is the head.
    Modelled from the spec: the order of two [LPTreeNode] objects, which
    [heapq] consults between entries of equal cost, belongs to the absent
    class; the spec pins it, "FIFO order breaks heap ties". *)
Fixpoint heappush (heap : list (Z * node)) (x : Z * node) : list (Z * node) :=
  match heap with
  | [] => [x]
  | y :: heap' =>
      if decide (x.1 < y.1)%Z then x :: heap else y :: heappush heap' x
  end.

(** [self.histogram.node_to_count[node]] on a [defaultdict(int)]: a missing
    key is inserted with 0. *)
Definition read_node_to_count (n : node) : M t Z :=
  s ⇐ get ;;
  let h := histogram s in
  match H.node_to_count h !! n with
  | Some c => ret c
  | None =>
      put (set_histogram
             (H.mk (H.window_duration h) (H.gpu_allocations h) (H.histogram h)
                   (<[n := 0%Z]> (H.node_to_count h)) (H.timestamps h)
                   (H.num_gpus h)) s) ;;;
      ret 0%Z
  end.

(** Lines 329-333, over the items [items] of the histogram. *)
Fixpoint collect_candidates (larger_device : gpu) (items : list (node * Z))
    (node_cost_for_gpu : list (Z * node)) : M t (list (Z * node)) :=
  match items with
  | [] => ret node_cost_for_gpu
  | (nd, cost) :: items' =>
      s ⇐ get ;;
      match gpu_allocations s !! nd with
      | None => raise TypeError
      | Some a =>
          if decide (larger_device ∈ a) then
            c ⇐ read_node_to_count nd ;;
            if decide (1 < c)%Z
            then collect_candidates larger_device items'
                   (heappush node_cost_for_gpu (cost, nd))
            else collect_candidates larger_device items' node_cost_for_gpu
          else collect_candidates larger_device items' node_cost_for_gpu
      end
  end.

(** What one turn of the [while] loop did with the popped entry; the
    list of these is a ghost result of [steal_loop]. *)
Inductive pop_action := Skipped | Stopped | Reassigned.

(** Lines 347-361.  Results: the two updated costs and the ghost log. *)
Fixpoint steal_loop (fuel : nat) (smaller_device : gpu)
    (node_cost_for_gpu : list (Z * node))
    (larger_allocation_cost smaller_device_allocation_cost : Qc)
  : M t (Qc * Qc * list (Z * node * pop_action)) :=
  match node_cost_for_gpu with
  | [] => ret (larger_allocation_cost, smaller_device_allocation_cost, [])
  | (cost, nd) :: heap' =>
      s ⇐ get ;;
      if negb (is_large_node (tree s) nd) then raise AssertionError
      else
        match gpu_allocations s !! nd with
        | None => raise KeyError
        | Some a =>
            if decide (smaller_device ∈ a) then
              r ⇐ steal_loop fuel smaller_device heap'
                    larger_allocation_cost smaller_device_allocation_cost ;;
              ret (r.1, (cost, nd, Skipped) :: r.2)
            else if decide (larger_allocation_cost - Zq cost
                            < smaller_device_allocation_cost + Zq cost)%Qc
            then ret (larger_allocation_cost, smaller_device_allocation_cost,
                      [(cost, nd, Stopped)])
            else
              put (set_gpu_allocations
                     (<[nd := {[ smaller_device ]}]> (gpu_allocations s)) s) ;;;
              update_children fuel nd smaller_device ;;;
              r ⇐ steal_loop fuel smaller_device heap'
                    (larger_allocation_cost - Zq cost)%Qc
                    (smaller_device_allocation_cost + Zq cost)%Qc ;;
              ret (r.1, (cost, nd, Reassigned) :: r.2)
        end
  end.

(** Lines 335-345; [now] is the clock reading inside the detector. *)
Definition split_single (now : Z) (larger_device smaller_device : gpu)
    (cost : Z) (nd : node)
    (larger_allocation_cost smaller_device_allocation_cost : Qc)
  : M t (Qc * Qc) :=
  let cost' := (Zq cost / Zq 2)%Qc in
  s ⇐ get ;;
  match gpu_allocations s !! nd with
  | None => raise KeyError
  | Some a =>
      if decide (smaller_device ∈ a)
      then ret (larger_allocation_cost, smaller_device_allocation_cost)
      else
        overloaded ⇐ pure_of (D.is_node_overloaded now nd larger_device
                                (overload_detector s)) ;;
        if (overloaded : bool) then
          put (set_overload_detector
                 (D.delete_after_allocation nd larger_device (overload_detector s))
                 (set_gpu_allocations
                    (<[nd := a ∪ {[ smaller_device ]}]> (gpu_allocations s)) s)) ;;;
          ret ((larger_allocation_cost - cost')%Qc,
               (smaller_device_allocation_cost + cost')%Qc)
        else ret (larger_allocation_cost, smaller_device_allocation_cost)
  end.

(** Lines 329-361 for one pair of devices: build the heap, then take the
    single-candidate or the multi-candidate path. *)
Definition steal_between (fuel : nat) (now : Z)
    (larger_device smaller_device : gpu)
    (larger_allocation_cost smaller_device_allocation_cost : Qc)
  : M t (Qc * Qc) :=
  s ⇐ get ;;
  node_cost_for_gpu ⇐ collect_candidates larger_device (H.histogram (histogram s)) [] ;;
  match node_cost_for_gpu with
  | [(cost, nd)] =>
      split_single now larger_device smaller_device cost nd
        larger_allocation_cost smaller_device_allocation_cost
  | _ =>
      r ⇐ steal_loop fuel smaller_device node_cost_for_gpu
            larger_allocation_cost smaller_device_allocation_cost ;;
      ret r.1
  end.

(** [handle_important_node_stealing_recursive] on the list
    [heads ++ [smallest]].  The slice [[1:]] keeps the last entry last, so
    the recursion runs down [heads] with the last entry carried along.
    [clock k] is the reading of [datetime.now()] at the level that has [k]
    entries before the last. *)
Fixpoint stealing_levels (fuel : nat) (clock : nat → Z)
    (heads : list (gpu * Qc)) (smallest : gpu * Qc) : M t unit :=
  match heads with
  | [] => ret tt
  | (larger_device, larger_allocation_cost) :: heads' =>
      let '(smaller_device, smaller_device_allocation_cost) := smallest in
      s ⇐ get ;;
      if decide (larger_allocation_cost
                 < HIGH_LOAD_THRESHOLD s * smaller_device_allocation_cost)%Qc
      then ret tt
      else
        r ⇐ steal_between fuel (clock (length heads)) larger_device smaller_device
              larger_allocation_cost smaller_device_allocation_cost ;;
        stealing_levels fuel clock heads' (smaller_device, r.2)
  end.

Definition handle_important_node_stealing_recursive (fuel : nat)
    (clock : nat → Z) (allocation_cost_with_devices : list (gpu * Qc))
  : M t unit :=
  match allocation_cost_with_devices with
  | [] => raise IndexError
  | first :: _ =>
      stealing_levels fuel clock (removelast allocation_cost_with_devices)
                      (List.last allocation_cost_with_devices first)
  end.

(** [sorted(l, key=lambda x: -x[1])]: stable, descending in the cost. *)
Fixpoint insert_sorted (x : gpu * Qc) (l : list (gpu * Qc)) : list (gpu * Qc) :=
  match l with
  | [] => [x]
  | y :: l' =>
      if decide (x.2 < y.2)%Qc then y :: insert_sorted x l' else x :: l
  end.

Definition sorted_desc (l : list (gpu * Qc)) : list (gpu * Qc) :=
  foldr insert_sorted [] l.

Definition handle_important_node_stealing (fuel : nat) (clock : nat → Z)
    (scheduled_idx : gpu) : M t unit :=
  s ⇐ get ;;
  if decide (map_fold (λ _ v acc, v + acc)%Z 0%Z (per_gpu_load s) < 50)%Z
  then ret tt
  else
    allocation_cost_per_gpu ⇐ pure_of (H.current_allocation_per_gpu (histogram s)) ;;
    let allocations_with_indices := imap (λ gpu_id c, (gpu_id, c)) allocation_cost_per_gpu in
    handle_important_node_stealing_recursive fuel clock
      (sorted_desc allocations_with_indices).

(** *** [runtime_selector]

    The body of the method in three consecutive parts: lines 253-271
    ([place_request]), line 273 (the histogram update) and lines 274-299
    ([commit_placement]).  [now] is the reading of [datetime.now()] on
    line 273, [clock] gives the readings inside the rebalancer and [rnd]
    the random draw. *)

Record placement := mk_placement {
  leaf_of : node;
  important_of : node;
  selected_of : gset gpu;
}.

Definition place_request (fuel : nat) (input_ids : list Z)
    (runtime_id_with_highest_hit_rate : option gpu) : M t placement :=
  s0 ⇐ get ;;
  let '(leaf_node, split_nodes, cache') := insert input_ids (cache s0) in
  put (set_cache cache' s0) ;;;
  handle_split_nodes_gpu_allocations split_nodes ;;;
  handle_split_node_histogram split_nodes ;;;
  s1 ⇐ get ;;
  important_node ⇐ pure_of (get_important_node fuel (tree s1) (Some leaf_node)) ;;
  gpu_selected ⇐ pure_of (select_gpus fuel leaf_node
                            runtime_id_with_highest_hit_rate s1) ;;
  ret (mk_placement leaf_node important_node gpu_selected).

Definition commit_placement (fuel : nat) (clock : nat → Z) (rnd : nat)
    (text request_id : option string) (p : placement) : M t gpu :=
  update_gpu_allocation_for_parent fuel (Some (leaf_of p)) (selected_of p) ;;;
  runtime_idx ⇐ pure_of (pick_runtime rnd (selected_of p)) ;;
  s2 ⇐ get ;;
  match per_gpu_load s2 !! runtime_idx with
  | None => raise KeyError
  | Some load =>
      put (set_per_gpu_load (<[runtime_idx := (load + 1)%Z]> (per_gpu_load s2)) s2) ;;;
      zoom cache set_cache (update_allocated_size fuel (Some (leaf_of p)) runtime_idx) ;;;
      s3 ⇐ get ;;
      (if enable_rebalancing s3
       then handle_important_node_stealing fuel clock runtime_idx
       else ret tt) ;;;
      modify (λ s, set_counter_metrics
                     (counter s + 1)%Z
                     (metrics_dict s ++ [mk_metric text request_id runtime_idx]) s) ;;;
      ret runtime_idx
  end.

Definition runtime_selector (fuel : nat) (now : Z) (clock : nat → Z) (rnd : nat)
    (text request_id : option string) (input_ids : list Z)
    (runtime_id_with_highest_hit_rate : option gpu) : M t gpu :=
  p ⇐ place_request fuel input_ids runtime_id_with_highest_hit_rate ;;
  modify (λ s, set_histogram
                 (H.update (tree s) now (important_of p) (leaf_of p) (histogram s))
                 s) ;;;
  commit_placement fuel clock rnd text request_id p.

(** [update_overload_detector]; [ttft] is [func_output.ttft] and [now] the
    reading of [datetime.now()]. *)
Definition update_overload_detector (fuel : nat) (now : Z) (input_ids : list Z)
    (runtime_idx : gpu) (ttft : Qc) : M t unit :=
  s ⇐ get ;;
  let leaf_node := find_node input_ids (cache s) in
  important_node ⇐ pure_of (get_important_node fuel (tree s) leaf_node) ;;
  zoom overload_detector set_overload_detector
    (D.add_data_point now important_node runtime_idx ttft).

(** [get_recomp_cost], the variant that weighs a node by its histogram
    entry ([histogram.histogram.get(node, 1)]). *)
Fixpoint get_recomp_cost (fuel : nat) (st : gmap node LPTreeNode)
    (n : option node) (gpu_id : gpu) (h : H.t) : outcome Z :=
  match fuel with
  | O => Raise RecursionError
  | S fuel' =>
    match n with
    | None => Return 0%Z
    | Some x =>
        let nd := deref st x in
        if has_cached_gpu nd gpu_id then Return 0%Z
        else
          up ↤ get_recomp_cost fuel' st (parent nd) gpu_id h ;;
          Return (default 1%Z (dict_get (H.histogram h) x) + up)%Z
    end
  end.

Definition set_node (x : node) (nd : LPTreeNode) (s : t) : t :=
  set_cache (set_nodes (<[x := nd]> (tree s)) (cache s)) s.

(** [evict_callback].  The helper of lines 221-226 is a local function; its
    own loop calls it through [self], where no such attribute exists: the
    first child met raises [AttributeError]. *)
Definition evict_callback (x : node) (runtime_selected : gpu) : M t nat :=
  s ⇐ get ;;
  let nd := deref (tree s) x in
  let nd1 := mkNode (value nd) (context_length nd) (parent nd) (children nd)
                    (cached_gpus nd) (evicted_gpus nd ∪ {[ runtime_selected ]})
                    (ref_counter nd) in
  put (set_node x nd1 s) ;;;
  if decide (runtime_selected ∈ cached_gpus nd) then
    s1 ⇐ get ;;
    put (set_node x (set_cached_gpus (cached_gpus nd ∖ {[ runtime_selected ]}) nd1)
           s1) ;;;
    s2 ⇐ get ;;
    (if is_large_node (tree s2) x then
       match gpu_allocations s2 !! x with
       | None => ret tt
       | Some a =>
           if decide (runtime_selected ∈ a) then
             put (set_gpu_allocations
                    (<[x := a ∖ {[ runtime_selected ]}]> (gpu_allocations s2)) s2) ;;;
             match (map_to_list (children nd)).*2 with
             | [] => ret tt
             | _ :: _ => raise AttributeError
             end
           else ret tt
       end
     else ret tt) ;;;
    ret (length (value nd))
  else raise KeyError.



(** Python's [max] of a non-empty list. *)
Definition list_max_Z (l : list Z) : outcome Z :=
  match l with
  | [] => Raise ValueError
  | x :: l' => Return (foldl Z.max x l')
  end.

(** The loop of lines 397-400; [rand k] is the [k]-th reading of
    [np.random.rand()]. *)
Fixpoint steal_draws (rand : nat → Qc) (k : nat) (threshold : Qc)
    (low_load_nodes : list gpu) : option gpu :=
  match low_load_nodes with
  | [] => None
  | runtime_id :: rest =>
      if decide (rand k < threshold)%Qc then Some runtime_id
      else steal_draws rand (S k) threshold rest
  end.

(** [work_steal_low_loaded_prefixes]; the constant [0.1] is one tenth. *)
Definition work_steal_low_loaded_prefixes (rand : nat → Qc) (s : t)
  : outcome (option gpu) :=
  m ↤ list_max_Z (mem_cost s) ;;
  let max_req := Z.max m 1 in
  normalized_mem_cost ↤
    ofoldl (λ acc x, q ↤ truediv (Zq x) (Zq max_req) ;; Return (acc ++ [q]))
           [] (mem_cost s) ;;
  if decide (counter s < 20)%Z then Return None
  else
    let low_load_nodes :=
      (filter (λ p, (p.2 < Q2Qc (1 # 10))%Qc)
              (imap (λ runtime_id nd, (runtime_id, nd)) normalized_mem_cost)).*1 in
    match low_load_nodes with
    | [] => Return None
    | _ :: _ =>
        let y := Z.of_nat (length low_load_nodes) in
        let x := (Z.of_nat (num_gpus s) - y)%Z in
        threshold ↤ truediv (Zq y) (Zq (x + y)) ;;
        Return (steal_draws rand 0 threshold low_load_nodes)
    end.

End GlobalScheduler.

(** * Vocabulary of the statements *)

Module H := SlidingWindowHistogram.
Module D := TTFTWindowedOverloadedDetector.
Module G := GlobalScheduler.

(** ** Detector and histogram *)


Definition event_time (e : Z * node * node) : Z := e.1.1.



(** What the histogram item [item] adds to the load of [g]: an equal part
    of its weighted count when [g] is in the item's allocation set. *)
Definition share (h : H.t) (g : gpu) (item : node * Z) : Qc :=
  let gpus := default ∅ (H.gpu_allocations h !! item.1) in
  if decide (g ∈ gpus) then (Zq item.2 / Nq (size gpus))%Qc else 0%Qc.

(** A small histogram: two events one second apart on node 1, which is
    allocated to worker 0. *)
Definition demo_store : gmap node LPTreeNode :=
  {[ 1 := mkNode [10; 11; 12; 13]%Z 4 (Some 0) ∅ ∅ ∅ [0; 0]%Z;
     2 := mkNode [20; 21]%Z 2 (Some 0) ∅ ∅ ∅ [0; 0]%Z ]}.

Definition demo_histogram : H.t :=
  H.update demo_store 1000000 1 1
    (H.update demo_store 0 1 1 (H.init 180000000 {[ 1 := {[ 0 ]} ]} 2)).

(** ** Placement *)

(** The part of the state that only the constructor and line 279 write. *)
Definition same_workers (s s' : G.t) : Prop :=
  G.per_gpu_load s' = G.per_gpu_load s
  ∧ G.all_gpus s' = G.all_gpus s
  ∧ G.num_gpus s' = G.num_gpus s.

Definition keeps_workers {A} (c : M G.t A) : Prop :=
  ∀ s, same_workers s (c s).2.

(** The worker set a node inherits, as the specification words it: the
    entry of the nearest ancestor (the node included) that has a
    non-empty one, and all workers when there is none up to the root. *)
Inductive inherits (s : G.t) : option node → gset gpu → Prop :=
| inherits_all : inherits s None (G.all_gpus s)
| inherits_here h a :
    G.gpu_allocations s !! h = Some a → a ≠ ∅ → inherits s (Some h) a
| inherits_up h a :
    G.gpu_allocations s !! h = None ∨ G.gpu_allocations s !! h = Some ∅ →
    inherits s (parent (deref (G.tree s) h)) a →
    inherits s (Some h) a.


(** The chain of [parent] links from a node ends after [k] steps. *)
Inductive reaches_root (st : gmap node LPTreeNode) : option node → nat → Prop :=
| reaches_none : reaches_root st None 0
| reaches_some h k :
    reaches_root st (parent (deref st h)) k → reaches_root st (Some h) (S k).

(** What the constructor establishes for [num_gpus] workers. *)
Definition workers_wf (s : G.t) : Prop :=
  dom (G.per_gpu_load s) = list_to_set (seq 0 (G.num_gpus s))
  ∧ G.all_gpus s = list_to_set (seq 0 (G.num_gpus s)).

(** ** Runs *)

(** What one call of [runtime_selector] takes from its environment: the
    clock readings, the random draw and the two strings it logs. *)
Record call_env := mk_env {
  env_now : Z;
  env_clock : nat → Z;
  env_rnd : nat;
  env_text : option string;
  env_rid : option string;
}.

Definition route (fuel : nat) (e : call_env) (input_ids : list Z)
    (hint : option gpu) : M G.t gpu :=
  G.runtime_selector fuel (env_now e) (env_clock e) (env_rnd e)
    (env_text e) (env_rid e) input_ids hint.

(** A call at [t] seconds, with nothing else to say. *)
Definition at_second (t : Z) : call_env :=
  mk_env (t * 1000000) (λ _, (t * 1000000)%Z) 0 None None.

Definition empty_scheduler (eviction rebalancing : bool) : G.t :=
  G.init 2 eviction rebalancing.

Definition first_route (fuel : nat) (e1 : call_env) (eviction rebalancing : bool)
  : outcome gpu * G.t :=
  route (3 + fuel) e1 [10; 11; 12; 13]%Z None (empty_scheduler eviction rebalancing).

Definition second_route (fuel : nat) (e1 e2 : call_env) (eviction rebalancing : bool)
  : outcome gpu * G.t :=
  route (3 + fuel) e2 [20; 21; 22; 23]%Z None
    (first_route fuel e1 eviction rebalancing).2.

(** The recompute costs that line 265 computes for a request, one per
    worker, on the tree that holds the request's leaf. *)
Definition recom_costs_for (fuel : nat) (input_ids : list Z) (s : G.t)
  : list (outcome Z) :=
  let '(leaf_node, _, c) := insert input_ids (G.cache s) in
  (λ gpu_id, G.get_recomp_cost_basic (3 + fuel) (nodes c)
               (parent (deref (nodes c) leaf_node)) gpu_id)
    <$> seq 0 (G.num_gpus s).

(** The first route with its histogram update resolved: the event is the
    only one in the FIFO and nothing is purged. *)
Definition first_route_resolved (fuel : nat) (e1 : call_env)
    (eviction rebalancing : bool) : outcome gpu * G.t :=
  let p := G.place_request (3 + fuel) [10; 11; 12; 13]%Z None
             (empty_scheduler eviction rebalancing) in
  match p.1 with
  | Return pl =>
      G.commit_placement (3 + fuel) (env_clock e1) (env_rnd e1)
        (env_text e1) (env_rid e1) pl
        (G.set_histogram
           (H.record_event (G.tree p.2) (env_now e1) (G.important_of pl)
              (G.leaf_of pl) (G.histogram p.2)) p.2)
  | Raise e => (Raise e, p.2)
  end.

(** The scheduler after one route of [10, 11, 12, 13]: the leaf is node 1
    below the root 0, on worker 0. *)
Definition one_route : G.t :=
  (route 3 (at_second 0) [10; 11; 12; 13]%Z None (G.init 2 false true)).2.

(** ** Scheduler states for the runs below *)

Definition after {A} (c : M G.t A) (s : G.t) : G.t := (c s).2.

(** One prefix, routed twice to worker 0 on the caller's hint, whose TTFT
    went from 1 at second 0 to 5 at second 170. *)
Definition one_hot_prefix : G.t :=
  after (G.update_overload_detector 3 170000000 [10; 11; 12; 13]%Z 0 (Zq 5))
    (after (G.update_overload_detector 3 0 [10; 11; 12; 13]%Z 0 (Zq 1))
       (after (route 3 (at_second 1) [10; 11; 12; 13]%Z (Some 0))
          (after (route 3 (at_second 0) [10; 11; 12; 13]%Z (Some 0))
             (G.init 2 false true)))).


(** A request of six tokens served by worker 0, with one TTFT sample. *)
Definition six_tokens_served : G.t :=
  after (G.update_overload_detector 3 1000000 [10; 11; 12; 13; 14; 15]%Z 0
           (Q2Qc (1 # 2)))
    (after (route 3 (at_second 0) [10; 11; 12; 13; 14; 15]%Z None)
       (G.init 2 false true)).

(** The same, four minutes later, after another prefix was routed: the
    update of that route purged the six-token event and emptied the
    allocation set of its node. *)
Definition six_tokens_stale : G.t :=
  after (route 3 (at_second 240) [20; 21]%Z None) six_tokens_served.

(** The state between [insert] and the two split handlers, lines 254-255,
    for a request that splits a node. *)
Definition split_pending (s : G.t) : G.t :=
  G.set_cache (insert [10; 11; 12; 99; 100]%Z (G.cache s)).2 s.

(** ** Tree shape *)




(** ** Rebalancer *)




Definition heap_sorted (heap : list (Z * node)) : Prop :=
  StronglySorted (λ x y, (x.1 ≤ y.1)%Z) heap.


(** Building the heap wrote at most [node_to_count]. *)
Definition counts_only (s s' : G.t) : Prop :=
  G.gpu_allocations s' = G.gpu_allocations s
  ∧ G.cache s' = G.cache s
  ∧ G.overload_detector s' = G.overload_detector s
  ∧ H.histogram (G.histogram s') = H.histogram (G.histogram s).

(** ** Vocabulary of the further properties *)

(** The samples of a series are in the order of their timestamps. *)
Definition series_sorted (q : list (Z * Qc)) : Prop :=
  StronglySorted (λ a b, (a.1 ≤ b.1)%Z) q.

(** The weighted count that the events of [q] give to node [n]: the sum of
    the context lengths of their leaves. *)
Fixpoint weight_of (st : gmap node LPTreeNode) (n : node)
    (q : list (Z * node * node)) : Z :=
  match q with
  | [] => 0
  | (_, m, leaf) :: q' =>
      ((if decide (m = n) then Z.of_nat (context_length (deref st leaf)) else 0)
       + weight_of st n q')%Z
  end.

(** The number of events of [q] on node [n]. *)
Fixpoint events_of (n : node) (q : list (Z * node * node)) : Z :=
  match q with
  | [] => 0
  | (_, m, _) :: q' => ((if decide (m = n) then 1 else 0) + events_of n q')%Z
  end.

(** The histogram holds, for every node, the weighted count of the events in
    the FIFO; a node without an entry stands for 0. *)
Definition accounted (st : gmap node LPTreeNode) (h : H.t) : Prop :=
  ∀ n, default 0%Z (dict_get (H.histogram h) n) = weight_of st n (H.timestamps h).

(** [node_to_count] holds, for every node, the number of its events in the
    FIFO. *)
Definition counted (h : H.t) : Prop :=
  ∀ n, default 0%Z (H.node_to_count h !! n) = events_of n (H.timestamps h).

(** Every event of [q] has a leaf with a context of at least one token. *)
Definition positive_leaves (st : gmap node LPTreeNode)
    (q : list (Z * node * node)) : Prop :=
  Forall (λ e, 0 < context_length (deref st e.2)) q.


(** The histogram without the items of the nodes that have fewer than
    [min_load] events in the window. *)
Definition with_min_load (min_load : Z) (h : H.t) : H.t :=
  H.mk (H.window_duration h) (H.gpu_allocations h)
       (filter (λ item, ¬ (default 0 (H.node_to_count h !! item.1) < min_load)%Z)
               (H.histogram h))
       (H.node_to_count h) (H.timestamps h) (H.num_gpus h).

(** A histogram whose node 1 is allocated to a worker that does not
    exist. *)
Definition stray_histogram : H.t :=
  H.mk 180000000 {[ 1 := {[ 5 ]} ]} [(1, 8%Z)] {[ 1 := 2%Z ]} [] 2.

(** [a] is the node [n] or one of its ancestors. *)
Inductive on_path (st : gmap node LPTreeNode) : option node → node → Prop :=
| on_path_here h : on_path st (Some h) h
| on_path_up h a : on_path st (parent (deref st h)) a → on_path st (Some h) a.

(** [a] is the first large node on the way from [n] to the root. *)
Inductive first_large (st : gmap node LPTreeNode) : option node → node → Prop :=
| first_large_here h :
    G.is_large_node st h = true → first_large st (Some h) h
| first_large_up h a :
    G.is_large_node st h = false → first_large st (parent (deref st h)) a →
    first_large st (Some h) a.

(** The node hangs in the tree as [insert] leaves it: below a parent, its
    context is the parent's context and its own tokens, of which it has at
    least one; without a parent, it is the root, with an empty context. *)
Definition chained (st : gmap node LPTreeNode) (x : node) : Prop :=
  match parent (deref st x) with
  | Some p =>
      context_length (deref st x)
      = context_length (deref st p) + num_tokens (deref st x)
      ∧ 0 < num_tokens (deref st x)
  | None => context_length (deref st x) = 0
  end.

(** What line 268 compares for worker [gpu_id]: the recompute cost of the
    leaf's parent and the worker's load. *)
Definition total_cost (fuel : nat) (leaf_node : node) (s : G.t) (gpu_id : gpu)
  : outcome Qc :=
  rc ↤ G.get_recomp_cost_basic fuel (G.tree s)
         (parent (deref (G.tree s) leaf_node)) gpu_id ;;
  mc ↤ H.current_allocation_per_gpu (G.histogram s) ;;
  match mc !! gpu_id with
  | Some m => Return (Zq rc + m)%Qc
  | None => Raise IndexError
  end.

(** ** Frames *)

(** What the constructor fixes for the life of a scheduler.  The load
    counters change, the workers they are kept for do not. *)
Definition config (s : G.t) :=
  (G.num_gpus s, G.all_gpus s, dom (G.per_gpu_load s), G.mem_cost s,
   G.max_tokens_gpu s, G.HIGH_LOAD_THRESHOLD s, G.enable_eviction s,
   G.enable_rebalancing s, H.num_gpus (G.histogram s),
   H.window_duration (G.histogram s),
   D.window_duration (G.overload_detector s),
   D.half_window_duration (G.overload_detector s)).

(** The books on the requests that were routed. *)
Definition ledger (s : G.t) :=
  (config s, G.per_gpu_load s, G.counter s, G.metrics_dict s).

(** All that the scheduler knows of the requests: the books, the tree and
    the weighted counts with their event FIFO. *)
Definition requests (s : G.t) :=
  (ledger s, G.cache s, H.histogram (G.histogram s), H.timestamps (G.histogram s)).

(** Every worker of an allocation set of [s'] is one of [P] or was in an
    allocation set of [s]. *)
Definition grows_within (P : gpu → Prop) (s s' : G.t) : Prop :=
  ∀ x a' g, G.gpu_allocations s' !! x = Some a' → g ∈ a' →
    P g ∨ ∃ y a, G.gpu_allocations s !! y = Some a ∧ g ∈ a.

(** The computation leaves the part [proj] of the state as it found it and
    lets the allocation sets grow within [P], whether it returns or
    raises. *)
Definition framed {T A} (proj : G.t → T) (P : gpu → Prop) (c : M G.t A) : Prop :=
  ∀ s, proj (c s).2 = proj s ∧ grows_within P s (c s).2.

(** The allocation sets hold workers below [num_gpus]. *)
Definition allocations_in_range (s : G.t) : Prop :=
  ∀ x a g, G.gpu_allocations s !! x = Some a → g ∈ a → g < G.num_gpus s.

(** The bookkeeping of the workers is as the constructor leaves it, the
    histogram counts as many workers as the scheduler, and the allocation
    sets hold workers below [num_gpus]. *)
Definition scheduler_wf (s : G.t) : Prop :=
  workers_wf s
  ∧ H.num_gpus (G.histogram s) = G.num_gpus s
  ∧ allocations_in_range s.

(** The calls that a client makes: [runtime_selector] for a request, and
    [update_overload_detector] when it was served. *)
Inductive call :=
| Route (e : call_env) (input_ids : list Z) (hint : option gpu)
| Report (now : Z) (input_ids : list Z) (runtime_idx : gpu) (ttft : Qc).

(** The caller's preferred worker, when there is one, exists. *)
Definition hint_in_range (n : nat) (c : call) : Prop :=
  match c with
  | Route _ _ (Some r) => r < n
  | _ => True
  end.

(** The state after a call, whether it returned or raised. *)
Definition serve_one (fuel : nat) (s : G.t) (c : call) : G.t :=
  match c with
  | Route e input_ids hint => (route fuel e input_ids hint s).2
  | Report now input_ids runtime_idx ttft =>
      (G.update_overload_detector fuel now input_ids runtime_idx ttft s).2
  end.

Definition serve (fuel : nat) (calls : list call) (s : G.t) : G.t :=
  foldl (serve_one fuel) s calls.

(** The prefix [10, 11, 12, 13] and its extension by one token, both on
    worker 0: node 1 is large, allocated to worker 0 and cached there, and
    has the child 2. *)
Definition prefix_with_child : G.t :=
  after (route 3 (at_second 1) [10; 11; 12; 13; 14]%Z (Some 0))
    (after (route 3 (at_second 0) [10; 11; 12; 13]%Z (Some 0))
       (G.init 2 false true)).

(** * Properties *)

(** ** Dictionaries *)

Section DictFacts.
Context {K V : Type} `{EqDecision K}.
Implicit Types (d : list (K * V)) (k : K) (v : V).

Lemma dict_get_set_eq d k v : dict_get (dict_set d k v) k = Some v.
Proof.
  induction d as [|[k' v'] d IH]; simpl.
  - by rewrite decide_True.
  - destruct (decide (k' = k)) as [->|Hne]; simpl.
    + by rewrite decide_True.
    + by rewrite decide_False.
Qed.

Lemma dict_get_set_ne d k k' v :
  k ≠ k' → dict_get (dict_set d k v) k' = dict_get d k'.
Proof.
  intros Hne. induction d as [|[k0 v0] d IH]; simpl.
  - by rewrite decide_False.
  - destruct (decide (k0 = k)) as [->|Hne0]; simpl.
    + by rewrite !decide_False.
    + destruct (decide (k0 = k')); [done | apply IH].
Qed.

Lemma dict_get_del_eq d k : dict_get (dict_del d k) k = None.
Proof.
  induction d as [|[k' v'] d IH]; simpl; [done|].
  destruct (decide (k' = k)) as [->|Hne]; simpl; [done|].
  by rewrite decide_False.
Qed.

Lemma dict_get_del_ne d k k' :
  k ≠ k' → dict_get (dict_del d k) k' = dict_get d k'.
Proof.
  intros Hne. induction d as [|[k0 v0] d IH]; simpl; [done|].
  destruct (decide (k0 = k)) as [->|Hne0]; simpl.
  - by rewrite decide_False.
  - destruct (decide (k0 = k')); [done | apply IH].
Qed.
End DictFacts.

(** ** The overload detector *)

Section Detector.
Import TTFTWindowedOverloadedDetector.



End Detector.

(** ** The sliding window histogram *)

Section Histogram.
Import SlidingWindowHistogram.
Implicit Types (h : t) (st : gmap node LPTreeNode) (q : list (Z * node * node)).

Lemma expire_timestamps st n leaf h :
  timestamps (expire st n leaf h).2 = timestamps h.
Proof. unfold expire. by destruct (decide _). Qed.







Lemma set_timestamps_same h : set_timestamps (timestamps h) h = h.
Proof. by destruct h. Qed.

(** Nothing is purged while the head of the FIFO is inside the window. *)
Lemma purge_nothing st ws h :
  match timestamps h with
  | [] => True
  | e :: _ => (ws ≤ event_time e)%Z
  end →
  purge st ws (timestamps h) h = ([], h).
Proof.
  intros Hhead. rewrite <- (set_timestamps_same h) at 3.
  destruct (timestamps h) as [|[[ts n] leaf] q]; simpl; [done|].
  unfold event_time in Hhead. simpl in Hhead. unfold older.
  by rewrite bool_decide_eq_false_2 by lia.
Qed.



End Histogram.

(** ** Load per GPU *)

Section AllocationPerGpu.
Import SlidingWindowHistogram.
Implicit Types (h : t) (allocation : list Qc).

(** [ring] wants the same atoms on both sides: fold the list maps that
    [simpl] opened, and drop the hypotheses. *)
Ltac qc_ring :=
  clear;
  repeat match goal with
         | |- context [list_fmap ?A ?B ?f ?l] =>
             change (list_fmap A B f l) with (f <$> l)
         end;
  ring.

Lemma Nq_nonzero (n : nat) : n ≠ 0 → Nq n ≠ 0%Qc.
Proof.
  intros Hn Heq. unfold Nq, Zq in Heq.
  apply (f_equal this) in Heq. simpl in Heq.
  assert (Hq : (inject_Z (Z.of_nat n) == 0)%Q).
  { rewrite <- (Qred_correct (inject_Z (Z.of_nat n))). rewrite Heq. reflexivity. }
  unfold Qeq, inject_Z in Hq. simpl in Hq. lia.
Qed.

Lemma add_shares (cost : Z) (len : nat) (l : list gpu) allocation :
  NoDup l → len ≠ 0 → (∀ g, g ∈ l → g < length allocation) →
  ∃ v, ofoldl (add_share cost len) allocation l = Return v
       ∧ length v = length allocation
       ∧ ∀ g a, allocation !! g = Some a →
           v !! g = Some (a + if decide (g ∈ l) then Zq cost / Nq len else 0)%Qc.
Proof.
  intros Hnd Hlen. revert allocation.
  induction Hnd as [|g0 l Hnotin Hnd IH]; intros allocation Hin; simpl.
  - exists allocation. split_and!; [done|done|].
    intros g a ->. f_equal. qc_ring.
  - destruct (lookup_lt_is_Some_2 allocation g0) as [a0 Ha0].
    { apply Hin. by left. }
    unfold add_share at 1. rewrite Ha0. unfold truediv.
    rewrite decide_False by by apply Nq_nonzero. simpl.
    destruct (IH (<[g0 := (a0 + Zq cost / Nq len)%Qc]> allocation)) as (v & Hv & Hl & Hg).
    { intros g Hg. rewrite length_insert. apply Hin. by right. }
    exists v. split_and!; [done | by rewrite Hl, length_insert |].
    intros g a Hga. destruct (decide (g = g0)) as [->|Hne].
    + rewrite (Hg g0 (a0 + Zq cost / Nq len)%Qc).
      * rewrite decide_False by done. rewrite decide_True by by left.
        assert (a = a0) as -> by congruence. f_equal. qc_ring.
      * apply list_lookup_insert_eq. by eapply lookup_lt_Some.
    + rewrite (Hg g a) by by rewrite list_lookup_insert_ne.
      f_equal. f_equal.
      destruct (decide (g ∈ l)) as [Hl1|Hl1].
      * rewrite decide_True; [done | by right].
      * rewrite decide_False; [done|]. by intros [?|?]%elem_of_cons.
Qed.

Lemma allocation_fold h0 (items : list (node * Z)) allocation :
  (∀ nd cost a g, (nd, cost) ∈ items → gpu_allocations h0 !! nd = Some a →
                  g ∈ a → g < length allocation) →
  ∃ v,
    ofoldl (λ acc '(nd, cost),
              let gpus := default ∅ (gpu_allocations h0 !! nd) in
              ofoldl (add_share cost (size gpus)) acc (elements gpus))
           allocation items = Return v
    ∧ length v = length allocation
    ∧ ∀ g a, allocation !! g = Some a →
        v !! g = Some (a + sum_Qc (share h0 g <$> items))%Qc.
Proof.
  revert allocation. induction items as [|[nd cost] items IH]; intros allocation Hin; simpl.
  - exists allocation. split_and!; [done|done|]. intros g a ->. f_equal. qc_ring.
  - set (gpus := default ∅ (gpu_allocations h0 !! nd)).
    destruct (decide (elements gpus = [])) as [Hempty|Hne].
    + rewrite Hempty. simpl.
      destruct (IH allocation) as (v & Hv & Hl & Hg).
      { intros nd' c' a g Hi. apply (Hin nd' c' a g). by right. }
      exists v. split_and!; [done|done|].
      intros g a Ha. rewrite (Hg g a Ha). f_equal.
      unfold share at 2. simpl. fold gpus.
      apply elements_empty_inv in Hempty. apply leibniz_equiv in Hempty.
      rewrite decide_False by (rewrite Hempty; set_solver). qc_ring.
    + destruct (add_shares cost (size gpus) (elements gpus) allocation)
        as (v1 & Hv1 & Hl1 & Hg1).
      * apply NoDup_elements.
      * unfold size, set_size. simpl. by destruct (elements gpus).
      * intros g Hg%elem_of_elements. subst gpus.
        destruct (gpu_allocations h0 !! nd) as [a|] eqn:Ha; simpl in Hg; [|set_solver].
        apply (Hin nd cost a g); [by left|done|done].
      * rewrite Hv1. simpl.
        destruct (IH v1) as (v & Hv & Hl & Hg).
        { intros nd' c' a g Hi. rewrite Hl1. apply (Hin nd' c' a g). by right. }
        exists v. split_and!; [done | congruence |].
        intros g a Ha. rewrite (Hg g _ (Hg1 g a Ha)). f_equal.
        unfold share at 2. simpl. fold gpus.
        destruct (decide (g ∈ elements gpus)) as [Hi|Hi].
        -- rewrite decide_True by by apply elem_of_elements. qc_ring.
        -- rewrite decide_False by by rewrite <- elem_of_elements. qc_ring.
Qed.

(** C9.  When the allocation sets of the histogram's nodes hold worker
    ids below [num_gpus], [current_allocation_per_gpu] returns (it raises
    nothing, in particular no [ZeroDivisionError]) a list of length
    [num_gpus] whose entry [g] is the sum over the histogram's nodes of
    [share]: the node's weighted count divided by the size of its
    allocation set when [g] is in that set, and nothing when it is not,
    which covers the empty and the absent allocation set. *)
Theorem current_allocation_per_gpu_spec h :
  (∀ nd cost a g, (nd, cost) ∈ histogram h → gpu_allocations h !! nd = Some a →
                  g ∈ a → g < num_gpus h) →
  ∃ v, current_allocation_per_gpu h = Return v
       ∧ length v = num_gpus h
       ∧ (∀ g, g < num_gpus h → v !! g = Some (sum_Qc (share h g <$> histogram h)))
       ∧ (∀ g nd cost, (nd, cost) ∈ histogram h →
            default ∅ (gpu_allocations h !! nd) = ∅ → share h g (nd, cost) = 0%Qc)
       ∧ (∀ g nd cost, (nd, cost) ∈ histogram h →
            g ∈ default ∅ (gpu_allocations h !! nd) →
            0 < size (default ∅ (gpu_allocations h !! nd))).
Proof.
  intros Hin. unfold current_allocation_per_gpu.
  destruct (allocation_fold h (histogram h) (replicate (num_gpus h) 0%Qc))
    as (v & Hv & Hl & Hg).
  { intros nd cost a g ???. rewrite length_replicate. by eapply Hin. }
  exists v. rewrite length_replicate in Hl. split_and!; [done|done| | |].
  - intros g Hlt. rewrite (Hg g 0%Qc) by by apply lookup_replicate_2.
    f_equal. qc_ring.
  - intros g nd cost _ He. unfold share. simpl. rewrite He.
    by rewrite decide_False by set_solver.
  - intros g nd cost _ Hg'.
    destruct (decide (size (default ∅ (gpu_allocations h !! nd)) = 0)) as [Hz|]; [|lia].
    apply size_empty_inv in Hz. apply leibniz_equiv in Hz. rewrite Hz in Hg'. set_solver.
Qed.

Lemma current_allocation_per_gpu_spec_witness :
  ∃ v, current_allocation_per_gpu demo_histogram = Return v
       ∧ length v = num_gpus demo_histogram
       ∧ (∀ g, g < num_gpus demo_histogram →
            v !! g = Some (sum_Qc (share demo_histogram g <$> histogram demo_histogram)))
       ∧ (∀ g nd cost, (nd, cost) ∈ histogram demo_histogram →
            default ∅ (gpu_allocations demo_histogram !! nd) = ∅ →
            share demo_histogram g (nd, cost) = 0%Qc)
       ∧ (∀ g nd cost, (nd, cost) ∈ histogram demo_histogram →
            g ∈ default ∅ (gpu_allocations demo_histogram !! nd) →
            0 < size (default ∅ (gpu_allocations demo_histogram !! nd))).
Proof.
  apply (current_allocation_per_gpu_spec demo_histogram).
  intros nd cost a g Hin Ha Hg.
  assert (Hh : histogram demo_histogram = [(1, 8%Z)]) by (vm_compute; reflexivity).
  assert (Hal : gpu_allocations demo_histogram = {[ 1 := {[ 0 ]} ]})
    by (vm_compute; reflexivity).
  assert (Hn : num_gpus demo_histogram = 2) by reflexivity.
  rewrite Hh in Hin. rewrite Hal in Ha. rewrite Hn.
  apply list_elem_of_singleton in Hin as [= -> ->].
  rewrite lookup_singleton_eq in Ha. injection Ha as <-.
  apply elem_of_singleton in Hg as ->. lia.
Defined.

(** Whatever the allocation sets hold, the only exception that
    [current_allocation_per_gpu] can raise is the [IndexError] of a
    worker id outside the list; the divisor is never 0. *)
Lemma add_share_raises cost (l : list gpu) allocation e :
  l ≠ [] →
  ofoldl (add_share cost (length l)) allocation l = Raise e → e = IndexError.
Proof.
  intros Hne. assert (Hlen : length l ≠ 0) by by destruct l.
  revert Hlen. generalize (length l) as len. intros len Hlen. clear Hne.
  revert allocation. induction l as [|g l IH]; intros allocation; simpl; [done|].
  unfold add_share at 1. destruct (allocation !! g); simpl; [|congruence].
  unfold truediv. rewrite decide_False by by apply Nq_nonzero. simpl. apply IH.
Qed.

(** X9.  Whatever the allocation sets hold, the only exception that
    [current_allocation_per_gpu] can raise is the [IndexError] of a worker
    id outside the list; it never divides by 0. *)
Lemma current_allocation_per_gpu_raises h e :
  current_allocation_per_gpu h = Raise e → e = IndexError.
Proof.
  unfold current_allocation_per_gpu.
  generalize (replicate (num_gpus h) 0%Qc) as allocation.
  induction (histogram h) as [|[nd cost] items IH]; intros allocation; simpl; [done|].
  set (gpus := default ∅ (gpu_allocations h !! nd)).
  destruct (ofoldl (add_share cost (size gpus)) allocation (elements gpus)) eqn:Hf; simpl.
  - apply IH.
  - intros [= <-]. destruct (decide (elements gpus = [])) as [He|Hne].
    + rewrite He in Hf. done.
    + eapply add_share_raises; [exact Hne|]. exact Hf.
Qed.
End AllocationPerGpu.


(** ** Two routes on an empty scheduler *)

Section FirstRoutes.
Import GlobalScheduler.
Variables (fuel : nat) (e1 e2 : call_env) (eviction rebalancing : bool).

Lemma runtime_selector_parts fuel0 now clock rnd text rid input_ids hint (s : t) :
  runtime_selector fuel0 now clock rnd text rid input_ids hint s
  = match place_request fuel0 input_ids hint s with
    | (Return p, s1) =>
        commit_placement fuel0 clock rnd text rid p
          (set_histogram
             (H.update (tree s1) now (important_of p) (leaf_of p) (histogram s1)) s1)
    | (Raise e, s1) => (Raise e, s1)
    end.
Proof. reflexivity. Qed.

Lemma first_route_eq :
  first_route fuel e1 eviction rebalancing
  = first_route_resolved fuel e1 eviction rebalancing.
Proof.
  unfold first_route, first_route_resolved, route. rewrite runtime_selector_parts.
  destruct (place_request (3 + fuel) [10; 11; 12; 13]%Z None
              (empty_scheduler eviction rebalancing))
    as [[pl|e] s1] eqn:Hp; simpl; [|done].
  do 2 f_equal. unfold H.update, H.update_log, H._remove_old_entries_log.
  rewrite purge_nothing; [done|].
  assert (Hq : H.timestamps (histogram s1) = []).
  { change s1 with (Return pl, s1).2. rewrite <- Hp.
    unfold empty_scheduler. vm_compute. reflexivity. }
  simpl. rewrite Hq. simpl. unfold event_time. simpl.
  assert (Hw : H.window_duration (histogram s1) = three_minutes).
  { change s1 with (Return pl, s1).2. rewrite <- Hp. reflexivity. }
  rewrite Hw. unfold three_minutes. lia.
Qed.

(** C2.  On an empty scheduler with two workers and no preferred worker,
    routing [10, 11, 12, 13] finds equal recompute costs and an all-zero
    load and returns worker 0; routing [20, 21, 22, 23] next finds equal
    recompute costs again, a positive load on worker 0 and none on worker
    1, and returns worker 1.  This holds whatever the clock readings, the
    random draws and the two flags of the constructor are. *)
Theorem first_two_routes :
  let s0 := empty_scheduler eviction rebalancing in
  let r1 := first_route fuel e1 eviction rebalancing in
  let r2 := second_route fuel e1 e2 eviction rebalancing in
  recom_costs_for fuel [10; 11; 12; 13]%Z s0 = [Return 0%Z; Return 0%Z]
  ∧ H.current_allocation_per_gpu (histogram s0) = Return [0%Qc; 0%Qc]
  ∧ r1.1 = Return 0
  ∧ recom_costs_for fuel [20; 21; 22; 23]%Z r1.2 = [Return 0%Z; Return 0%Z]
  ∧ (∃ load0 load1,
       H.current_allocation_per_gpu (histogram r1.2) = Return [load0; load1]
       ∧ (0 < load0)%Qc ∧ load1 = 0%Qc)
  ∧ r2.1 = Return 1.
Proof.
  intros s0 r1 r2. subst s0 r1 r2.
  unfold second_route. rewrite first_route_eq.
  unfold first_route_resolved, empty_scheduler, route.
  split_and!.
  - vm_compute. reflexivity.
  - reflexivity.
  - destruct rebalancing; vm_compute; reflexivity.
  - destruct rebalancing; vm_compute; reflexivity.
  - exists (Zq 4), 0%Qc. split_and!; [|done|done].
    destruct rebalancing; vm_compute; do 2 f_equal; try f_equal; by apply Qc_is_canon.
  - destruct rebalancing; vm_compute; reflexivity.
Qed.
End FirstRoutes.

(** ** The placement decision *)

Section Placement.
Import GlobalScheduler.
Implicit Types (s : t) (n : option node) (a : gset gpu).

Lemma same_workers_refl s : same_workers s s.
Proof. done. Qed.




Lemma keeps_pure_of {A} (o : outcome A) : keeps_workers (pure_of o).
Proof. intros s. apply same_workers_refl. Qed.










Lemma init_workers_wf num_nodes ev rb : workers_wf (init num_nodes ev rb).
Proof.
  split; [|done]. simpl. rewrite dom_list_to_map_L.
  f_equal. rewrite <- list_fmap_compose. simpl. by rewrite list_fmap_id.
Qed.

Lemma get_parent_gpu_allocation_inherits fuel n s a :
  get_parent_gpu_allocation fuel n s = Return a → inherits s n a.
Proof.
  revert n. induction fuel as [|fuel IH]; intros n; simpl; [done|].
  destruct n as [h|]; [|intros [= <-]; constructor].
  destruct (gpu_allocations s !! h) as [a0|] eqn:Ha.
  - destruct (decide (a0 = ∅)) as [->|Hne].
    + intros Hr. apply inherits_up; [by right | by apply IH].
    + intros [= <-]. by apply inherits_here.
  - intros Hr. apply inherits_up; [by left | by apply IH].
Qed.

Lemma get_parent_gpu_allocation_total fuel n s k :
  reaches_root (tree s) n k → k < fuel →
  ∃ a, get_parent_gpu_allocation fuel n s = Return a.
Proof.
  intros Hr. revert fuel. induction Hr as [|h k Hr IH]; intros fuel Hk;
    (destruct fuel as [|fuel]; [lia|]); simpl.
  - by eexists.
  - destruct (gpu_allocations s !! h) as [a0|].
    + destruct (decide (a0 = ∅)); [apply IH; lia | by eexists].
    + apply IH. lia.
Qed.



Lemma nth_mod_elem (rnd : nat) (l : list gpu) (d : gpu) :
  l ≠ [] → nth (rnd mod length l) l d ∈ l.
Proof.
  intros Hl. apply list_elem_of_In. apply nth_In. apply Nat.mod_upper_bound.
  by destruct l.
Qed.

Lemma pick_runtime_elem rnd a g : pick_runtime rnd a = Return g → g ∈ a.
Proof.
  unfold pick_runtime. destruct (elements a) as [|first rest] eqn:He; [done|].
  assert (Hin : ∀ x, x ∈ first :: rest → x ∈ a).
  { intros x Hx. apply elem_of_elements. by rewrite He. }
  destruct (decide _); intros Heq; injection Heq as <-; apply Hin; [|by left].
  by apply (nth_mod_elem rnd (first :: rest) first).
Qed.

Lemma place_request_inv fuel input_ids hint s p s1 :
  place_request fuel input_ids hint s = (Return p, s1) →
  get_important_node fuel (tree s1) (Some (leaf_of p)) = Return (important_of p)
  ∧ select_gpus fuel (leaf_of p) hint s1 = Return (selected_of p).
Proof.
  unfold place_request. unfold bind at 1, get.
  destruct (insert input_ids (cache s)) as [[leaf splits] c].
  unfold bind at 1, put. unfold bind at 1.
  destruct (handle_split_nodes_gpu_allocations splits (set_cache c s))
    as [[[]|e] s2]; [|done].
  unfold bind at 1.
  destruct (handle_split_node_histogram splits s2) as [[[]|e] s3]; [|done].
  unfold bind, get, pure_of, ret.
  destruct (get_important_node fuel (tree s3) (Some leaf)) as [imp|e] eqn:Himp;
    [|done].
  destruct (select_gpus fuel leaf hint s3) as [sel|e] eqn:Hsel; [|done].
  by intros [= <- <-].
Qed.







(** C10.  On a tree whose root has an empty [value] and no parent, a call
    of [runtime_selector] with an empty token sequence raises (the
    [AttributeError] of [get_important_node] reading [None.num_tokens]
    above the root) and leaves the whole scheduler state as it was: tree,
    histogram, allocation map and load counters included. *)
Theorem runtime_selector_empty_input fuel now clock rnd text rid hint s :
  value (deref (tree s) (root_node (cache s))) = [] →
  parent (deref (tree s) (root_node (cache s))) = None →
  runtime_selector (2 + fuel) now clock rnd text rid [] hint s
  = (Raise AttributeError, s).
Proof.
  intros Hv Hp. rewrite runtime_selector_parts.
  assert (Hs : set_cache (cache s) s = s) by by destruct s.
  unfold place_request, insert. cbn [insert_helper length].
  unfold handle_split_nodes_gpu_allocations, handle_split_node_histogram, for_each.
  unfold bind, put, get, ret, pure_of. rewrite Hs.
  cbn [get_important_node Nat.add].
  unfold is_large_node, num_tokens. rewrite Hv, Hp. cbn [length].
  rewrite bool_decide_eq_false_2 by lia. done.
Qed.

Lemma runtime_selector_empty_input_witness :
  runtime_selector (2 + 0) 0 (λ _, 0%Z) 0 None None [] None (init 2 false true)
  = (Raise AttributeError, init 2 false true).
Proof.
  apply (runtime_selector_empty_input 0 0 (λ _, 0%Z) 0 None None None
           (init 2 false true)); reflexivity.
Defined.

(** [update_gpu_cache_for_parent] adds the workers
    to [cached_gpus] of the node it is called on, then raises
    [AttributeError] (line 181 names a method the class does not have):
    every other node, the ancestors among them, keeps its [cached_gpus]. *)
Theorem update_gpu_cache_for_parent_stops (h : node) (w : gset gpu) s :
  let r := update_gpu_cache_for_parent (Some h) w s in
  r.1 = Raise AttributeError
  ∧ (∀ nd, tree s !! h = Some nd →
       cached_gpus (deref (tree r.2) h) = cached_gpus nd ∪ w)
  ∧ (∀ h', h' ≠ h → tree r.2 !! h' = tree s !! h').
Proof.
  intros r. subst r. unfold update_gpu_cache_for_parent, bind, modify, raise.
  cbn [fst snd]. split_and!; [done| |].
  - intros nd Hnd. unfold deref, tree at 1. cbn [cache set_cache nodes set_nodes].
    by rewrite lookup_alter_eq, Hnd.
  - intros h' Hne. unfold tree at 1. cbn [cache set_cache nodes set_nodes].
    by rewrite lookup_alter_ne.
Qed.

(** C8 at a failing input.  After one route of [10, 11, 12, 13] the leaf is
    node 1 and its parent is the root 0.  Propagating worker 1 from the
    leaf raises [AttributeError]; the leaf has the worker, the root, its
    ancestor, has not. *)
Lemma update_gpu_cache_for_parent_misses_root :
  let r := update_gpu_cache_for_parent (Some 1) {[ 1 ]} one_route in
  parent (deref (tree one_route) 1) = Some 0
  ∧ r.1 = Raise AttributeError
  ∧ cached_gpus (deref (tree r.2) 1) = {[ 0; 1 ]}
  ∧ cached_gpus (deref (tree r.2) 0) = {[ 0 ]}
  ∧ 1 ∉ cached_gpus (deref (tree r.2) 0).
Proof.
  intros r.
  assert (H0 : cached_gpus (deref (tree r.2) 0) = {[ 0 ]})
    by (vm_compute; reflexivity).
  split_and!.
  - vm_compute. reflexivity.
  - vm_compute. reflexivity.
  - vm_compute. reflexivity.
  - exact H0.
  - apply (bool_decide_eq_false_1 (1 ∈ cached_gpus (deref (tree r.2) 0))).
    vm_compute. reflexivity.
Qed.

End Placement.

(** ** The rebalancer *)

Section Rebalancer.
Import GlobalScheduler.
Implicit Types (s : t) (st : gmap node LPTreeNode).

Lemma set_gpu_allocations_same s : set_gpu_allocations (gpu_allocations s) s = s.
Proof. destruct s as [? ? ? ? ? ? ? h ? ? ? ? ?]. by destruct h. Qed.

Lemma set_gpu_allocations_twice a b s :
  set_gpu_allocations a (set_gpu_allocations b s) = set_gpu_allocations a s.
Proof. done. Qed.









Lemma heappush_elem (heap : list (Z * node)) x y :
  y ∈ heappush heap x ↔ y = x ∨ y ∈ heap.
Proof.
  induction heap as [|z heap IH]; simpl.
  - rewrite list_elem_of_singleton. split; [by left | by intros [?|?%elem_of_nil]].
  - destruct (decide _).
    + by rewrite elem_of_cons.
    + rewrite !elem_of_cons, IH. tauto.
Qed.

Lemma heappush_sorted (heap : list (Z * node)) x :
  heap_sorted heap → heap_sorted (heappush heap x).
Proof.
  unfold heap_sorted. induction 1 as [|z heap Hs IH Hall]; simpl.
  - repeat constructor.
  - destruct (decide (x.1 < z.1)%Z) as [Hlt|Hge].
    + constructor; [by constructor|]. constructor; [lia|].
      eapply Forall_impl; [exact Hall|]. simpl. intros; lia.
    + constructor; [exact IH|]. apply Forall_forall. intros y Hy.
      apply heappush_elem in Hy as [->|Hy]; [lia|].
      by eapply Forall_forall in Hall.
Qed.

Lemma counts_only_refl s : counts_only s s.
Proof. done. Qed.

Lemma counts_only_trans s1 s2 s3 :
  counts_only s1 s2 → counts_only s2 s3 → counts_only s1 s3.
Proof. intros (?&?&?&?) (?&?&?&?). unfold counts_only. split_and!; congruence. Qed.

Lemma read_node_to_count_counts n s : counts_only s (read_node_to_count n s).2.
Proof.
  unfold read_node_to_count, bind, get. by destruct (H.node_to_count (histogram s) !! n).
Qed.

Lemma collect_candidates_spec hot items heap0 s heap s1 :
  collect_candidates hot items heap0 s = (Return heap, s1) →
  counts_only s s1
  ∧ (heap_sorted heap0 → heap_sorted heap)
  ∧ ∀ x, x ∈ heap →
      x ∈ heap0 ∨ ∃ a, gpu_allocations s !! x.2 = Some a ∧ hot ∈ a.
Proof.
  revert heap0 s. induction items as [|[nd cost] items IH]; intros heap0 s; simpl.
  - intros [= <- <-]. split_and!; [done|done|]. intros x ?. by left.
  - unfold bind at 1, get.
    destruct (gpu_allocations s !! nd) as [a|] eqn:Ha; [|done].
    destruct (decide (hot ∈ a)) as [Hhot|Hhot]; [|apply IH].
    unfold bind at 1.
    pose proof (read_node_to_count_counts nd s) as Hc.
    destruct (read_node_to_count nd s) as [[c|e] s2]; [|done]. simpl in Hc.
    destruct (decide (1 < c)%Z).
    + intros Hr. apply IH in Hr as (Hc2 & Hs & Hin).
      split_and!.
      * eapply counts_only_trans; [exact Hc | exact Hc2].
      * intros H0. by apply Hs, heappush_sorted.
      * intros x Hx. destruct (Hin x Hx) as [Hpush | (a' & Ha' & Hh)].
        -- apply heappush_elem in Hpush as [->|Hx0]; [|by left].
           right. exists a. by split.
        -- right. exists a'. split; [|done].
           destruct Hc as (Hg & _). by rewrite <- Hg.
    + intros Hr. apply IH in Hr as (Hc2 & Hs & Hin).
      split_and!; [by eapply counts_only_trans | done |].
      intros x Hx. destruct (Hin x Hx) as [?|(a' & Ha' & Hh)]; [by left|].
      right. exists a'. split; [|done]. destruct Hc as (Hg & _). by rewrite <- Hg.
Qed.


(** *** Later levels keep what a reassignment wrote *)


















Lemma delete_after_allocation_data nd g (o : D.t) :
  D.data (D.delete_after_allocation nd g o) = delete (nd, g) (D.data o).
Proof.
  unfold D.delete_after_allocation.
  destruct (D.data o !! (nd, g)) eqn:Hk; simpl; [done|].
  symmetry. by apply delete_id.
Qed.

(** C5.  Let the heap that lines 329-333 build for the hot worker hold
    exactly one entry [(cost, nd)].  The node has an allocation set [a].
    If the cold worker is not in [a] and the detector reports the node
    overloaded on the hot worker, the step adds the cold worker to the
    node's set, keeping every worker of [a], leaves the other entries of the
    allocation map alone, deletes the detector series of [(nd, hot)] and
    moves half the cost.  If the cold worker is in [a], or the detector
    answers [False], the allocation map and the detector are as before. *)
Theorem single_candidate_replication fuel now hot cold hot_cost cold_cost s cost nd s1 :
  collect_candidates hot (H.histogram (histogram s)) [] s = (Return [(cost, nd)], s1) →
  let r := steal_between fuel now hot cold hot_cost cold_cost s in
  ∃ a, gpu_allocations s !! nd = Some a
    ∧ (cold ∉ a →
       D.is_node_overloaded now nd hot (overload_detector s) = Return true →
         r.1 = Return ((hot_cost - Zq cost / Zq 2)%Qc, (cold_cost + Zq cost / Zq 2)%Qc)
         ∧ gpu_allocations r.2 = <[nd := a ∪ {[ cold ]}]> (gpu_allocations s)
         ∧ a ⊆ a ∪ {[ cold ]}
         ∧ D.data (overload_detector r.2)
           = delete (nd, hot) (D.data (overload_detector s)))
    ∧ (cold ∈ a
       ∨ D.is_node_overloaded now nd hot (overload_detector s) = Return false →
         r.1 = Return (hot_cost, cold_cost)
         ∧ gpu_allocations r.2 = gpu_allocations s
         ∧ overload_detector r.2 = overload_detector s).
Proof.
  intros Hcol r.
  assert (Hr : r = split_single now hot cold cost nd hot_cost cold_cost s1).
  { subst r. unfold steal_between. unfold bind at 1, get. unfold bind at 1.
    by rewrite Hcol. }
  clearbody r. subst r.
  apply collect_candidates_spec in Hcol as ((Hg & _ & Hd & _) & _ & Hin).
  destruct (Hin (cost, nd)) as [?%elem_of_nil|(a & Ha & _)]; [by left|done|].
  simpl in Ha. exists a. split; [done|].
  assert (Hkeep : split_single now hot cold cost nd hot_cost cold_cost s1
                  = (Return (hot_cost, cold_cost), s1) →
                  (split_single now hot cold cost nd hot_cost cold_cost s1).1
                  = Return (hot_cost, cold_cost)
                  ∧ gpu_allocations
                      (split_single now hot cold cost nd hot_cost cold_cost s1).2
                    = gpu_allocations s
                  ∧ overload_detector
                      (split_single now hot cold cost nd hot_cost cold_cost s1).2
                    = overload_detector s).
  { intros ->. simpl. by rewrite Hg, Hd. }
  split.
  - intros Hcold Hov.
    assert (Hs : split_single now hot cold cost nd hot_cost cold_cost s1
                 = (Return ((hot_cost - Zq cost / Zq 2)%Qc,
                            (cold_cost + Zq cost / Zq 2)%Qc),
                    set_overload_detector
                      (D.delete_after_allocation nd hot (overload_detector s1))
                      (set_gpu_allocations
                         (<[nd := a ∪ {[ cold ]}]> (gpu_allocations s1)) s1))).
    { unfold split_single. unfold bind at 1, get. rewrite Hg, Ha.
      rewrite decide_False by done. unfold bind at 1, pure_of. rewrite Hd, Hov.
      done. }
    rewrite Hs. simpl. split_and!; [done | | apply union_subseteq_l |].
    + unfold gpu_allocations at 1. simpl. by rewrite Hg.
    + rewrite delete_after_allocation_data. by rewrite Hd.
  - intros Hcase. apply Hkeep.
    unfold split_single. unfold bind at 1, get. rewrite Hg, Ha.
    destruct (decide (cold ∈ a)) as [Hin'|Hout]; [done|].
    destruct Hcase as [?|Hov]; [done|].
    unfold bind at 1, pure_of. by rewrite Hd, Hov.
Qed.

Lemma single_candidate_replication_witness :
  let s := one_hot_prefix in
  let r := steal_between 1 200000000 0 1 (Zq 8) (Zq 0) s in
  ∃ a, gpu_allocations s !! 1 = Some a
    ∧ (1 ∉ a →
       D.is_node_overloaded 200000000 1 0 (overload_detector s) = Return true →
         r.1 = Return ((Zq 8 - Zq 8 / Zq 2)%Qc, (Zq 0 + Zq 8 / Zq 2)%Qc)
         ∧ gpu_allocations r.2 = <[1 := a ∪ {[ 1 ]}]> (gpu_allocations s)
         ∧ a ⊆ a ∪ {[ 1 ]}
         ∧ D.data (overload_detector r.2)
           = delete (1, 0) (D.data (overload_detector s)))
    ∧ (1 ∈ a
       ∨ D.is_node_overloaded 200000000 1 0 (overload_detector s) = Return false →
         r.1 = Return (Zq 8, Zq 0)
         ∧ gpu_allocations r.2 = gpu_allocations s
         ∧ overload_detector r.2 = overload_detector s).
Proof.
  intros s.
  set (c := collect_candidates 0 (H.histogram (histogram s)) [] s).
  apply (single_candidate_replication 1 200000000 0 1 (Zq 8) (Zq 0) s 8 1 c.2).
  assert (H1 : c.1 = Return [(8%Z, 1)]) by (vm_compute; reflexivity).
  change (c = (Return [(8%Z, 1)], c.2)). clearbody c. rewrite <- H1. by destruct c.
Defined.

(** With two workers the recursion has one level: past the threshold test
    of line 323 the whole rebalancing is the step of [steal_between]. *)
Lemma two_devices_level fuel clock hot hot_cost cold cold_cost s :
  ¬ (hot_cost < HIGH_LOAD_THRESHOLD s * cold_cost)%Qc →
  handle_important_node_stealing_recursive fuel clock
    [(hot, hot_cost); (cold, cold_cost)] s
  = let r := steal_between fuel (clock 1) hot cold hot_cost cold_cost s in
    (match r.1 with Return _ => Return tt | Raise e => Raise e end, r.2).
Proof.
  intros Hth. unfold handle_important_node_stealing_recursive. simpl.
  unfold bind at 1, get. rewrite decide_False by done. unfold bind at 1.
  by destruct (steal_between _ _ _ _ _ _ _) as [[[]|] ?].
Qed.
End Rebalancer.

(** ** Split handling *)

Section Splits.
Import GlobalScheduler.
Implicit Types (s : t) (o : D.t).

Lemma rename_node_lookup child inter g0 o (n : node) (g : gpu) :
  child ≠ inter →
  D.data (D.rename_node child inter g0 o) !! (n, g)
  = if decide (g = g0) then
      if decide (n = child) then None
      else if decide (n = inter) then
        match D.data o !! (child, g0) with
        | Some q => Some q
        | None => D.data o !! (inter, g0)
        end
      else D.data o !! (n, g)
    else D.data o !! (n, g).
Proof.
  intros Hne. unfold D.rename_node.
  destruct (D.data o !! (child, g0)) as [q|] eqn:Hq; simpl.
  - destruct (decide (g = g0)) as [->|Hg].
    + destruct (decide (n = child)) as [->|Hc].
      * rewrite lookup_insert_ne by congruence. apply lookup_delete_eq.
      * destruct (decide (n = inter)) as [->|Hi].
        -- apply lookup_insert_eq.
        -- rewrite lookup_insert_ne by congruence. apply lookup_delete_ne. congruence.
    + rewrite lookup_insert_ne by congruence. apply lookup_delete_ne. congruence.
  - destruct (decide (g = g0)) as [->|Hg]; [|done].
    destruct (decide (n = child)) as [->|Hc]; [done|].
    by destruct (decide (n = inter)) as [->|Hi].
Qed.

Lemma rename_nodes_lookup child inter (l : list gpu) o (n : node) (g : gpu) :
  child ≠ inter → NoDup l →
  D.data (foldl (λ o0 g0, D.rename_node child inter g0 o0) o l) !! (n, g)
  = if decide (g ∈ l) then
      if decide (n = child) then None
      else if decide (n = inter) then
        match D.data o !! (child, g) with
        | Some q => Some q
        | None => D.data o !! (inter, g)
        end
      else D.data o !! (n, g)
    else D.data o !! (n, g).
Proof.
  intros Hne Hnd. revert o. induction Hnd as [|g0 l Hnotin Hnd IH]; intros o; simpl.
  - done.
  - rewrite IH. destruct (decide (g = g0)) as [->|Hg].
    + rewrite (decide_False (P := g0 ∈ l)) by done.
      rewrite (decide_True (P := g0 ∈ g0 :: l)) by by left.
      rewrite rename_node_lookup by done. by rewrite decide_True.
    + destruct (decide (g ∈ l)) as [Hin|Hout].
      * rewrite (decide_True (P := g ∈ g0 :: l)) by by right.
        rewrite !rename_node_lookup by done.
        by rewrite !(decide_False (P := g = g0)) by done.
      * rewrite (decide_False (P := g ∈ g0 :: l)).
        -- rewrite rename_node_lookup by done. by rewrite decide_False.
        -- by intros [?|?]%elem_of_cons.
Qed.

Lemma rename_loop child inter (l : list gpu) s :
  for_each l (λ g,
    modify (λ s2, set_overload_detector
                    (D.rename_node child inter g (overload_detector s2)) s2)) s
  = (Return tt,
     set_overload_detector
       (foldl (λ o0 g0, D.rename_node child inter g0 o0) (overload_detector s) l) s).
Proof.
  revert s. induction l as [|g l IH]; intros s; simpl.
  - by destruct s.
  - unfold bind at 1, modify. rewrite IH. done.
Qed.

Lemma handle_split_node_histogram_single child inter s :
  handle_split_node_histogram [(child, inter)] s
  = if is_large_node (tree s) inter && negb (is_large_node (tree s) child) then
      let r := H.rename_node child inter (histogram s) in
      let s' := set_histogram r.2 s in
      match r.1 with
      | Return _ =>
          (Return tt,
           set_overload_detector
             (foldl (λ o0 g0, D.rename_node child inter g0 o0) (overload_detector s')
                    (elements (default ∅ (gpu_allocations s' !! child)))) s')
      | Raise e => (Raise e, s')
      end
    else (Return tt, s).
Proof.
  unfold handle_split_node_histogram. simpl. unfold bind at 1. unfold bind at 1, get.
  destruct (is_large_node (tree s) inter && negb (is_large_node (tree s) child));
    [|done].
  unfold bind at 1, zoom.
  destruct (H.rename_node child inter (histogram s)) as [[[]|e] h']; simpl; [|done].
  unfold bind at 1, get. by rewrite rename_loop.
Qed.

Lemma rename_node_absent child inter (h : H.t) :
  dict_get (H.histogram h) child = None →
  H.rename_node child inter h = (Return tt, h).
Proof. intros Hv. unfold H.rename_node, bind, get. by rewrite Hv. Qed.

Lemma rename_node_present child inter (h : H.t) v c :
  dict_get (H.histogram h) child = Some v →
  H.node_to_count h !! child = Some c →
  H.rename_node child inter h
  = (Return tt,
     H.mk (H.window_duration h) (H.gpu_allocations h)
          (dict_set (dict_del (H.histogram h) child) inter v)
          (<[inter := c]> (delete child (H.node_to_count h)))
          (H.rename_event child inter <$> H.timestamps h)
          (H.num_gpus h)).
Proof. intros Hv Hc. unfold H.rename_node, bind, get. by rewrite Hv, Hc. Qed.

(** C7, as the code has it.  For a split pair [(child, intermediate)] whose
    child has an allocation entry [a], the first handler gives the
    intermediate the entry [a] and touches nothing else.  When the
    intermediate is large and the child is not, the second handler moves
    the child's weighted count and event count to the intermediate and
    renames the child to the intermediate in every event of the FIFO; of
    the overload-detector series it moves, from the child to the
    intermediate, those of the workers in [a], and it leaves the series of
    every other worker under the child.  Otherwise the second handler
    changes nothing. *)
Theorem split_allocation_and_rename child inter a s :
  child ≠ inter →
  gpu_allocations s !! child = Some a →
  (is_Some (dict_get (H.histogram (histogram s)) child) →
   is_Some (H.node_to_count (histogram s) !! child)) →
  ∃ s1 s2,
    handle_split_nodes_gpu_allocations [(child, inter)] s = (Return tt, s1)
    ∧ handle_split_node_histogram [(child, inter)] s1 = (Return tt, s2)
    ∧ s1 = set_gpu_allocations (<[inter := a]> (gpu_allocations s)) s
    ∧ gpu_allocations s2 = gpu_allocations s1
    ∧ (is_large_node (tree s) inter = true → is_large_node (tree s) child = false →
         (∀ v c, dict_get (H.histogram (histogram s)) child = Some v →
                 H.node_to_count (histogram s) !! child = Some c →
            dict_get (H.histogram (histogram s2)) inter = Some v
            ∧ dict_get (H.histogram (histogram s2)) child = None
            ∧ H.node_to_count (histogram s2) !! inter = Some c
            ∧ H.node_to_count (histogram s2) !! child = None
            ∧ H.timestamps (histogram s2)
              = H.rename_event child inter <$> H.timestamps (histogram s))
         ∧ (∀ g, g ∈ a →
              D.data (overload_detector s2) !! (child, g) = None
              ∧ ∀ q, D.data (overload_detector s) !! (child, g) = Some q →
                     D.data (overload_detector s2) !! (inter, g) = Some q)
         ∧ (∀ g, g ∉ a →
              D.data (overload_detector s2) !! (child, g)
              = D.data (overload_detector s) !! (child, g)
              ∧ D.data (overload_detector s2) !! (inter, g)
                = D.data (overload_detector s) !! (inter, g)))
    ∧ (¬ (is_large_node (tree s) inter = true ∧ is_large_node (tree s) child = false) →
       s2 = s1).
Proof.
  intros Hne Ha Hwf.
  set (s1 := set_gpu_allocations (<[inter := a]> (gpu_allocations s)) s).
  assert (Hr1 : handle_split_nodes_gpu_allocations [(child, inter)] s = (Return tt, s1)).
  { unfold handle_split_nodes_gpu_allocations. simpl.
    unfold bind at 1. unfold bind at 1, get. by rewrite Ha. }
  assert (Ha1 : gpu_allocations s1 !! child = Some a).
  { unfold gpu_allocations at 1. simpl. by rewrite lookup_insert_ne. }
  exists s1. rewrite handle_split_node_histogram_single.
  change (tree s1) with (tree s).
  destruct (is_large_node (tree s) inter && negb (is_large_node (tree s) child))
    eqn:Hcond.
  2: { exists s1. split_and!; [done|done|done|done| |done].
       intros Hli Hlc. by rewrite Hli, Hlc in Hcond. }
  assert (Hdet : ∀ h' : H.t,
            H.gpu_allocations h' = gpu_allocations s1 →
            let s' := set_histogram h' s1 in
            let s2 := set_overload_detector
                        (foldl (λ o0 g0, D.rename_node child inter g0 o0)
                               (overload_detector s')
                               (elements (default ∅ (gpu_allocations s' !! child)))) s' in
            gpu_allocations s2 = gpu_allocations s1
            ∧ (∀ g, g ∈ a →
                 D.data (overload_detector s2) !! (child, g) = None
                 ∧ ∀ q, D.data (overload_detector s) !! (child, g) = Some q →
                        D.data (overload_detector s2) !! (inter, g) = Some q)
            ∧ (∀ g, g ∉ a →
                 D.data (overload_detector s2) !! (child, g)
                 = D.data (overload_detector s) !! (child, g)
                 ∧ D.data (overload_detector s2) !! (inter, g)
                   = D.data (overload_detector s) !! (inter, g))).
  { intros h' Hh' s' s2.
    assert (Hal : gpu_allocations s' !! child = Some a).
    { unfold s', gpu_allocations at 1. simpl. by rewrite Hh'. }
    subst s2. rewrite Hal. simpl. split_and!; [done| |].
    - intros g Hg.
      rewrite !rename_nodes_lookup by (done || apply NoDup_elements).
      rewrite !decide_True by by apply elem_of_elements.
      rewrite decide_True by done. split; [done|].
      intros q Hq. rewrite (decide_False (P := inter = child)) by congruence.
      rewrite (decide_True (P := g ∈ elements a)) by by apply elem_of_elements.
      rewrite decide_True by done. by rewrite Hq.
    - intros g Hg.
      rewrite !rename_nodes_lookup by (done || apply NoDup_elements).
      by rewrite !decide_False by by rewrite elem_of_elements. }
  destruct (dict_get (H.histogram (histogram s1)) child) as [v|] eqn:Hv.
  - destruct (Hwf (ltac:(by eexists))) as [c Hc].
    rewrite (rename_node_present child inter (histogram s1) v c Hv Hc).
    cbn [fst snd]. eexists. split_and!; [done|reflexivity|done| | |].
    + apply Hdet. done.
    + intros _ _. split_and!.
      * intros v' c' Hv' Hc'. change (H.histogram (histogram s1))
          with (H.histogram (histogram s)) in Hv.
        rewrite Hv in Hv'. rewrite Hc in Hc'.
        injection Hv' as <-. injection Hc' as <-. simpl.
        split_and!.
        -- apply dict_get_set_eq.
        -- rewrite dict_get_set_ne by done. apply dict_get_del_eq.
        -- apply lookup_insert_eq.
        -- rewrite lookup_insert_ne by done. apply lookup_delete_eq.
        -- done.
      * apply Hdet. done.
      * apply Hdet. done.
    + intros Hno. exfalso. apply Hno.
      apply andb_true_iff in Hcond as [? ?%negb_true_iff]. done.
  - rewrite (rename_node_absent child inter (histogram s1) Hv).
    cbn [fst snd]. eexists. split_and!; [done|reflexivity|done| | |].
    + apply Hdet. done.
    + intros _ _. split_and!.
      * intros v' c' Hv'. change (H.histogram (histogram s1))
          with (H.histogram (histogram s)) in Hv. by rewrite Hv in Hv'.
      * apply Hdet. done.
      * apply Hdet. done.
    + intros Hno. exfalso. apply Hno.
      apply andb_true_iff in Hcond as [? ?%negb_true_iff]. done.
Qed.

Lemma split_allocation_and_rename_witness :
  let s := split_pending six_tokens_served in
  let child := 1 in
  let inter := 2 in
  let a : gset gpu := {[ 0 ]} in
  ∃ s1 s2,
    handle_split_nodes_gpu_allocations [(child, inter)] s = (Return tt, s1)
    ∧ handle_split_node_histogram [(child, inter)] s1 = (Return tt, s2)
    ∧ s1 = set_gpu_allocations (<[inter := a]> (gpu_allocations s)) s
    ∧ gpu_allocations s2 = gpu_allocations s1
    ∧ (is_large_node (tree s) inter = true → is_large_node (tree s) child = false →
         (∀ v c, dict_get (H.histogram (histogram s)) child = Some v →
                 H.node_to_count (histogram s) !! child = Some c →
            dict_get (H.histogram (histogram s2)) inter = Some v
            ∧ dict_get (H.histogram (histogram s2)) child = None
            ∧ H.node_to_count (histogram s2) !! inter = Some c
            ∧ H.node_to_count (histogram s2) !! child = None
            ∧ H.timestamps (histogram s2)
              = H.rename_event child inter <$> H.timestamps (histogram s))
         ∧ (∀ g, g ∈ a →
              D.data (overload_detector s2) !! (child, g) = None
              ∧ ∀ q, D.data (overload_detector s) !! (child, g) = Some q →
                     D.data (overload_detector s2) !! (inter, g) = Some q)
         ∧ (∀ g, g ∉ a →
              D.data (overload_detector s2) !! (child, g)
              = D.data (overload_detector s) !! (child, g)
              ∧ D.data (overload_detector s2) !! (inter, g)
                = D.data (overload_detector s) !! (inter, g)))
    ∧ (¬ (is_large_node (tree s) inter = true ∧ is_large_node (tree s) child = false) →
       s2 = s1).
Proof.
  intros s child inter a.
  apply (split_allocation_and_rename child inter a s).
  - discriminate.
  - vm_compute. reflexivity.
  - intros _. vm_compute. by eexists.
Defined.

(** C7 as stated fails on the code.  Take the scheduler four minutes after
    a six-token request was served by worker 0: the histogram update of a
    later route purged the request's event and emptied the allocation set
    of its node 1, while the TTFT series of [(1, 0)] is still stored.  The
    request [10, 11, 12, 99, 100] splits node 1 below the new intermediate
    node 3; the intermediate is large and the child is not; yet after both
    handlers the series is still under the child and the intermediate has
    none. *)
Lemma stale_series_not_renamed :
  let s := split_pending six_tokens_stale in
  let s1 := after (handle_split_nodes_gpu_allocations [(1, 3)]) s in
  let s2 := after (handle_split_node_histogram [(1, 3)]) s1 in
  (insert [10; 11; 12; 99; 100]%Z (cache six_tokens_stale)).1.2 = [(1, 3)]
  ∧ is_large_node (tree s) 3 = true
  ∧ is_large_node (tree s) 1 = false
  ∧ (handle_split_nodes_gpu_allocations [(1, 3)] s).1 = Return tt
  ∧ (handle_split_node_histogram [(1, 3)] s1).1 = Return tt
  ∧ D.data (overload_detector s) !! (1, 0) = Some [(1000000%Z, Q2Qc (1 # 2))]
  ∧ D.data (overload_detector s2) !! (1, 0) = Some [(1000000%Z, Q2Qc (1 # 2))]
  ∧ D.data (overload_detector s2) !! (3, 0) = None.
Proof.
  intros s s1 s2. split_and!; vm_compute; reflexivity.
Qed.
End Splits.

(** * Further properties *)

Section DetectorSeries.
Import TTFTWindowedOverloadedDetector.
Implicit Types (o : t) (q : list (Z * Qc)).

Lemma popleft_while_split bound q :
  ∃ gone, q = gone ++ popleft_while bound q
          ∧ Forall (λ e, (e.1 < bound)%Z) gone
          ∧ match popleft_while bound q with
            | [] => True
            | e :: _ => (bound ≤ e.1)%Z
            end.
Proof.
  induction q as [|[ts v] q IH]; simpl.
  - by exists [].
  - destruct (decide (ts < bound)%Z) as [Hlt|Hge].
    + destruct IH as (gone & Hq & Hgone & Hhead).
      exists ((ts, v) :: gone). split_and!; [by rewrite <- app_comm_cons, <- Hq | by constructor | done].
    + exists []. split_and!; [done | constructor | simpl; lia].
Qed.

Lemma popleft_while_app_last bound q ts v :
  (bound ≤ ts)%Z →
  popleft_while bound (q ++ [(ts, v)]) = popleft_while bound q ++ [(ts, v)].
Proof.
  intros Hb. induction q as [|[ts' v'] q IH]; simpl.
  - by rewrite decide_False by lia.
  - by destruct (decide _).
Qed.

(** X1.  With a window that is not negative and a series in timestamp
    order, [add_data_point] returns: it drops a front part of the series,
    all older than [timestamp - window_duration], keeps the rest, all inside
    the window, and the new sample is the last of the series. *)
Theorem add_data_point_window ts nd g v o :
  (0 ≤ window_duration o)%Z →
  series_sorted (default [] (data o !! (nd, g))) →
  ∃ gone kept,
    default [] (data o !! (nd, g)) = gone ++ kept
    ∧ add_data_point ts nd g v o
      = (Return tt, set_data (<[(nd, g) := kept ++ [(ts, v)]]> (data o)) o)
    ∧ Forall (λ e, (e.1 < ts - window_duration o)%Z) gone
    ∧ Forall (λ e, (ts - window_duration o ≤ e.1)%Z) (kept ++ [(ts, v)]).
Proof.
  intros HW Hs. set (q := default [] (data o !! (nd, g))) in *.
  destruct (popleft_while_split (ts - window_duration o) q) as (gone & Hq & Hgone & Hhead).
  exists gone, (popleft_while (ts - window_duration o) q). split_and!; [done| |done|].
  - unfold add_data_point, purge_old_data, bind, get, put. simpl.
    rewrite lookup_insert_eq. fold q.
    rewrite popleft_while_app_last by lia.
    by rewrite insert_insert_eq.
  - apply Forall_app. split; [|repeat constructor; simpl; lia].
    rewrite Hq in Hs. apply StronglySorted_app_1_r in Hs.
    destruct (popleft_while _ q) as [|e kept]; [constructor|].
    apply StronglySorted_inv in Hs as [_ Hall].
    constructor; [done|]. eapply Forall_impl; [exact Hall|]. simpl. intros; lia.
Qed.

Lemma add_data_point_window_witness :
  let o := mk {[ (1, 0) := [(0%Z, Zq 1); (170000000%Z, Zq 5)] ]} 180000000 90000000 in
  ∃ gone kept,
    default [] (data o !! (1, 0)) = gone ++ kept
    ∧ add_data_point 200000000 1 0 (Zq 2) o
      = (Return tt, set_data (<[(1, 0) := kept ++ [(200000000%Z, Zq 2)]]> (data o)) o)
    ∧ Forall (λ e, (e.1 < 200000000 - window_duration o)%Z) gone
    ∧ Forall (λ e, (200000000 - window_duration o ≤ e.1)%Z)
             (kept ++ [(200000000%Z, Zq 2)]).
Proof.
  intros o. apply (add_data_point_window 200000000 1 0 (Zq 2) o).
  - simpl. lia.
  - subst o. simpl. rewrite lookup_singleton_eq. simpl.
    repeat first [ apply SSorted_nil | apply SSorted_cons
                 | apply Forall_nil_2 | apply Forall_cons_2 ]; simpl; lia.
Defined.

(** X2.  Renaming a series from [old_node] to a different [new_node] that
    has no series on that worker, and back, gives the detector it started
    from. *)
Theorem rename_node_round_trip old_node new_node g o :
  old_node ≠ new_node → data o !! (new_node, g) = None →
  rename_node new_node old_node g (rename_node old_node new_node g o) = o.
Proof.
  intros Hne Hnew. unfold rename_node at 2.
  destruct (data o !! (old_node, g)) as [q|] eqn:Hold.
  - unfold rename_node. simpl. rewrite lookup_insert_eq.
    destruct o as [d w hw]. unfold set_data. simpl in *. f_equal.
    rewrite delete_insert_id by (rewrite lookup_delete_ne; [done|congruence]).
    rewrite insert_delete_eq. by apply insert_id.
  - unfold rename_node. by rewrite Hnew.
Qed.

Lemma rename_node_round_trip_witness :
  let o := mk {[ (1, 0) := [(0%Z, Zq 1)] ]} 180000000 90000000 in
  rename_node 2 1 0 (rename_node 1 2 0 o) = o.
Proof.
  intros o. apply (rename_node_round_trip 1 2 0 o); [lia|].
  subst o. simpl. apply lookup_singleton_ne. intros [=].
Defined.

(** X3.  After [delete_after_allocation] for a node and a worker,
    [is_node_overloaded] says [False] for that pair, whatever the clock
    reads, and what it says for every other pair is unchanged. *)
Theorem delete_after_allocation_resets now nd g o (nd' : node) (g' : gpu) :
  is_node_overloaded now nd' g' (delete_after_allocation nd g o)
  = if decide ((nd', g') = (nd, g)) then Return false
    else is_node_overloaded now nd' g' o.
Proof.
  unfold is_node_overloaded, calculate_half_window_averages, delete_after_allocation.
  destruct (decide _) as [[= -> ->]|Hne].
  - destruct (data o !! (nd, g)) as [q|] eqn:Hq; simpl.
    + by rewrite lookup_delete_eq.
    + by rewrite Hq.
  - destruct (data o !! (nd, g)) as [q|] eqn:Hq; simpl; [|done].
    by rewrite lookup_delete_ne by congruence.
Qed.
End DetectorSeries.

Section HistogramLedger.
Import SlidingWindowHistogram.
Implicit Types (h : t) (st : gmap node LPTreeNode) (q : list (Z * node * node)).

Lemma weight_of_nonneg st n q : (0 ≤ weight_of st n q)%Z.
Proof. induction q as [|[[ts m] leaf] q IH]; simpl; [done|]. destruct (decide _); lia. Qed.

Lemma events_of_nonneg n q : (0 ≤ events_of n q)%Z.
Proof. induction q as [|[[ts m] leaf] q IH]; simpl; [done|]. destruct (decide _); lia. Qed.

Lemma weight_of_app st n q1 q2 :
  weight_of st n (q1 ++ q2) = (weight_of st n q1 + weight_of st n q2)%Z.
Proof. induction q1 as [|[[ts m] leaf] q1 IH]; simpl; [done|]. lia. Qed.

Lemma events_of_app n q1 q2 :
  events_of n (q1 ++ q2) = (events_of n q1 + events_of n q2)%Z.
Proof. induction q1 as [|[[ts m] leaf] q1 IH]; simpl; [done|]. lia. Qed.

Lemma weight_zero_events st n q :
  positive_leaves st q → weight_of st n q = 0%Z → events_of n q = 0%Z.
Proof.
  induction 1 as [|[[ts m] leaf] q Hpos Hq IH]; simpl; [done|].
  pose proof (weight_of_nonneg st n q). simpl in Hpos.
  destruct (decide _); [lia|]. intros. apply IH. lia.
Qed.

(** The state of the purge loop: the histogram accounts for the events that
    are still to be inspected. *)
Lemma expire_accounted st m leaf q h ts :
  (∀ n, default 0%Z (dict_get (histogram h) n) = weight_of st n ((ts, m, leaf) :: q)) →
  ∀ n, default 0%Z (dict_get (histogram (expire st m leaf h).2) n) = weight_of st n q.
Proof.
  intros Hacc n. pose proof (Hacc n) as Hn. pose proof (Hacc m) as Hm.
  simpl in Hn, Hm. rewrite decide_True in Hm by done.
  pose proof (weight_of_nonneg st m q) as Hpos.
  unfold expire. destruct (decide (_ ≤ 0)%Z) as [Hle|Hgt]; simpl.
  - destruct (decide (m = n)) as [->|Hne].
    + rewrite dict_get_del_eq. simpl. lia.
    + rewrite dict_get_del_ne, dict_get_set_ne by done. lia.
  - destruct (decide (m = n)) as [->|Hne].
    + rewrite dict_get_set_eq. simpl. lia.
    + rewrite dict_get_set_ne by done. lia.
Qed.

Lemma purge_accounted st ws q h :
  (∀ n, default 0%Z (dict_get (histogram h) n) = weight_of st n q) →
  accounted st (purge st ws q h).2.
Proof.
  revert h. induction q as [|[[ts m] leaf] q IH]; intros h Hacc; simpl.
  - exact Hacc.
  - unfold older. case_bool_decide; [|exact Hacc].
    pose proof (expire_accounted st m leaf q h ts Hacc) as H1.
    destruct (expire st m leaf h) as [log1 h1]. simpl in H1.
    specialize (IH h1 H1). by destruct (purge st ws q h1).
Qed.

Lemma expire_counted st m leaf q h ts :
  positive_leaves st q →
  (∀ n, default 0%Z (dict_get (histogram h) n) = weight_of st n ((ts, m, leaf) :: q)) →
  (∀ n, default 0%Z (node_to_count h !! n) = events_of n ((ts, m, leaf) :: q)) →
  ∀ n, default 0%Z (node_to_count (expire st m leaf h).2 !! n) = events_of n q.
Proof.
  intros Hpos Hacc Hcnt n. pose proof (Hcnt n) as Hn. pose proof (Hacc m) as Hm.
  pose proof (Hcnt m) as Hcm.
  simpl in Hn, Hm, Hcm. rewrite decide_True in Hm, Hcm by done.
  pose proof (weight_of_nonneg st m q) as Hw.
  unfold expire. destruct (decide (_ ≤ 0)%Z) as [Hle|Hgt]; simpl.
  - destruct (decide (m = n)) as [->|Hne].
    + rewrite lookup_delete_eq. simpl. symmetry.
      apply (weight_zero_events st); [done|lia].
    + rewrite lookup_delete_ne, lookup_insert_ne by done. lia.
  - destruct (decide (m = n)) as [->|Hne].
    + rewrite lookup_insert_eq. simpl. lia.
    + rewrite lookup_insert_ne by done. lia.
Qed.

Lemma purge_counted st ws q h :
  positive_leaves st q →
  (∀ n, default 0%Z (dict_get (histogram h) n) = weight_of st n q) →
  (∀ n, default 0%Z (node_to_count h !! n) = events_of n q) →
  counted (purge st ws q h).2 ∧ positive_leaves st (timestamps (purge st ws q h).2).
Proof.
  intros Hpos. revert h. induction Hpos as [|[[ts m] leaf] q Hleaf Hpos IH];
    intros h Hacc Hcnt; simpl.
  - split; [exact Hcnt | constructor].
  - unfold older. case_bool_decide; [|split; [exact Hcnt | by constructor]].
    pose proof (expire_accounted st m leaf q h ts Hacc) as H1.
    pose proof (expire_counted st m leaf q h ts Hpos Hacc Hcnt) as H2.
    destruct (expire st m leaf h) as [log1 h1]. simpl in H1, H2.
    specialize (IH h1 H1 H2). by destruct (purge st ws q h1).
Qed.

Lemma record_event_accounted st ts m leaf h :
  accounted st h → accounted st (record_event st ts m leaf h).
Proof.
  intros Hacc n. specialize (Hacc n). simpl. rewrite weight_of_app. simpl.
  destruct (decide (m = n)) as [->|Hne].
  - rewrite dict_get_set_eq. simpl. lia.
  - rewrite dict_get_set_ne by done. lia.
Qed.

Lemma record_event_counted st ts m leaf h :
  counted h → counted (record_event st ts m leaf h).
Proof.
  intros Hcnt n. specialize (Hcnt n). simpl. rewrite events_of_app. simpl.
  destruct (decide (m = n)) as [->|Hne].
  - rewrite lookup_insert_eq. simpl. lia.
  - rewrite lookup_insert_ne by done. lia.
Qed.

(** X4.  [update] keeps the books of the histogram: when every entry is the
    sum of the context lengths of the node's events in the FIFO (0 for a
    node without an entry), it is so again after the update and its purge. *)
Theorem update_accounted st ts m leaf h :
  accounted st h → accounted st (update st ts m leaf h).
Proof.
  intros Hacc. unfold update, update_log, _remove_old_entries_log.
  apply purge_accounted. by apply record_event_accounted.
Qed.

Lemma update_accounted_witness :
  accounted demo_store (update demo_store 240000000 2 2 demo_histogram).
Proof.
  apply (update_accounted demo_store 240000000 2 2 demo_histogram).
  intros n.
  assert (Hh : histogram demo_histogram = [(1, 8%Z)]) by (vm_compute; reflexivity).
  assert (Hq : timestamps demo_histogram = [(0%Z, 1, 1); (1000000%Z, 1, 1)])
    by (vm_compute; reflexivity).
  rewrite Hh, Hq. simpl. destruct (decide (1 = n)); reflexivity.
Defined.

(** X5.  When the leaves of the events have a context of at least one
    token, [update] also keeps [node_to_count] equal to the number of the
    node's events in the FIFO (0 for a node without an entry). *)
Theorem update_counted st ts m leaf h :
  accounted st h → counted h → positive_leaves st (timestamps h) →
  0 < context_length (deref st leaf) →
  counted (update st ts m leaf h)
  ∧ positive_leaves st (timestamps (update st ts m leaf h)).
Proof.
  intros Hacc Hcnt Hpos Hleaf. unfold update, update_log, _remove_old_entries_log.
  apply purge_counted.
  - simpl. apply Forall_app. split; [done|]. by repeat constructor.
  - by apply record_event_accounted.
  - by apply record_event_counted.
Qed.

Lemma update_counted_witness :
  counted (update demo_store 240000000 2 2 demo_histogram)
  ∧ positive_leaves demo_store
      (timestamps (update demo_store 240000000 2 2 demo_histogram)).
Proof.
  assert (Hh : histogram demo_histogram = [(1, 8%Z)]) by (vm_compute; reflexivity).
  assert (Hc : node_to_count demo_histogram = {[ 1 := 2%Z ]}) by (vm_compute; reflexivity).
  assert (Hq : timestamps demo_histogram = [(0%Z, 1, 1); (1000000%Z, 1, 1)])
    by (vm_compute; reflexivity).
  apply (update_counted demo_store 240000000 2 2 demo_histogram).
  - intros n. rewrite Hh, Hq. simpl. destruct (decide (1 = n)); reflexivity.
  - intros n. rewrite Hc, Hq. simpl. destruct (decide (1 = n)) as [<-|Hne].
    + by rewrite lookup_singleton_eq.
    + by rewrite lookup_singleton_ne.
  - rewrite Hq. repeat constructor.
  - vm_compute. lia.
Defined.

Lemma weight_of_rename st old_node new_node q n :
  old_node ≠ new_node →
  weight_of st n (rename_event old_node new_node <$> q)
  = if decide (n = old_node) then 0%Z
    else if decide (n = new_node)
         then (weight_of st old_node q + weight_of st new_node q)%Z
         else weight_of st n q.
Proof.
  intros Hne. induction q as [|[[ts m] leaf] q IH].
  - simpl. by repeat destruct (decide _).
  - rewrite fmap_cons. unfold rename_event at 1. cbn [weight_of]. rewrite IH.
    repeat destruct (decide _); subst; try done; lia.
Qed.

(** X6.  [rename_node] onto a different node that has no entry returns and
    keeps the books of the histogram: the new node takes over the weighted
    count and the events of the old one. *)
Theorem rename_node_accounted st old_node new_node h :
  old_node ≠ new_node →
  dict_get (histogram h) new_node = None →
  is_Some (node_to_count h !! old_node) →
  accounted st h →
  (rename_node old_node new_node h).1 = Return tt
  ∧ accounted st (rename_node old_node new_node h).2.
Proof.
  intros Hne Hnew [c Hc] Hacc. unfold rename_node, bind, get. simpl.
  destruct (dict_get (histogram h) old_node) as [v|] eqn:Hold; [|done].
  rewrite Hc. simpl. split; [done|]. intros n. simpl.
  rewrite weight_of_rename by done.
  pose proof (Hacc old_node) as Ho. pose proof (Hacc new_node) as Hn.
  rewrite Hold in Ho. rewrite Hnew in Hn. simpl in Ho, Hn.
  destruct (decide (n = old_node)) as [->|Hno].
  - by rewrite dict_get_set_ne, dict_get_del_eq by done.
  - destruct (decide (n = new_node)) as [->|Hnn].
    + rewrite dict_get_set_eq. simpl. lia.
    + rewrite dict_get_set_ne, dict_get_del_ne by done. apply Hacc.
Qed.

Lemma rename_node_accounted_witness :
  (rename_node 1 2 demo_histogram).1 = Return tt
  ∧ accounted demo_store (rename_node 1 2 demo_histogram).2.
Proof.
  assert (Hh : histogram demo_histogram = [(1, 8%Z)]) by (vm_compute; reflexivity).
  assert (Hc : node_to_count demo_histogram = {[ 1 := 2%Z ]}) by (vm_compute; reflexivity).
  assert (Hq : timestamps demo_histogram = [(0%Z, 1, 1); (1000000%Z, 1, 1)])
    by (vm_compute; reflexivity).
  apply (rename_node_accounted demo_store 1 2 demo_histogram).
  - lia.
  - by rewrite Hh.
  - rewrite Hc. by rewrite lookup_singleton_eq.
  - intros n. rewrite Hh, Hq. simpl. destruct (decide (1 = n)); reflexivity.
Defined.
End HistogramLedger.

Section AllocationTotals.
Import SlidingWindowHistogram.
Implicit Types (h : t) (allocation : list Qc).

Ltac qc_ring :=
  clear;
  repeat match goal with
         | |- context [list_fmap ?A ?B ?f ?l] =>
             change (list_fmap A B f l) with (f <$> l)
         end;
  ring.










Lemma current_allocation_per_gpu_raises_witness :
  current_allocation_per_gpu stray_histogram = Raise IndexError
  ∧ IndexError = IndexError.
Proof.
  split; [vm_compute; reflexivity|].
  apply (current_allocation_per_gpu_raises stray_histogram IndexError).
  vm_compute. reflexivity.
Defined.

(** The loop of the variant against the fold of the plain function over
    the items that pass the test. *)
Lemma min_load_loop_spec (min_load : Z) h0 (items : list (node * Z)) allocation h :
  gpu_allocations h = gpu_allocations h0 →
  (∀ n, default 0%Z (node_to_count h !! n) = default 0%Z (node_to_count h0 !! n)) →
  let r := min_load_loop min_load items allocation h in
  r.1 = ofoldl (λ acc '(nd, cost),
                  let gpus := default ∅ (gpu_allocations h0 !! nd) in
                  ofoldl (add_share cost (size gpus)) acc (elements gpus))
               allocation
               (filter (λ item, ¬ (default 0 (node_to_count h0 !! item.1) < min_load)%Z)
                       items)
  ∧ gpu_allocations r.2 = gpu_allocations h
  ∧ histogram r.2 = histogram h
  ∧ timestamps r.2 = timestamps h
  ∧ num_gpus r.2 = num_gpus h
  ∧ window_duration r.2 = window_duration h
  ∧ ∀ n, default 0%Z (node_to_count r.2 !! n) = default 0%Z (node_to_count h !! n).
Proof.
  revert allocation h. induction items as [|[nd cost] items IH];
    intros allocation h Hal Hcnt r.
  - done.
  - assert (Hstep : ∃ h1,
      read_count nd h = (Return (default 0%Z (node_to_count h !! nd)), h1)
      ∧ gpu_allocations h1 = gpu_allocations h
      ∧ histogram h1 = histogram h
      ∧ timestamps h1 = timestamps h
      ∧ num_gpus h1 = num_gpus h
      ∧ window_duration h1 = window_duration h
      ∧ ∀ n, default 0%Z (node_to_count h1 !! n) = default 0%Z (node_to_count h !! n)).
    { unfold read_count, bind, get.
      destruct (node_to_count h !! nd) as [c|] eqn:Hc.
      - by exists h.
      - eexists. split; [reflexivity|]. simpl. split_and!; try done.
        intros n. destruct (decide (n = nd)) as [->|Hne].
        + by rewrite lookup_insert_eq, Hc.
        + by rewrite lookup_insert_ne. }
    destruct Hstep as (h1 & Hrc & Ha1 & Hh1 & Ht1 & Hn1 & Hw1 & Hc1).
    set (gpus := default ∅ (gpu_allocations h0 !! nd)).
    assert (Hr : r =
      if decide (default 0%Z (node_to_count h !! nd) < min_load)%Z
      then min_load_loop min_load items allocation h1
      else match ofoldl (add_share cost (size gpus)) allocation (elements gpus) with
           | Return allocation' => min_load_loop min_load items allocation' h1
           | Raise e => (Raise e, h1)
           end).
    { subst r. simpl. unfold bind at 1. rewrite Hrc.
      destruct (decide _); [done|]. unfold bind at 1, get. unfold bind at 1, pure_of.
      rewrite Ha1, Hal. fold gpus. by destruct (ofoldl _ allocation _). }
    clearbody r. subst r. rewrite filter_cons. simpl. rewrite <- (Hcnt nd).
    destruct (decide (default 0%Z (node_to_count h !! nd) < min_load)%Z) as [Hlt|Hge].
    + destruct (decide (¬ _)) as [Hn|_]; [done|].
      destruct (IH allocation h1) as (Hr & Ha & Hh & Ht & Hn & Hw & Hc).
      { congruence. } { intros n. by rewrite Hc1. }
      split_and!; [exact Hr | congruence.. |]. intros n. by rewrite Hc, Hc1.
    + destruct (decide (¬ _)) as [_|Hn]; [|done]. simpl. fold gpus.
      destruct (ofoldl _ allocation _) as [allocation'|e]; simpl.
      * destruct (IH allocation' h1) as (Hr & Ha & Hh & Ht & Hn & Hw & Hc).
        { congruence. } { intros n. by rewrite Hc1. }
        split_and!; [exact Hr | congruence.. |]. intros n. by rewrite Hc, Hc1.
      * split_and!; try done.
Qed.

(** X8.  [current_allocation_per_gpu_with_atleast_min_load] gives what
    [current_allocation_per_gpu] gives on the histogram without the nodes
    that have fewer than [min_load] events, the same exception included.
    Reading [node_to_count] may add entries of 0 to it; the allocation map,
    the histogram and the FIFO are untouched. *)
Theorem current_allocation_per_gpu_with_atleast_min_load_spec (min_load : Z) h :
  let r := current_allocation_per_gpu_with_atleast_min_load min_load h in
  r.1 = current_allocation_per_gpu (with_min_load min_load h)
  ∧ gpu_allocations r.2 = gpu_allocations h
  ∧ histogram r.2 = histogram h
  ∧ timestamps r.2 = timestamps h
  ∧ ∀ n, default 0%Z (node_to_count r.2 !! n) = default 0%Z (node_to_count h !! n).
Proof.
  unfold current_allocation_per_gpu_with_atleast_min_load, bind, get.
  destruct (min_load_loop_spec min_load h (histogram h)
              (replicate (num_gpus h) 0%Qc) h) as (Hr & Ha & Hh & Ht & _ & _ & Hc);
    [done|done|].
  split_and!; done.
Qed.
End AllocationTotals.

Section Ancestors.
Import GlobalScheduler.
Implicit Types (s : t) (st : gmap node LPTreeNode) (n : option node) (w : gset gpu).

Lemma update_gpu_allocation_for_parent_lookup st fuel n w k :
  reaches_root st n k → ∀ s, tree s = st → k < fuel →
  ∃ s', update_gpu_allocation_for_parent fuel n w s = (Return tt, s')
    ∧ s' = set_gpu_allocations (gpu_allocations s') s
    ∧ ∀ x,
        (on_path st n x →
         gpu_allocations s' !! x = Some (default ∅ (gpu_allocations s !! x) ∪ w))
        ∧ (gpu_allocations s' !! x = gpu_allocations s !! x
           ∨ gpu_allocations s' !! x = Some (default ∅ (gpu_allocations s !! x) ∪ w))
        ∧ (¬ on_path st n x → gpu_allocations s' !! x = gpu_allocations s !! x).
Proof.
  intros Hr. revert fuel. induction Hr as [|h k Hr IH]; intros fuel s Hst Hk;
    (destruct fuel as [|fuel]; [lia|]); simpl.
  - exists s. split_and!; [done | by rewrite set_gpu_allocations_same |].
    intros x. split_and!; [inversion 1 | by left | done].
  - unfold bind at 1, get. unfold bind at 1, put. rewrite Hst.
    set (s1 := set_gpu_allocations
                 (<[h := default ∅ (gpu_allocations s !! h) ∪ w]> (gpu_allocations s)) s).
    destruct (IH fuel s1) as (s' & Hrun & Hs' & Hx); [done|lia|].
    exists s'. split_and!; [done| |].
    { rewrite Hs' at 1. subst s1. by rewrite set_gpu_allocations_twice. }
    intros x. destruct (Hx x) as (Hon & Hor & Hoff).
    assert (H1 : gpu_allocations s1 !! h
                 = Some (default ∅ (gpu_allocations s !! h) ∪ w)).
    { subst s1. destruct s as [? ? ? ? ? ? ? hh ? ? ? ? ?]; destruct hh. simpl.
      apply lookup_insert_eq. }
    assert (H2 : x ≠ h → gpu_allocations s1 !! x = gpu_allocations s !! x).
    { intros Hne. subst s1. destruct s as [? ? ? ? ? ? ? hh ? ? ? ? ?]; destruct hh.
      simpl. by apply lookup_insert_ne. }
    assert (Hh : x = h →
              gpu_allocations s' !! x = Some (default ∅ (gpu_allocations s !! x) ∪ w)).
    { intros ->. destruct Hor as [-> | ->]; rewrite H1; [done|]. simpl.
      f_equal. by rewrite <- (assoc_L (∪)), (idemp_L (∪)). }
    split_and!.
    + intros Hp. destruct (decide (x = h)) as [Heq|Hne]; [by apply Hh|].
      inversion Hp; subst; [done|]. rewrite Hon by done. by rewrite H2.
    + destruct (decide (x = h)) as [Heq|Hne]; [right; by apply Hh|].
      rewrite <- H2 by done. exact Hor.
    + intros Hnp. assert (x ≠ h) as Hne by (intros ->; apply Hnp; constructor).
      rewrite Hoff; [by apply H2|]. intros Hp. apply Hnp. by constructor.
Qed.

(** X10.  With fuel for the parent chain of the node,
    [update_gpu_allocation_for_parent] returns; it has added the workers to
    the allocation set of the node and of each of its ancestors (an absent
    entry counts as empty), and changed nothing else: the entries of the
    other nodes and the rest of the scheduler are as before. *)
Theorem update_gpu_allocation_for_parent_spec fuel n w s k :
  reaches_root (tree s) n k → k < fuel →
  ∃ s', update_gpu_allocation_for_parent fuel n w s = (Return tt, s')
    ∧ s' = set_gpu_allocations (gpu_allocations s') s
    ∧ (∀ x, on_path (tree s) n x →
            gpu_allocations s' !! x = Some (default ∅ (gpu_allocations s !! x) ∪ w))
    ∧ (∀ x, ¬ on_path (tree s) n x →
            gpu_allocations s' !! x = gpu_allocations s !! x).
Proof.
  intros Hr Hk.
  destruct (update_gpu_allocation_for_parent_lookup (tree s) fuel n w k Hr s eq_refl Hk)
    as (s' & Hrun & Hs' & Hx).
  exists s'. split_and!; [done|done| |]; intros x; by destruct (Hx x) as (? & ? & ?).
Qed.

(** X11.  After [update_gpu_allocation_for_parent] with a non-empty worker
    set, [get_parent_gpu_allocation] on the same node gives the node's own
    entry, the old one and the new workers, not an ancestor's. *)
Theorem inherits_after_update fuel h w s k :
  reaches_root (tree s) (Some h) k → k < fuel → w ≠ ∅ →
  ∃ s', update_gpu_allocation_for_parent fuel (Some h) w s = (Return tt, s')
    ∧ get_parent_gpu_allocation fuel (Some h) s'
      = Return (default ∅ (gpu_allocations s !! h) ∪ w).
Proof.
  intros Hr Hk Hw.
  destruct (update_gpu_allocation_for_parent_lookup (tree s) fuel (Some h) w k Hr s
              eq_refl Hk) as (s' & Hrun & Hs' & Hx).
  exists s'. split; [done|].
  destruct (Hx h) as (Hon & _). specialize (Hon (on_path_here _ h)).
  destruct fuel as [|fuel]; [lia|]. simpl. rewrite Hon.
  rewrite decide_False; [done|]. intros He. apply Hw.
  by apply empty_union_L in He as [_ ?].
Qed.

Lemma first_large_on_path st n a :
  first_large st n a → on_path st n a ∧ is_large_node st a = true.
Proof.
  induction 1 as [h Hl|h a Hl Hf [IH1 IH2]]; split; try done; by constructor.
Qed.

Lemma get_important_node_first fuel st n a :
  get_important_node fuel st n = Return a → first_large st n a.
Proof.
  revert n. induction fuel as [|fuel IH]; intros n; simpl; [done|].
  destruct n as [h|]; [|done].
  destruct (is_large_node st h) eqn:Hl.
  - intros [= <-]. by constructor.
  - intros Hr. apply first_large_up; [done|]. by apply IH.
Qed.

(** X12.  In a tree where each node's context is its parent's context and
    its own tokens, at least one, and the root's context is empty,
    [get_important_node] returns for every node but the root, given fuel
    for the parent chain: the result is the first large node on the way
    up. *)
Theorem get_important_node_exists fuel st h k :
  reaches_root st (Some h) k → k < fuel →
  (∀ x, on_path st (Some h) x → chained st x) →
  is_Some (parent (deref st h)) →
  ∃ a, get_important_node fuel st (Some h) = Return a ∧ first_large st (Some h) a.
Proof.
  intros Hr Hk Hch Hp.
  assert (Hret : ∃ a, get_important_node fuel st (Some h) = Return a).
  { clear -Hr Hk Hch Hp. revert fuel Hk Hch Hp. remember (Some h) as n eqn:Hn.
    revert h Hn. induction Hr as [|h0 k Hr IH]; intros h Hn fuel Hk Hch Hp; [done|].
    injection Hn as ->. destruct fuel as [|fuel]; [lia|]. simpl.
    destruct (is_large_node st h) eqn:Hl; [by eexists|].
    destruct Hp as [p Hp]. rewrite Hp in *.
    pose proof (Hch h (on_path_here _ h)) as Hh. unfold chained in Hh.
    rewrite Hp in Hh. destruct Hh as [Hctx Htok].
    apply (IH p eq_refl); [lia| |].
    - intros x Hx. apply Hch. apply on_path_up. by rewrite Hp.
    - destruct (parent (deref st p)) as [pp|] eqn:Hpp; [by eexists|].
      pose proof (Hch p) as Hroot. unfold chained in Hroot. rewrite Hpp in Hroot.
      rewrite Hroot in Hctx by (apply on_path_up; rewrite Hp; constructor).
      unfold is_large_node in Hl. apply bool_decide_eq_false in Hl. lia. }
  destruct Hret as [a Ha]. exists a. split; [done|]. by eapply get_important_node_first.
Qed.

Lemma one_route_parent_1 : parent (deref (tree one_route) 1) = Some 0.
Proof. vm_compute. reflexivity. Qed.

Lemma one_route_parent_0 : parent (deref (tree one_route) 0) = None.
Proof. vm_compute. reflexivity. Qed.

Lemma one_route_chain : reaches_root (tree one_route) (Some 1) 2.
Proof.
  apply reaches_some. rewrite one_route_parent_1.
  apply reaches_some. rewrite one_route_parent_0. constructor.
Qed.

Lemma update_gpu_allocation_for_parent_spec_witness :
  ∃ s', update_gpu_allocation_for_parent 3 (Some 1) {[ 1 ]} one_route = (Return tt, s')
    ∧ s' = set_gpu_allocations (gpu_allocations s') one_route
    ∧ (∀ x, on_path (tree one_route) (Some 1) x →
            gpu_allocations s' !! x
            = Some (default ∅ (gpu_allocations one_route !! x) ∪ {[ 1 ]}))
    ∧ (∀ x, ¬ on_path (tree one_route) (Some 1) x →
            gpu_allocations s' !! x = gpu_allocations one_route !! x).
Proof.
  apply (update_gpu_allocation_for_parent_spec 3 (Some 1) {[ 1 ]} one_route 2).
  - exact one_route_chain.
  - lia.
Defined.

Lemma inherits_after_update_witness :
  ∃ s', update_gpu_allocation_for_parent 3 (Some 1) {[ 1 ]} one_route = (Return tt, s')
    ∧ get_parent_gpu_allocation 3 (Some 1) s'
      = Return (default ∅ (gpu_allocations one_route !! 1) ∪ {[ 1 ]}).
Proof.
  apply (inherits_after_update 3 1 {[ 1 ]} one_route 2).
  - exact one_route_chain.
  - lia.
  - apply non_empty_singleton_L.
Defined.

Lemma get_important_node_exists_witness :
  ∃ a, get_important_node 3 (tree one_route) (Some 1) = Return a
       ∧ first_large (tree one_route) (Some 1) a.
Proof.
  apply (get_important_node_exists 3 (tree one_route) 1 2).
  - exact one_route_chain.
  - lia.
  - intros x Hx. inversion Hx as [|h a Hup]; subst.
    + vm_compute. split; [reflexivity|lia].
    + rewrite one_route_parent_1 in Hup. inversion Hup as [|h a Hup']; subst.
      * vm_compute. reflexivity.
      * rewrite one_route_parent_0 in Hup'. inversion Hup'.
  - rewrite one_route_parent_1. by eexists.
Defined.
End Ancestors.

Section Costs.
Import GlobalScheduler.
Implicit Types (s : t) (st : gmap node LPTreeNode).

Lemma dict_get_Forall {K V} `{EqDecision K} (P : K * V → Prop)
    (d : list (K * V)) k v :
  Forall P d → dict_get d k = Some v → P (k, v).
Proof.
  induction 1 as [|[k' v'] d Hp Hd IH]; simpl; [done|].
  destruct (decide (k' = k)) as [->|Hne]; [by intros [= <-]|done].
Qed.

Lemma get_recomp_cost_nonneg fuel st n gpu_id (hist : H.t) c :
  Forall (λ item, 0 < item.2)%Z (H.histogram hist) →
  get_recomp_cost fuel st n gpu_id hist = Return c → (0 ≤ c)%Z.
Proof.
  intros Hpos. revert n c. induction fuel as [|fuel IH]; intros n c; simpl; [done|].
  destruct n as [x|]; [|intros [= <-]; lia].
  destruct (has_cached_gpu _ _); [intros [= <-]; lia|].
  destruct (get_recomp_cost fuel st _ gpu_id hist) as [up|] eqn:Hup; simpl; [|done].
  intros [= <-]. specialize (IH _ _ Hup).
  destruct (dict_get (H.histogram hist) x) as [v|] eqn:Hv; simpl; [|lia].
  pose proof (dict_get_Forall _ _ _ _ Hpos Hv) as Hv0. simpl in Hv0. lia.
Qed.

(** X13.  When the histogram's entries are positive, a cost that
    [get_recomp_cost] returns for a node is not negative, and it is 0
    exactly when the worker caches the node itself. *)
Theorem get_recomp_cost_zero fuel st x gpu_id (hist : H.t) c :
  Forall (λ item, 0 < item.2)%Z (H.histogram hist) →
  get_recomp_cost fuel st (Some x) gpu_id hist = Return c →
  (0 ≤ c)%Z ∧ (c = 0%Z ↔ gpu_id ∈ cached_gpus (deref st x)).
Proof.
  intros Hpos Hc. split; [by eapply get_recomp_cost_nonneg|].
  destruct fuel as [|fuel]; simpl in Hc; [done|].
  unfold has_cached_gpu in Hc. case_bool_decide as Hin.
  - injection Hc as <-. done.
  - destruct (get_recomp_cost fuel st _ gpu_id hist) as [up|] eqn:Hup; simpl in Hc; [|done].
    injection Hc as <-. apply (get_recomp_cost_nonneg _ _ _ _ _ _ Hpos) in Hup.
    split; [|done]. intros Hz. exfalso.
    destruct (dict_get (H.histogram hist) x) as [v|] eqn:Hv; simpl in Hz; [|lia].
    pose proof (dict_get_Forall _ _ _ _ Hpos Hv) as Hv0. simpl in Hv0. lia.
Qed.

Lemma get_recomp_cost_zero_witness :
  (0 ≤ 5)%Z ∧ (5%Z = 0%Z ↔ 1 ∈ cached_gpus (deref (tree one_route) 1)).
Proof.
  apply (get_recomp_cost_zero 3 (tree one_route) 1 1 (histogram one_route) 5).
  - assert (Hh : H.histogram (histogram one_route) = [(1, 4%Z)])
      by (vm_compute; reflexivity).
    rewrite Hh. repeat constructor.
  - vm_compute. reflexivity.
Defined.

Lemma argmin_from_spec (l pre : list Qc) (i best : nat) (least : Qc) :
  i = length pre →
  pre !! best = Some least →
  (∀ j x, pre !! j = Some x → (least ≤ x)%Qc ∧ (j < best → (least < x)%Qc)) →
  ∃ m, (pre ++ l) !! argmin_from i best least l = Some m
     ∧ ∀ j x, (pre ++ l) !! j = Some x →
         (m ≤ x)%Qc ∧ (j < argmin_from i best least l → (m < x)%Qc).
Proof.
  revert pre i best least. induction l as [|x l IH]; intros pre i best least Hi Hb Hmin;
    simpl.
  - rewrite app_nil_r. by exists least.
  - assert (Hlen : S i = length (pre ++ [x]))
      by (rewrite length_app; simpl; lia).
    assert (Hbl : best < length pre) by by eapply lookup_lt_Some.
    rewrite (cons_middle x pre l), app_assoc.
    destruct (decide (x < least)%Qc) as [Hlt|Hge].
    + apply IH; [done| |].
      * rewrite lookup_app_r by lia. by rewrite Hi, Nat.sub_diag.
      * intros j y Hj. destruct (decide (j < length pre)) as [Hjl|Hjl].
        -- rewrite lookup_app_l in Hj by done. destruct (Hmin j y Hj) as [Hle _].
           split; [apply Qclt_le_weak|intros _]; by eapply Qclt_le_trans.
        -- rewrite lookup_app_r in Hj by lia.
           destruct (j - length pre) as [|?] eqn:Hd; simpl in Hj; [|done].
           injection Hj as <-. split; [apply Qcle_refl | lia].
    + apply Qcnot_lt_le in Hge. apply IH; [done| |].
      * by rewrite lookup_app_l.
      * intros j y Hj. destruct (decide (j < length pre)) as [Hjl|Hjl].
        -- rewrite lookup_app_l in Hj by done. by apply Hmin.
        -- rewrite lookup_app_r in Hj by lia.
           destruct (j - length pre) as [|?] eqn:Hd; simpl in Hj; [|done].
           injection Hj as <-. split; [done | lia].
Qed.

Lemma argmin_spec (l : list Qc) (g : nat) :
  argmin l = Return g →
  ∃ m, l !! g = Some m
     ∧ ∀ j x, l !! j = Some x → (m ≤ x)%Qc ∧ (j < g → (m < x)%Qc).
Proof.
  destruct l as [|x l]; simpl; [done|]. intros [= <-].
  apply (argmin_from_spec l [x] 1 0 x); [done|done|].
  intros [|j] y Hj; simpl in Hj; [|done]. injection Hj as <-.
  split; [apply Qcle_refl | lia].
Qed.

Lemma ofoldl_collect {A B} (g : list A → B → outcome (list A)) (f : B → outcome A)
    (l : list B) :
  (∀ acc x, g acc x = (c ↤ f x ;; Return (acc ++ [c]))) →
  ∀ acc r, ofoldl g acc l = Return r →
  ∃ cs, r = acc ++ cs ∧ Forall2 (λ x c, f x = Return c) l cs.
Proof.
  intros Hg. induction l as [|x l IH]; intros acc r; simpl.
  - intros [= <-]. exists []. by rewrite app_nil_r.
  - rewrite Hg. destruct (f x) as [c|] eqn:Hc; simpl; [|done].
    intros Hr. apply IH in Hr as (cs & -> & Hcs).
    exists (c :: cs). split; [by rewrite <- app_assoc|]. by constructor.
Qed.

(** The list that line 268 hands to [argmin]: one total cost per worker. *)
Lemma select_by_cost_totals fuel leaf s a :
  select_by_cost fuel leaf s = Return a →
  ∃ totals g,
    argmin totals = Return g ∧ a = {[ g ]}
    ∧ (∀ j t, totals !! j = Some t →
              j < num_gpus s ∧ total_cost fuel leaf s j = Return t)
    ∧ (∀ j, j < num_gpus s → is_Some (totals !! j)).
Proof.
  unfold select_by_cost.
  match goal with
  | |- obind ?o _ = _ → _ => destruct o as [rc|] eqn:Hrc; cbn [obind]; [|done]
  end.
  destruct (H.current_allocation_per_gpu (histogram s)) as [mc|] eqn:Hmc;
    cbn [obind]; [|done].
  match goal with
  | |- obind ?o _ = _ → _ => destruct o as [totals|] eqn:Ht; cbn [obind]; [|done]
  end.
  destruct (argmin totals) as [g|] eqn:Hg; cbn [obind]; [|done].
  intros [= <-].
  apply (ofoldl_collect _
           (λ gpu_id, get_recomp_cost_basic fuel (tree s)
                        (parent (deref (tree s) leaf)) gpu_id)) in Hrc
    as (rc' & -> & Hrc); [|done]. simpl in Hrc.
  apply (ofoldl_collect _
           (λ gpu_id, match rc' !! gpu_id, mc !! gpu_id with
                      | Some r, Some m => Return (Zq r + m)%Qc
                      | _, _ => Raise IndexError
                      end)) in Ht
    as (totals' & -> & Ht);
    [|intros acc x; simpl; by destruct (rc' !! x), (mc !! x)]. simpl in Ht.
  exists totals', g. split_and!; [done | done | |].
  - intros j t Hj.
    destruct (Forall2_lookup_r _ _ _ _ _ Ht Hj) as (j' & Hj' & Hf).
    apply lookup_seq in Hj' as [-> Hlt]. simpl in Hf. split; [done|].
    destruct (rc' !! j) as [r|] eqn:Hr; [|done].
    destruct (Forall2_lookup_r _ _ _ _ _ Hrc Hr) as (j' & Hj' & Hf').
    apply lookup_seq in Hj' as [-> _]. simpl in Hf'.
    unfold total_cost. rewrite Hf', Hmc. simpl. by destruct (mc !! j).
  - intros j Hj. destruct (Forall2_lookup_l _ _ _ j j Ht) as (t & Ht' & _).
    + by apply lookup_seq_lt.
    + by exists t.
Qed.

Lemma select_by_cost_range fuel leaf s a :
  select_by_cost fuel leaf s = Return a → ∃ g, a = {[ g ]} ∧ g < num_gpus s.
Proof.
  intros (totals & g & Hg & -> & Htot & _)%select_by_cost_totals.
  apply argmin_spec in Hg as (m & Hm & _).
  exists g. split; [done|]. by destruct (Htot g m Hm).
Qed.

(** X14.  When the cost branch of lines 263-269 returns, it returns one
    worker below [num_gpus]; every worker has a total cost (recompute cost
    of the leaf's parent and load), the chosen one has the least, and the
    workers before it cost strictly more: ties go to the lowest id. *)
Theorem select_by_cost_least fuel leaf s a :
  select_by_cost fuel leaf s = Return a →
  ∃ g c, a = {[ g ]} ∧ g < num_gpus s
         ∧ total_cost fuel leaf s g = Return c
         ∧ ∀ j, j < num_gpus s →
             ∃ c', total_cost fuel leaf s j = Return c'
                   ∧ (c ≤ c')%Qc ∧ (j < g → (c < c')%Qc).
Proof.
  intros (totals & g & Hg & -> & Htot & Hall)%select_by_cost_totals.
  apply argmin_spec in Hg as (m & Hm & Hmin).
  destruct (Htot g m Hm) as [Hlt Hcost].
  exists g, m. split_and!; [done | done | done |].
  intros j Hj. destruct (Hall j Hj) as [t Ht].
  exists t. destruct (Htot j t Ht) as [_ Hcj]. split; [done|]. by apply Hmin.
Qed.

Lemma select_by_cost_least_witness :
  ∃ g c, ({[ 1 ]} : gset gpu) = {[ g ]} ∧ g < num_gpus one_route
         ∧ total_cost 3 1 one_route g = Return c
         ∧ ∀ j, j < num_gpus one_route →
             ∃ c', total_cost 3 1 one_route j = Return c'
                   ∧ (c ≤ c')%Qc ∧ (j < g → (c < c')%Qc).
Proof.
  apply (select_by_cost_least 3 1 one_route {[ 1 ]}).
  vm_compute. reflexivity.
Defined.
End Costs.

Section Frames.
Import GlobalScheduler.
Implicit Types (s : t) (P : gpu → Prop).

Lemma grows_within_refl P s : grows_within P s s.
Proof. intros x a g Ha Hg. right. by exists x, a. Qed.

Lemma grows_within_trans P s1 s2 s3 :
  grows_within P s1 s2 → grows_within P s2 s3 → grows_within P s1 s3.
Proof.
  intros H12 H23 x a g Ha Hg.
  destruct (H23 x a g Ha Hg) as [?|(y & a2 & Ha2 & Hg2)]; [by left|].
  by apply (H12 y a2 g).
Qed.

Lemma grows_within_same P s s' :
  gpu_allocations s' = gpu_allocations s → grows_within P s s'.
Proof. intros Heq x a g Ha Hg. right. exists x, a. by rewrite <- Heq. Qed.

Lemma gpu_allocations_set a s : gpu_allocations (set_gpu_allocations a s) = a.
Proof. reflexivity. Qed.

Lemma grows_within_insert P s x a :
  (∀ g, g ∈ a → P g ∨ ∃ y a0, gpu_allocations s !! y = Some a0 ∧ g ∈ a0) →
  grows_within P s (set_gpu_allocations (<[x := a]> (gpu_allocations s)) s).
Proof.
  intros Ha x' a' g. rewrite gpu_allocations_set.
  destruct (decide (x' = x)) as [->|Hne].
  - rewrite lookup_insert_eq. intros [= <-]. apply Ha.
  - rewrite lookup_insert_ne by done. intros Hl Hg. right. by exists x', a'.
Qed.

Section Generic.
Context {T : Type} (proj : t → T) (P : gpu → Prop).

Lemma framed_ret {A} (x : A) : framed proj P (ret x).
Proof. intros s. split; [done | apply grows_within_refl]. Qed.

Lemma framed_raise {A} e : framed proj P (@raise t A e).
Proof. intros s. split; [done | apply grows_within_refl]. Qed.

Lemma framed_pure_of {A} (o : outcome A) : framed proj P (pure_of o).
Proof. intros s. split; [done | apply grows_within_refl]. Qed.

Lemma framed_bind {A B} (c : M t A) (k : A → M t B) :
  framed proj P c → (∀ x, framed proj P (k x)) → framed proj P (bind c k).
Proof.
  intros Hc Hk s. unfold bind. destruct (Hc s) as [Hp Hg].
  destruct (c s) as [[x|e] s1]; simpl in *; [|done].
  destruct (Hk x s1) as [Hp1 Hg1]. split; [congruence|].
  by eapply grows_within_trans.
Qed.

Lemma framed_get_bind {B} (k : t → M t B) :
  (∀ s, proj (k s s).2 = proj s ∧ grows_within P s (k s s).2) →
  framed proj P (bind get k).
Proof. intros Hk s. apply Hk. Qed.

Lemma framed_put_bind {B} (s1 s : t) (k : unit → M t B) :
  proj s1 = proj s → grows_within P s s1 → framed proj P (k tt) →
  proj (bind (put s1) k s).2 = proj s ∧ grows_within P s (bind (put s1) k s).2.
Proof.
  intros Hp Hg Hk. unfold bind, put. destruct (Hk s1) as [Hp1 Hg1].
  split; [congruence | by eapply grows_within_trans].
Qed.

Lemma framed_modify (f : t → t) :
  (∀ s, proj (f s) = proj s ∧ grows_within P s (f s)) → framed proj P (modify f).
Proof. intros Hf s. apply Hf. Qed.

Lemma framed_for_each {A} (l : list A) (body : A → M t unit) :
  (∀ x, x ∈ l → framed proj P (body x)) → framed proj P (for_each l body).
Proof.
  induction l as [|x l IH]; intros Hb; simpl.
  - apply framed_ret.
  - apply framed_bind; [apply Hb; by left|]. intros _. apply IH.
    intros y Hy. apply Hb. by right.
Qed.

Lemma framed_weaken {U A} (f : T → U) (c : M t A) :
  framed proj P c → framed (λ s, f (proj s)) P c.
Proof. intros Hc s. destruct (Hc s) as [Hp Hg]. split; [by rewrite Hp | done]. Qed.
End Generic.

(** *** The rebalancer *)

Lemma framed_read_node_to_count P n : framed requests P (read_node_to_count n).
Proof.
  intros s. unfold read_node_to_count, bind, get.
  destruct (H.node_to_count (histogram s) !! n); simpl;
    (split; [reflexivity | by apply grows_within_same]).
Qed.

Lemma framed_collect_candidates P hot items heap :
  framed requests P (collect_candidates hot items heap).
Proof.
  revert heap. induction items as [|[nd cost] items IH]; intros heap; simpl.
  - apply framed_ret.
  - apply framed_get_bind. intros s.
    destruct (gpu_allocations s !! nd) as [a|]; [|apply framed_raise].
    destruct (decide (hot ∈ a)); [|apply IH].
    apply framed_bind; [apply framed_read_node_to_count|].
    intros c. destruct (decide _); apply IH.
Qed.

Lemma framed_update_children P fuel n g :
  P g → framed requests P (update_children fuel n g).
Proof.
  intros Hg. revert n. induction fuel as [|fuel IH]; intros n; simpl.
  - apply framed_raise.
  - apply framed_get_bind. intros s. apply framed_for_each. intros child _.
    apply framed_bind; [|intros _; apply IH].
    apply framed_modify. intros s1. split; [reflexivity|].
    apply grows_within_insert. intros g' ->%elem_of_singleton. by left.
Qed.

Lemma framed_steal_loop P fuel cold heap hot_cost cold_cost :
  P cold → framed requests P (steal_loop fuel cold heap hot_cost cold_cost).
Proof.
  intros Hg. revert hot_cost cold_cost.
  induction heap as [|[cost nd] heap IH]; intros hot_cost cold_cost; simpl.
  - apply framed_ret.
  - apply framed_get_bind. intros s.
    destruct (negb _); [apply framed_raise|].
    destruct (gpu_allocations s !! nd) as [a|]; [|apply framed_raise].
    destruct (decide (cold ∈ a)).
    { apply framed_bind; [apply IH|]. intros r. apply framed_ret. }
    destruct (decide _); [apply framed_ret|].
    apply framed_put_bind; [reflexivity| |].
    { apply grows_within_insert. intros g' ->%elem_of_singleton. by left. }
    apply framed_bind; [by apply framed_update_children|]. intros _.
    apply framed_bind; [apply IH|]. intros r. apply framed_ret.
Qed.

Lemma framed_split_single P now hot cold cost nd hot_cost cold_cost :
  P cold → framed requests P (split_single now hot cold cost nd hot_cost cold_cost).
Proof.
  intros Hg. unfold split_single. apply framed_get_bind. intros s.
  destruct (gpu_allocations s !! nd) as [a|] eqn:Ha; [|apply framed_raise].
  destruct (decide (cold ∈ a)); [apply framed_ret|].
  unfold bind at 1, pure_of.
  destruct (D.is_node_overloaded now nd hot (overload_detector s)) as [[]|e];
    [| apply framed_ret | apply framed_raise].
  apply framed_put_bind; [| |apply framed_ret].
  { unfold D.delete_after_allocation. by destruct (D.data _ !! _). }
  assert (Hga : ∀ d m, gpu_allocations (set_overload_detector d (set_gpu_allocations m s)) = m)
    by reflexivity.
  intros x a' g. rewrite Hga.
  destruct (decide (x = nd)) as [->|Hne].
  - rewrite lookup_insert_eq. intros [= <-] [Hin | ->%elem_of_singleton]%elem_of_union.
    + right. by exists nd, a.
    + by left.
  - rewrite lookup_insert_ne by done. intros Hl Hin. right. by exists x, a'.
Qed.

Lemma framed_steal_between P fuel now hot cold hot_cost cold_cost :
  P cold → framed requests P (steal_between fuel now hot cold hot_cost cold_cost).
Proof.
  intros Hg. unfold steal_between. apply framed_get_bind. intros s.
  generalize (H.histogram (histogram s)) as items. intros items.
  revert s. apply framed_bind; [apply framed_collect_candidates|]. intros heap.
  assert (Hloop : framed requests P
            (r ⇐ steal_loop fuel cold heap hot_cost cold_cost ;; ret r.1)).
  { apply framed_bind; [by apply framed_steal_loop|]. intros r. apply framed_ret. }
  destruct heap as [|[cost nd] [|? ?]]; try exact Hloop.
  by apply framed_split_single.
Qed.

Lemma framed_stealing_levels P fuel clock heads smallest :
  P smallest.1 → framed requests P (stealing_levels fuel clock heads smallest).
Proof.
  revert smallest. induction heads as [|[hot hot_cost] heads IH];
    intros [cold cold_cost] Hg; simpl.
  - apply framed_ret.
  - apply framed_get_bind. intros s.
    generalize (HIGH_LOAD_THRESHOLD s) as th. intros th.
    destruct (decide _); [apply framed_ret|].
    revert s. apply framed_bind; [by apply framed_steal_between|].
    intros r. by apply IH.
Qed.

Lemma allocation_length (h : H.t) v :
  H.current_allocation_per_gpu h = Return v → length v = H.num_gpus h.
Proof.
  unfold H.current_allocation_per_gpu.
  rewrite <- (length_replicate (H.num_gpus h) 0%Qc) at 2.
  generalize (replicate (H.num_gpus h) 0%Qc) as allocation. revert v.
  induction (H.histogram h) as [|[nd cost] items IH]; intros v allocation; simpl.
  - by intros [= <-].
  - set (gpus := default ∅ (H.gpu_allocations h !! nd)).
    assert (Hin : ∀ l acc acc', ofoldl (H.add_share cost (size gpus)) acc l = Return acc' →
                                length acc' = length acc).
    { clear. induction l as [|g l IHl]; intros acc acc'; simpl; [by intros [= <-]|].
      unfold H.add_share at 1. destruct (acc !! g); simpl; [|done].
      destruct (truediv _ _); simpl; [|done]. intros Hr. apply IHl in Hr.
      by rewrite length_insert in Hr. }
    destruct (ofoldl _ allocation (elements gpus)) as [acc|] eqn:Hf; simpl; [|done].
    intros Hr. apply IH in Hr. rewrite Hr. by eapply Hin.
Qed.

Lemma insert_sorted_elem (x y : gpu * Qc) l :
  y ∈ insert_sorted x l → y = x ∨ y ∈ l.
Proof.
  induction l as [|z l IH]; simpl.
  - intros ->%list_elem_of_singleton. by left.
  - destruct (decide _).
    + intros [->|Hy]%elem_of_cons; [right; by left|].
      destruct (IH Hy) as [?|?]; [by left | right; by right].
    + intros [->|Hy]%elem_of_cons; [by left | by right].
Qed.

Lemma sorted_desc_elem (y : gpu * Qc) l : y ∈ sorted_desc l → y ∈ l.
Proof.
  unfold sorted_desc. induction l as [|x l IH]; simpl; [done|].
  intros [->|Hy]%insert_sorted_elem; [by left | right; by apply IH].
Qed.

Lemma last_elem {A} (l : list A) (d : A) : l ≠ [] → List.last l d ∈ l.
Proof.
  induction l as [|x [|y l] IH]; intros Hne; [done | by left |].
  right. apply IH. done.
Qed.

(** X15.  Whether it returns or raises, [handle_important_node_stealing]
    leaves alone the tree, the histogram's weighted counts and event FIFO,
    the load counters, the request counter, the metrics and the
    configuration: it writes allocation sets, [node_to_count] and detector
    series only. *)
Theorem handle_important_node_stealing_requests fuel clock scheduled_idx s :
  requests (handle_important_node_stealing fuel clock scheduled_idx s).2 = requests s.
Proof.
  unfold handle_important_node_stealing, bind at 1, get.
  destruct (decide _); [done|]. unfold bind, pure_of.
  destruct (H.current_allocation_per_gpu (histogram s)) as [v|e] eqn:Hv; [|done].
  unfold handle_important_node_stealing_recursive.
  destruct (sorted_desc _) as [|first rest] eqn:Hl; [done|].
  by apply (framed_stealing_levels (λ _, True)).
Qed.
End Frames.

Section Bookkeeping.
Import GlobalScheduler.
Implicit Types (s : t) (P : gpu → Prop).

Lemma requests_ledger s s' : requests s' = requests s → ledger s' = ledger s.
Proof. intros Hr. exact (f_equal (λ r, r.1.1.1) Hr). Qed.

Lemma ledger_config s s' : ledger s' = ledger s → config s' = config s.
Proof. intros Hl. exact (f_equal (λ l, l.1.1.1) Hl). Qed.

Lemma ledger_fields s s' :
  ledger s' = ledger s →
  per_gpu_load s' = per_gpu_load s ∧ counter s' = counter s
  ∧ metrics_dict s' = metrics_dict s.
Proof.
  intros Hl. split_and!.
  - exact (f_equal (λ l, l.1.1.2) Hl).
  - exact (f_equal (λ l, l.1.2) Hl).
  - exact (f_equal (λ l, l.2) Hl).
Qed.

Lemma config_fields s s' :
  config s' = config s →
  num_gpus s' = num_gpus s ∧ all_gpus s' = all_gpus s
  ∧ dom (per_gpu_load s') = dom (per_gpu_load s)
  ∧ H.num_gpus (histogram s') = H.num_gpus (histogram s)
  ∧ enable_rebalancing s' = enable_rebalancing s.
Proof. unfold config. intros [= ? ? ? ? ? ? ? ? ? ? ? ?]. by split_and!. Qed.

(** *** The split handlers *)

Lemma framed_handle_split_nodes_gpu_allocations P l :
  framed requests P (handle_split_nodes_gpu_allocations l).
Proof.
  apply framed_for_each. intros [child new] _. apply framed_get_bind. intros s.
  destruct (gpu_allocations s !! child) as [a|] eqn:Ha; [|apply framed_raise].
  split; [reflexivity|]. apply grows_within_insert. intros g Hg. right. by exists child, a.
Qed.

Lemma H_rename_node_fields a b (h : H.t) :
  H.gpu_allocations (H.rename_node a b h).2 = H.gpu_allocations h
  ∧ H.num_gpus (H.rename_node a b h).2 = H.num_gpus h
  ∧ H.window_duration (H.rename_node a b h).2 = H.window_duration h.
Proof.
  unfold H.rename_node, bind, get.
  destruct (dict_get (H.histogram h) a); [|done].
  by destruct (H.node_to_count h !! a).
Qed.

Lemma framed_zoom_histogram {A} P (c : M H.t A) :
  (∀ h, H.gpu_allocations (c h).2 = H.gpu_allocations h
        ∧ H.num_gpus (c h).2 = H.num_gpus h
        ∧ H.window_duration (c h).2 = H.window_duration h) →
  framed ledger P (zoom histogram set_histogram c).
Proof.
  intros Hc s. unfold zoom. destruct (Hc (histogram s)) as (Ha & Hn & Hw).
  destruct (c (histogram s)) as [o h']. simpl in *. split.
  - unfold ledger, config. simpl. by rewrite Hn, Hw.
  - apply grows_within_same. exact Ha.
Qed.

Lemma D_rename_node_fields a b g (o : D.t) :
  D.window_duration (D.rename_node a b g o) = D.window_duration o
  ∧ D.half_window_duration (D.rename_node a b g o) = D.half_window_duration o.
Proof. unfold D.rename_node. by destruct (D.data o !! _). Qed.

Lemma framed_handle_split_node_histogram P l :
  framed ledger P (handle_split_node_histogram l).
Proof.
  apply framed_for_each. intros [child new] _. apply framed_get_bind. intros s.
  destruct (_ && _); [|apply framed_ret].
  revert s. apply framed_bind.
  { apply framed_zoom_histogram. apply H_rename_node_fields. }
  intros _. apply framed_get_bind. intros s.
  generalize (elements (default ∅ (gpu_allocations s !! child))) as gs. intros gs.
  revert s. apply framed_for_each. intros g _. apply framed_modify. intros s.
  destruct (D_rename_node_fields child new g (overload_detector s)) as [Hw Hh].
  split; [|by apply grows_within_same].
  unfold ledger, config. simpl. by rewrite Hw, Hh.
Qed.

Lemma framed_place_request P fuel input_ids hint :
  framed ledger P (place_request fuel input_ids hint).
Proof.
  unfold place_request. apply framed_get_bind. intros s.
  destruct (insert input_ids (cache s)) as [[leaf splits] c].
  apply framed_put_bind; [reflexivity | by apply grows_within_same |].
  apply framed_bind.
  { apply (framed_weaken requests P (λ r, r.1.1.1)).
    apply framed_handle_split_nodes_gpu_allocations. }
  intros _. apply framed_bind; [apply framed_handle_split_node_histogram|].
  intros _. apply framed_get_bind. intros s1.
  generalize (get_important_node fuel (tree s1) (Some leaf)) as o1.
  generalize (select_gpus fuel leaf hint s1) as o2. intros o2 o1.
  revert s1. apply framed_bind; [apply framed_pure_of|]. intros imp.
  apply framed_bind; [apply framed_pure_of|]. intros sel. apply framed_ret.
Qed.

(** *** The histogram update *)

Lemma H_expire_fields st nd leaf (h : H.t) :
  H.num_gpus (H.expire st nd leaf h).2 = H.num_gpus h
  ∧ H.window_duration (H.expire st nd leaf h).2 = H.window_duration h
  ∧ ∀ x a, H.gpu_allocations (H.expire st nd leaf h).2 !! x = Some a →
           a = ∅ ∨ H.gpu_allocations h !! x = Some a.
Proof.
  unfold H.expire. destruct (decide (_ ≤ 0)%Z); simpl; split_and!; try done.
  - intros x a. destruct (decide (x = nd)) as [->|Hne].
    + rewrite lookup_insert_eq. intros [= <-]. by left.
    + rewrite lookup_insert_ne by done. by right.
  - intros x a ?. by right.
Qed.

Lemma H_purge_fields st ws q (h : H.t) :
  H.num_gpus (H.purge st ws q h).2 = H.num_gpus h
  ∧ H.window_duration (H.purge st ws q h).2 = H.window_duration h
  ∧ ∀ x a, H.gpu_allocations (H.purge st ws q h).2 !! x = Some a →
           a = ∅ ∨ H.gpu_allocations h !! x = Some a.
Proof.
  revert h. induction q as [|[[ts nd] leaf] q IH]; intros h; simpl.
  - split_and!; try done. intros x a ?. by right.
  - destruct (H.older ts ws); [|split_and!; try done; intros x a ?; by right].
    destruct (H_expire_fields st nd leaf h) as (Hn1 & Hw1 & Ha1).
    destruct (H.expire st nd leaf h) as [log1 h1]. simpl in *.
    destruct (IH h1) as (Hn2 & Hw2 & Ha2).
    destruct (H.purge st ws q h1) as [log2 h2]. simpl in *.
    split_and!; [congruence | congruence |].
    intros x a Hx. destruct (Ha2 x a Hx) as [?|Hx1]; [by left | by apply Ha1].
Qed.

Lemma H_update_fields st now nd leaf (h : H.t) :
  H.num_gpus (H.update st now nd leaf h) = H.num_gpus h
  ∧ H.window_duration (H.update st now nd leaf h) = H.window_duration h
  ∧ ∀ x a, H.gpu_allocations (H.update st now nd leaf h) !! x = Some a →
           a = ∅ ∨ H.gpu_allocations h !! x = Some a.
Proof.
  unfold H.update, H.update_log, H._remove_old_entries_log.
  apply (H_purge_fields st _ _ (H.record_event st now nd leaf h)).
Qed.

Lemma framed_update P now nd leaf :
  framed ledger P
    (modify (λ s, set_histogram (H.update (tree s) now nd leaf (histogram s)) s)).
Proof.
  apply framed_modify. intros s.
  destruct (H_update_fields (tree s) now nd leaf (histogram s)) as (Hn & Hw & Ha).
  split.
  - unfold ledger, config. simpl. by rewrite Hn, Hw.
  - intros x a g Hx Hg. destruct (Ha x a Hx) as [->|Hx0]; [set_solver|].
    right. by exists x, a.
Qed.

(** *** The commitment of a placement *)

Lemma framed_update_gpu_allocation_for_parent P fuel n (sel : gset gpu) :
  (∀ g, g ∈ sel → P g) →
  framed requests P (update_gpu_allocation_for_parent fuel n sel).
Proof.
  intros Hsel. revert n. induction fuel as [|fuel IH]; intros n; simpl.
  - apply framed_raise.
  - destruct n as [h|]; [|apply framed_ret].
    apply framed_get_bind. intros s.
    apply framed_put_bind; [reflexivity| |apply IH].
    apply grows_within_insert. intros g [Hg|Hg]%elem_of_union; [|left; by apply Hsel].
    destruct (gpu_allocations s !! h) as [a|] eqn:Ha; simpl in Hg; [|set_solver].
    right. by exists h, a.
Qed.

Lemma framed_zoom_cache {A} P (c : M LPRadixCache A) :
  framed ledger P (zoom cache set_cache c).
Proof.
  intros s. unfold zoom. destruct (c (cache s)) as [o c']. simpl.
  split; [reflexivity | by apply grows_within_same].
Qed.

Lemma handle_important_node_stealing_frame P fuel clock scheduled_idx s :
  (∀ g, g < H.num_gpus (histogram s) → P g) →
  requests (handle_important_node_stealing fuel clock scheduled_idx s).2 = requests s
  ∧ grows_within P s (handle_important_node_stealing fuel clock scheduled_idx s).2.
Proof.
  intros HP. unfold handle_important_node_stealing, bind, get, pure_of.
  destruct (decide _); [split; [done | apply grows_within_refl]|].
  destruct (H.current_allocation_per_gpu (histogram s)) as [v|e] eqn:Hv;
    [|split; [done | apply grows_within_refl]].
  unfold handle_important_node_stealing_recursive.
  destruct (sorted_desc _) as [|first rest] eqn:Hl;
    [split; [done | apply grows_within_refl]|].
  apply framed_stealing_levels.
  assert (Hin : List.last (first :: rest) first
                ∈ sorted_desc (imap (λ gpu_id c, (gpu_id, c)) v)).
  { rewrite Hl. by apply last_elem. }
  apply sorted_desc_elem in Hin. apply elem_of_lookup_imap in Hin as (i & c & -> & Hi).
  simpl. apply HP. apply lookup_lt_Some in Hi. by rewrite <- (allocation_length _ _ Hv).
Qed.

Lemma commit_placement_frame P fuel clock rnd text rid p s :
  (∀ g, g ∈ selected_of p → P g) →
  (∀ g, g < H.num_gpus (histogram s) → P g) →
  let r := commit_placement fuel clock rnd text rid p s in
  config r.2 = config s
  ∧ grows_within P s r.2
  ∧ match r.1 with
    | Return v =>
        ∃ load, per_gpu_load s !! v = Some load
                ∧ v ∈ selected_of p
                ∧ per_gpu_load r.2 = <[v := (load + 1)%Z]> (per_gpu_load s)
                ∧ counter r.2 = (counter s + 1)%Z
                ∧ metrics_dict r.2 = metrics_dict s ++ [mk_metric text rid v]
    | Raise _ => counter r.2 = counter s ∧ metrics_dict r.2 = metrics_dict s
    end.
Proof.
  intros Hsel HP r. assert (Hr : r = commit_placement fuel clock rnd text rid p s) by done.
  clearbody r. unfold commit_placement in Hr. unfold bind at 1 in Hr.
  destruct (framed_update_gpu_allocation_for_parent P fuel (Some (leaf_of p))
              (selected_of p) Hsel s) as [Hr2 Hg2].
  destruct (update_gpu_allocation_for_parent fuel (Some (leaf_of p))
              (selected_of p) s) as [[[]|e] s2]; simpl in Hr2, Hg2.
  2:{ subst r. apply requests_ledger in Hr2. pose proof (ledger_config _ _ Hr2).
      apply ledger_fields in Hr2 as (_ & ? & ?). by split_and!. }
  apply requests_ledger in Hr2. pose proof (ledger_config _ _ Hr2) as Hc2.
  apply ledger_fields in Hr2 as (Hl2 & Hn2 & Hm2).
  unfold bind at 1, pure_of in Hr.
  destruct (pick_runtime rnd (selected_of p)) as [idx|e] eqn:Hpick;
    [|subst r; by split_and!].
  apply pick_runtime_elem in Hpick.
  unfold bind at 1, get in Hr.
  destruct (per_gpu_load s2 !! idx) as [load|] eqn:Hload; [|subst r; by split_and!].
  unfold bind at 1, put in Hr. unfold bind at 1 in Hr.
  set (s3 := set_per_gpu_load (<[idx := (load + 1)%Z]> (per_gpu_load s2)) s2) in *.
  assert (Hc3 : config s3 = config s).
  { rewrite <- Hc2. unfold config. simpl.
    rewrite dom_insert_lookup_L; [done | by rewrite Hload]. }
  assert (Hg3 : grows_within P s s3).
  { eapply grows_within_trans; [exact Hg2 | by apply grows_within_same]. }
  assert (Hn3 : counter s3 = counter s) by exact Hn2.
  assert (Hm3 : metrics_dict s3 = metrics_dict s) by exact Hm2.
  assert (Hl3 : per_gpu_load s3 = <[idx := (load + 1)%Z]> (per_gpu_load s)).
  { simpl. by rewrite Hl2. }
  clearbody s3.
  destruct (framed_zoom_cache P
              (update_allocated_size fuel (Some (leaf_of p)) idx) s3) as [Hr4 Hg4].
  destruct (zoom cache set_cache _ s3) as [[[]|e] s4]; simpl in Hr4, Hg4.
  2:{ subst r. pose proof (ledger_config _ _ Hr4).
      apply ledger_fields in Hr4 as (_ & ? & ?). simpl.
      split_and!; [congruence | by eapply grows_within_trans | |]; congruence. }
  pose proof (ledger_config _ _ Hr4) as Hc4.
  apply ledger_fields in Hr4 as (Hl4 & Hn4 & Hm4).
  unfold bind at 1, get in Hr. unfold bind at 1 in Hr.
  assert (Hreb : ∃ o5 s5,
    (if enable_rebalancing s4
     then handle_important_node_stealing fuel clock idx
     else ret tt) s4 = (o5, s5)
    ∧ requests s5 = requests s4 ∧ grows_within P s4 s5).
  { destruct (enable_rebalancing s4).
    - destruct (handle_important_node_stealing_frame P fuel clock idx s4) as [H1 H2].
      { intros g Hg. apply HP.
        apply config_fields in Hc3 as (_ & _ & _ & <- & _).
        by apply config_fields in Hc4 as (_ & _ & _ & <- & _). }
      destruct (handle_important_node_stealing fuel clock idx s4) as [o5 s5].
      by exists o5, s5.
    - exists (Return tt), s4. split_and!; [done | done | apply grows_within_refl]. }
  destruct Hreb as (o5 & s5 & Hreb & Hr5 & Hg5). rewrite Hreb in Hr.
  apply requests_ledger in Hr5. pose proof (ledger_config _ _ Hr5) as Hc5.
  apply ledger_fields in Hr5 as (Hl5 & Hn5 & Hm5).
  assert (Hg : grows_within P s s5).
  { eapply grows_within_trans; [|exact Hg5]. by eapply grows_within_trans. }
  destruct o5 as [[]|e]; subst r; simpl.
  - split_and!.
    + change (config s5 = config s). congruence.
    + eapply grows_within_trans; [exact Hg | by apply grows_within_same].
    + exists load. rewrite <- Hl2. split_and!; [done | done | | |]; congruence.
  - split_and!; [congruence | done | |]; congruence.
Qed.

Lemma runtime_selector_frame P fuel now clock rnd text rid input_ids hint s :
  (∀ p s1, place_request fuel input_ids hint s = (Return p, s1) →
           ∀ g, g ∈ selected_of p → P g) →
  (∀ g, g < H.num_gpus (histogram s) → P g) →
  let r := runtime_selector fuel now clock rnd text rid input_ids hint s in
  config r.2 = config s
  ∧ grows_within P s r.2
  ∧ match r.1 with
    | Return v =>
        ∃ load, per_gpu_load s !! v = Some load
                ∧ per_gpu_load r.2 = <[v := (load + 1)%Z]> (per_gpu_load s)
                ∧ counter r.2 = (counter s + 1)%Z
                ∧ metrics_dict r.2 = metrics_dict s ++ [mk_metric text rid v]
    | Raise _ => counter r.2 = counter s ∧ metrics_dict r.2 = metrics_dict s
    end.
Proof.
  intros Hsel HP r.
  assert (Hr : r = runtime_selector fuel now clock rnd text rid input_ids hint s) by done.
  clearbody r. unfold runtime_selector in Hr. unfold bind at 1 in Hr.
  destruct (framed_place_request P fuel input_ids hint s) as [Hr1 Hg1].
  destruct (place_request fuel input_ids hint s) as [[p|e] s1] eqn:Hp;
    simpl in Hr1, Hg1.
  2:{ subst r. pose proof (ledger_config _ _ Hr1).
      apply ledger_fields in Hr1 as (_ & ? & ?). by split_and!. }
  specialize (Hsel p s1 eq_refl).
  pose proof (ledger_config _ _ Hr1) as Hc1.
  apply ledger_fields in Hr1 as (Hl1 & Hn1 & Hm1).
  unfold bind at 1, modify in Hr.
  destruct (framed_update P now (important_of p) (leaf_of p) s1) as [Hr2 Hg2].
  unfold modify in Hr2, Hg2. simpl in Hr2, Hg2.
  set (s2 := set_histogram _ s1) in *.
  pose proof (ledger_config _ _ Hr2) as Hc2.
  apply ledger_fields in Hr2 as (Hl2 & Hn2 & Hm2).
  destruct (commit_placement_frame P fuel clock rnd text rid p s2 Hsel)
    as (Hc3 & Hg3 & Hres).
  { intros g Hg. apply HP.
    apply config_fields in Hc1 as (_ & _ & _ & <- & _).
    by apply config_fields in Hc2 as (_ & _ & _ & <- & _). }
  rewrite <- Hr in Hc3, Hg3, Hres. clear Hr. clearbody s2.
  split_and!.
  - congruence.
  - eapply grows_within_trans; [|exact Hg3]. by eapply grows_within_trans.
  - destruct r as [[v|e] s3]; simpl in *.
    + destruct Hres as (load & Hload & _ & Hl3 & Hn3 & Hm3).
      assert (Heq : per_gpu_load s2 = per_gpu_load s) by congruence.
      rewrite Heq in Hload, Hl3. exists load. split_and!; [done|done| |]; congruence.
    + destruct Hres. split; congruence.
Qed.

(** X16.  [runtime_selector] keeps the configuration and the set of workers
    that have a load counter.  When it returns [v], the load counter of
    [v] went up by one and no other changed, [counter] went up by one and
    [metrics_dict] got one entry, for [v]; when it raises, [counter] and
    [metrics_dict] are as before. *)
Theorem runtime_selector_ledger fuel now clock rnd text rid input_ids hint s :
  let r := runtime_selector fuel now clock rnd text rid input_ids hint s in
  config r.2 = config s
  ∧ match r.1 with
    | Return v =>
        ∃ load, per_gpu_load s !! v = Some load
                ∧ per_gpu_load r.2 = <[v := (load + 1)%Z]> (per_gpu_load s)
                ∧ counter r.2 = (counter s + 1)%Z
                ∧ metrics_dict r.2 = metrics_dict s ++ [mk_metric text rid v]
    | Raise _ => counter r.2 = counter s ∧ metrics_dict r.2 = metrics_dict s
    end.
Proof.
  intros r.
  destruct (runtime_selector_frame (λ _, True) fuel now clock rnd text rid
              input_ids hint s) as (Hc & _ & Hres); done.
Qed.

(** *** Worker ids stay in range *)

Lemma inherits_in_range s n a :
  allocations_in_range s → (∀ g, g ∈ all_gpus s → g < num_gpus s) →
  inherits s n a → ∀ g, g ∈ a → g < num_gpus s.
Proof.
  intros Hal Hall. induction 1 as [|h a Ha Hne|h a Hcase Hi IH]; [done| |done].
  intros g Hg. by apply (Hal h a g).
Qed.

Lemma scheduler_wf_step s s' :
  scheduler_wf s → config s' = config s →
  grows_within (λ g, g < num_gpus s) s s' → scheduler_wf s'.
Proof.
  intros ([Hdom Hall] & Hn & Hal) Hc Hg.
  apply config_fields in Hc as (Hn' & Hall' & Hdom' & Hhn & _).
  split_and!.
  - split; congruence.
  - congruence.
  - intros x a g Hx Hin. rewrite Hn'.
    destruct (Hg x a g Hx Hin) as [?|(y & a0 & Hy & Hg0)]; [done|].
    by apply (Hal y a0 g).
Qed.

Lemma workers_wf_in_range s g : workers_wf s → g ∈ all_gpus s → g < num_gpus s.
Proof.
  intros [_ ->] Hg. apply elem_of_list_to_set, elem_of_seq in Hg. lia.
Qed.

(** The candidate set of a placement on a well-formed scheduler holds
    workers below [num_gpus]. *)
Lemma place_request_in_range fuel input_ids hint s p s1 :
  scheduler_wf s →
  (∀ r, hint = Some r → r < num_gpus s) →
  place_request fuel input_ids hint s = (Return p, s1) →
  ∀ g, g ∈ selected_of p → g < num_gpus s.
Proof.
  intros Hwf Hhint Hp.
  destruct (framed_place_request (λ g, g < num_gpus s) fuel input_ids hint s)
    as [Hl1 Hg1].
  rewrite Hp in Hl1, Hg1. simpl in Hl1, Hg1. apply ledger_config in Hl1.
  pose proof (scheduler_wf_step s s1 Hwf Hl1 Hg1) as (Hw1 & Hn1 & Hal1).
  apply config_fields in Hl1 as (Hnum & _).
  apply place_request_inv in Hp as [_ Hsel]. unfold select_gpus in Hsel.
  rewrite <- Hnum. destruct (decide _).
  - apply get_parent_gpu_allocation_inherits in Hsel.
    apply (inherits_in_range s1 (Some (leaf_of p)) (selected_of p) Hal1); [|exact Hsel].
    intros g. by apply workers_wf_in_range.
  - destruct hint as [r|].
    + injection Hsel as <-. intros g ->%elem_of_singleton. rewrite Hnum. by apply Hhint.
    + apply select_by_cost_range in Hsel as (g0 & -> & Hlt).
      by intros g ->%elem_of_singleton.
Qed.

(** X17.  [runtime_selector] keeps the scheduler well formed, whether it
    returns or raises: when the caller's preferred worker, if any, is below
    [num_gpus], the worker bookkeeping stays as the constructor left it and
    every allocation set holds workers below [num_gpus]. *)
Theorem runtime_selector_wf fuel now clock rnd text rid input_ids hint s :
  scheduler_wf s →
  (∀ r, hint = Some r → r < num_gpus s) →
  scheduler_wf (runtime_selector fuel now clock rnd text rid input_ids hint s).2.
Proof.
  intros Hwf Hhint.
  destruct (runtime_selector_frame (λ g, g < num_gpus s) fuel now clock rnd text rid
              input_ids hint s) as (Hc & Hg & _).
  - intros p s1 Hp. by eapply place_request_in_range.
  - destruct Hwf as (_ & -> & _). done.
  - by eapply scheduler_wf_step.
Qed.

Lemma init_scheduler_wf num_nodes ev rb : scheduler_wf (init num_nodes ev rb).
Proof.
  split_and!; [apply init_workers_wf | done |].
  intros x a g Hx.
  change (gpu_allocations (init num_nodes ev rb)) with (∅ : gmap node (gset gpu)) in Hx.
  by rewrite lookup_empty in Hx.
Qed.

Lemma runtime_selector_wf_witness :
  scheduler_wf (runtime_selector 3 0 (λ _, 0%Z) 0 None None [10; 11; 12; 13]%Z
                  (Some 1) (init 2 false true)).2.
Proof.
  apply (runtime_selector_wf 3 0 (λ _, 0%Z) 0 None None [10; 11; 12; 13]%Z
           (Some 1) (init 2 false true)).
  - apply init_scheduler_wf.
  - intros r [= <-]. simpl. lia.
Defined.

Lemma D_add_data_point_fields now nd g v (o : D.t) :
  D.window_duration (D.add_data_point now nd g v o).2 = D.window_duration o
  ∧ D.half_window_duration (D.add_data_point now nd g v o).2 = D.half_window_duration o.
Proof.
  unfold D.add_data_point, D.purge_old_data, bind, get, put. simpl.
  by rewrite lookup_insert_eq.
Qed.

Lemma framed_update_overload_detector P fuel now input_ids runtime_idx ttft :
  framed ledger P (update_overload_detector fuel now input_ids runtime_idx ttft).
Proof.
  unfold update_overload_detector. apply framed_get_bind. intros s.
  generalize (get_important_node fuel (tree s) (find_node input_ids (cache s))) as o.
  intros o. revert s. apply framed_bind; [apply framed_pure_of|]. intros imp s.
  unfold zoom.
  destruct (D_add_data_point_fields now imp runtime_idx ttft (overload_detector s))
    as [Hw Hh].
  destruct (D.add_data_point now imp runtime_idx ttft (overload_detector s)) as [o' d'].
  simpl in *. split; [|by apply grows_within_same].
  unfold ledger, config. simpl. by rewrite Hw, Hh.
Qed.

Lemma serve_one_wf fuel s c :
  scheduler_wf s → hint_in_range (num_gpus s) c →
  scheduler_wf (serve_one fuel s c) ∧ num_gpus (serve_one fuel s c) = num_gpus s.
Proof.
  intros Hwf Hc. destruct c as [e input_ids hint|now input_ids runtime_idx ttft]; simpl.
  - destruct (runtime_selector_frame (λ g, g < num_gpus s) fuel (env_now e)
                (env_clock e) (env_rnd e) (env_text e) (env_rid e) input_ids hint s)
      as (Hcf & Hg & _).
    + intros p s1 Hp. eapply place_request_in_range; [done| |exact Hp].
      intros r ->. exact Hc.
    + destruct Hwf as (_ & -> & _). done.
    + split; [by eapply scheduler_wf_step|].
      by apply config_fields in Hcf as (? & _).
  - destruct (framed_update_overload_detector (λ g, g < num_gpus s) fuel now input_ids
                runtime_idx ttft s) as [Hl Hg].
    apply ledger_config in Hl. split; [by eapply scheduler_wf_step|].
    by apply config_fields in Hl as (? & _).
Qed.

Lemma serve_config fuel calls s : config (serve fuel calls s) = config s.
Proof.
  revert s. induction calls as [|c calls IH]; intros s; simpl; [done|].
  rewrite IH. destruct c as [e input_ids hint|now input_ids runtime_idx ttft]; simpl.
  - by destruct (runtime_selector_frame (λ _, True) fuel (env_now e) (env_clock e)
                   (env_rnd e) (env_text e) (env_rid e) input_ids hint s) as (? & _).
  - destruct (framed_update_overload_detector (λ _, True) fuel now input_ids
                runtime_idx ttft s) as [Hl _].
    by apply ledger_config.
Qed.

Lemma serve_wf fuel N calls :
  Forall (hint_in_range N) calls →
  ∀ s, scheduler_wf s → num_gpus s = N →
       scheduler_wf (serve fuel calls s) ∧ num_gpus (serve fuel calls s) = N.
Proof.
  induction 1 as [|c calls Hc Hcalls IH]; intros s Hwf Hn; simpl; [done|].
  destruct (serve_one_wf fuel s c Hwf) as [Hwf1 Hn1]; [by rewrite Hn|].
  apply IH; [done | congruence].
Qed.

(** X18.  After any sequence of [runtime_selector] and
    [update_overload_detector] calls on a new scheduler, returned or
    raised, with preferred workers below [num_gpus], the scheduler is well
    formed and [current_allocation_per_gpu] returns a list of [num_gpus]
    loads. *)
Theorem serve_allocation_returns fuel N ev rb calls :
  Forall (hint_in_range N) calls →
  let s := serve fuel calls (init N ev rb) in
  scheduler_wf s ∧ num_gpus s = N
  ∧ ∃ v, H.current_allocation_per_gpu (histogram s) = Return v ∧ length v = N.
Proof.
  intros Hcalls s.
  destruct (serve_wf fuel N calls Hcalls (init N ev rb)) as [Hwf Hn];
    [apply init_scheduler_wf | done |].
  fold s in Hwf, Hn. clearbody s. split_and!; [done|done|].
  destruct Hwf as (_ & Hhn & Hal).
  destruct (allocation_fold (histogram s) (H.histogram (histogram s))
              (replicate (H.num_gpus (histogram s)) 0%Qc)) as (v & Hv & Hl & _).
  { intros nd cost a g _ Ha Hg. rewrite length_replicate, Hhn. by apply (Hal nd a g). }
  exists v. split; [exact Hv|]. rewrite Hl, length_replicate. congruence.
Qed.

Lemma serve_allocation_returns_witness :
  let s := serve 3 [Route (at_second 0) [10; 11; 12; 13]%Z None;
                    Report 1000000 [10; 11; 12; 13]%Z 0 (Zq 1);
                    Route (at_second 2) [10; 11; 12; 13; 14]%Z (Some 1)]
             (init 2 false true) in
  scheduler_wf s ∧ num_gpus s = 2
  ∧ ∃ v, H.current_allocation_per_gpu (histogram s) = Return v ∧ length v = 2.
Proof.
  apply (serve_allocation_returns 3 2 false true).
  repeat first [apply Forall_cons_2 | apply Forall_nil_2]; simpl; lia.
Defined.
End Bookkeeping.

Section Eviction.
Import GlobalScheduler.
Implicit Types (s : t) (x : node) (w : gpu).

Lemma deref_insert st x nd : deref (<[x := nd]> st) x = nd.
Proof. unfold deref. by rewrite lookup_insert_eq. Qed.

Lemma tree_set_node x nd s : tree (set_node x nd s) = <[x := nd]> (tree s).
Proof. reflexivity. Qed.

Lemma gpu_allocations_set_node x nd s :
  gpu_allocations (set_node x nd s) = gpu_allocations s.
Proof. reflexivity. Qed.

(** X19.  On a large node that has a child, is cached on the worker and
    has the worker in its allocation set, [evict_callback] raises
    [AttributeError]: the helper calls itself through [self].  By then the
    worker went from [cached_gpus] to [evicted_gpus] of the node and left
    the node's allocation set; no other allocation set changed. *)
Theorem evict_callback_children x w s a :
  w ∈ cached_gpus (deref (tree s) x) →
  is_large_node (tree s) x = true →
  gpu_allocations s !! x = Some a → w ∈ a →
  children (deref (tree s) x) ≠ ∅ →
  ∃ s', evict_callback x w s = (Raise AttributeError, s')
    ∧ gpu_allocations s' = <[x := a ∖ {[ w ]}]> (gpu_allocations s)
    ∧ cached_gpus (deref (tree s') x) = cached_gpus (deref (tree s) x) ∖ {[ w ]}
    ∧ evicted_gpus (deref (tree s') x) = evicted_gpus (deref (tree s) x) ∪ {[ w ]}.
Proof.
  intros Hc Hl Ha Hw Hch. unfold evict_callback.
  unfold bind at 1, get. unfold bind at 1, put.
  rewrite decide_True by done.
  unfold bind at 1, get. unfold bind at 1, put. unfold bind at 1, get. unfold bind at 1.
  set (nd := deref (tree s) x) in *.
  set (nd1 := mkNode _ _ _ _ _ _ _).
  set (s2 := set_node x (set_cached_gpus _ nd1) (set_node x nd1 s)).
  assert (Hl2 : is_large_node (tree s2) x = true).
  { unfold is_large_node in *. subst s2. rewrite tree_set_node, deref_insert. exact Hl. }
  rewrite Hl2.
  assert (Ha2 : gpu_allocations s2 !! x = Some a) by exact Ha.
  rewrite Ha2. rewrite decide_True by done.
  unfold bind at 1, put.
  destruct (map_to_list (children nd)).*2 as [|c cs] eqn:Hcs.
  { apply fmap_nil_inv, map_to_list_empty_iff in Hcs. done. }
  assert (Hd2 : deref (tree s2) x = set_cached_gpus (cached_gpus nd ∖ {[ w ]}) nd1).
  { subst s2. by rewrite tree_set_node, deref_insert. }
  eexists. split; [reflexivity|]. simpl. split_and!.
  - reflexivity.
  - change (cached_gpus (deref (tree s2) x) = cached_gpus nd ∖ {[ w ]}). by rewrite Hd2.
  - change (evicted_gpus (deref (tree s2) x) = evicted_gpus nd ∪ {[ w ]}). by rewrite Hd2.
Qed.

Lemma evict_callback_children_witness :
  ∃ s', evict_callback 1 0 prefix_with_child = (Raise AttributeError, s')
    ∧ gpu_allocations s' = <[1 := {[ 0 ]} ∖ {[ 0 ]}]> (gpu_allocations prefix_with_child)
    ∧ cached_gpus (deref (tree s') 1)
      = cached_gpus (deref (tree prefix_with_child) 1) ∖ {[ 0 ]}
    ∧ evicted_gpus (deref (tree s') 1)
      = evicted_gpus (deref (tree prefix_with_child) 1) ∪ {[ 0 ]}.
Proof.
  apply (evict_callback_children 1 0 prefix_with_child {[ 0 ]}).
  - apply (bool_decide_eq_true_1 (0 ∈ cached_gpus (deref (tree prefix_with_child) 1))).
    vm_compute. reflexivity.
  - vm_compute. reflexivity.
  - vm_compute. reflexivity.
  - by apply elem_of_singleton.
  - intros He.
    assert (Hs : size (children (deref (tree prefix_with_child) 1)) = 1)
      by (vm_compute; reflexivity).
    rewrite He in Hs. done.
Defined.

(** X20.  On a node without children that is cached on the worker,
    [evict_callback] returns the length of the node's [value]; the worker
    went from [cached_gpus] to [evicted_gpus] of the node and, when the
    node is large, left its allocation set; the other nodes and their
    allocation sets are as before. *)
Theorem evict_callback_leaf x w s :
  w ∈ cached_gpus (deref (tree s) x) →
  children (deref (tree s) x) = ∅ →
  ∃ s', evict_callback x w s = (Return (length (value (deref (tree s) x))), s')
    ∧ cached_gpus (deref (tree s') x) = cached_gpus (deref (tree s) x) ∖ {[ w ]}
    ∧ evicted_gpus (deref (tree s') x) = evicted_gpus (deref (tree s) x) ∪ {[ w ]}
    ∧ (∀ y, y ≠ x → deref (tree s') y = deref (tree s) y)
    ∧ (∀ y, y ≠ x → gpu_allocations s' !! y = gpu_allocations s !! y)
    ∧ gpu_allocations s' !! x
      = (if is_large_node (tree s) x
         then (λ a, a ∖ {[ w ]}) <$> gpu_allocations s !! x
         else gpu_allocations s !! x).
Proof.
  intros Hc Hch. unfold evict_callback.
  unfold bind at 1, get. unfold bind at 1, put.
  rewrite decide_True by done.
  unfold bind at 1, get. unfold bind at 1, put. unfold bind at 1, get. unfold bind at 1.
  set (nd := deref (tree s) x) in *.
  set (nd1 := mkNode _ _ _ _ _ _ _).
  set (s2 := set_node x (set_cached_gpus _ nd1) (set_node x nd1 s)).
  assert (Hl2 : is_large_node (tree s2) x = is_large_node (tree s) x).
  { unfold is_large_node. subst s2. by rewrite tree_set_node, deref_insert. }
  assert (Ha2 : gpu_allocations s2 = gpu_allocations s) by reflexivity.
  assert (Hd2 : deref (tree s2) x = set_cached_gpus (cached_gpus nd ∖ {[ w ]}) nd1).
  { subst s2. by rewrite tree_set_node, deref_insert. }
  assert (Ho2 : ∀ y, y ≠ x → deref (tree s2) y = deref (tree s) y).
  { intros y Hy. subst s2. rewrite !tree_set_node. unfold deref.
    by rewrite !lookup_insert_ne. }
  rewrite Hl2, Ha2, Hch, map_to_list_empty. cbn [fmap list_fmap]. clearbody s2.
  assert (Htree : ∀ s', tree s' = tree s2 →
            cached_gpus (deref (tree s') x) = cached_gpus nd ∖ {[ w ]}
            ∧ evicted_gpus (deref (tree s') x) = evicted_gpus nd ∪ {[ w ]}
            ∧ ∀ y, y ≠ x → deref (tree s') y = deref (tree s) y).
  { intros s' ->. rewrite Hd2. split_and!; [done | done | exact Ho2]. }
  destruct (is_large_node (tree s) x).
  - destruct (gpu_allocations s !! x) as [a|] eqn:Ha.
    + destruct (decide (w ∈ a)) as [Hw|Hw].
      * unfold bind at 1, put. eexists. split; [reflexivity|].
        cbn [snd]. destruct (Htree (set_gpu_allocations
                               (<[x := a ∖ {[ w ]}]> (gpu_allocations s)) s2) eq_refl)
          as (H1 & H2 & H3).
        split_and!; [exact H1 | exact H2 | exact H3 | |].
        -- intros y Hy. rewrite gpu_allocations_set. by apply lookup_insert_ne.
        -- rewrite gpu_allocations_set. by rewrite lookup_insert_eq.
      * eexists. split; [reflexivity|]. cbn [snd].
        destruct (Htree s2 eq_refl) as (H1 & H2 & H3).
        split_and!; [exact H1 | exact H2 | exact H3 | by rewrite Ha2 |].
        rewrite Ha2, Ha. simpl. f_equal. apply leibniz_equiv. intros g.
        rewrite elem_of_difference, elem_of_singleton. split; [|tauto].
        intros Hg. split; [done|]. by intros ->.
    + eexists. split; [reflexivity|]. cbn [snd].
      destruct (Htree s2 eq_refl) as (H1 & H2 & H3).
      split_and!; [exact H1 | exact H2 | exact H3 | by rewrite Ha2 | by rewrite Ha2, Ha].
  - eexists. split; [reflexivity|]. cbn [snd].
    destruct (Htree s2 eq_refl) as (H1 & H2 & H3).
    split_and!; [exact H1 | exact H2 | exact H3 | by rewrite Ha2 | by rewrite Ha2].
Qed.

Lemma evict_callback_leaf_witness :
  ∃ s', evict_callback 1 0 one_route
        = (Return (length (value (deref (tree one_route) 1))), s')
    ∧ cached_gpus (deref (tree s') 1) = cached_gpus (deref (tree one_route) 1) ∖ {[ 0 ]}
    ∧ evicted_gpus (deref (tree s') 1) = evicted_gpus (deref (tree one_route) 1) ∪ {[ 0 ]}
    ∧ (∀ y, y ≠ 1 → deref (tree s') y = deref (tree one_route) y)
    ∧ (∀ y, y ≠ 1 → gpu_allocations s' !! y = gpu_allocations one_route !! y)
    ∧ gpu_allocations s' !! 1
      = (if is_large_node (tree one_route) 1
         then (λ a, a ∖ {[ 0 ]}) <$> gpu_allocations one_route !! 1
         else gpu_allocations one_route !! 1).
Proof.
  apply (evict_callback_leaf 1 0 one_route).
  - apply (bool_decide_eq_true_1 (0 ∈ cached_gpus (deref (tree one_route) 1))).
    vm_compute. reflexivity.
  - vm_compute. reflexivity.
Defined.



End Eviction.

Section WorkStealing.
Import GlobalScheduler.
Implicit Types (s : t) (rand : nat → Qc).

Lemma steal_draws_elem rand k threshold l r :
  steal_draws rand k threshold l = Some r → r ∈ l.
Proof.
  revert k. induction l as [|x l IH]; intros k; simpl; [done|].
  destruct (decide _); [intros [= <-]; by left|]. intros Hr. right. by eapply IH.
Qed.

(** X22.  A worker that [work_steal_low_loaded_prefixes] returns has a
    memory cost below a tenth of the largest one (taken as at least 1), and
    [counter] is 20 or more. *)
Theorem work_steal_low_loaded_prefixes_result rand s r :
  work_steal_low_loaded_prefixes rand s = Return (Some r) →
  (20 ≤ counter s)%Z
  ∧ ∃ m c, list_max_Z (mem_cost s) = Return m
           ∧ mem_cost s !! r = Some c
           ∧ (Zq c / Zq (Z.max m 1) < Q2Qc (1 # 10))%Qc.
Proof.
  unfold work_steal_low_loaded_prefixes.
  destruct (list_max_Z (mem_cost s)) as [m|] eqn:Hm; cbn [obind]; [|done].
  match goal with
  | |- obind ?o _ = _ → _ => destruct o as [normalized|] eqn:Hn; cbn [obind]; [|done]
  end.
  destruct (decide (counter s < 20)%Z); [done|].
  set (low := (filter _ _).*1).
  destruct low as [|l0 low'] eqn:Hlow; [done|].
  destruct (truediv _ _) as [threshold|]; cbn [obind]; [|done].
  intros [= Hr]. apply (steal_draws_elem rand 0 threshold (l0 :: low') r) in Hr.
  rewrite <- Hlow in Hr. subst low.
  apply list_elem_of_fmap in Hr as ([r' q] & -> & Hr).
  apply list_elem_of_filter in Hr as [Hq Hr]. simpl in Hq.
  apply elem_of_lookup_imap in Hr as (i & q' & [= -> ->] & Hi).
  split; [lia|]. exists m.
  apply (ofoldl_collect _ (λ x, truediv (Zq x) (Zq (Z.max m 1)))) in Hn
    as (cs & -> & Hcs); [|done]. simpl in Hcs, Hi.
  destruct (Forall2_lookup_r _ _ _ _ _ Hcs Hi) as (c & Hc & Hdiv).
  exists c. split_and!; [done|done|].
  unfold truediv in Hdiv. destruct (decide _); [done|]. by injection Hdiv as ->.
Qed.

Lemma work_steal_low_loaded_prefixes_result_witness :
  (20 ≤ counter (set_counter_metrics 20 [] (init 2 false true)))%Z
  ∧ ∃ m c, list_max_Z (mem_cost (set_counter_metrics 20 [] (init 2 false true)))
           = Return m
           ∧ mem_cost (set_counter_metrics 20 [] (init 2 false true)) !! 0 = Some c
           ∧ (Zq c / Zq (Z.max m 1) < Q2Qc (1 # 10))%Qc.
Proof.
  apply (work_steal_low_loaded_prefixes_result (λ _, 0%Qc)
           (set_counter_metrics 20 [] (init 2 false true)) 0).
  vm_compute. reflexivity.
Defined.

Lemma filter_all {A} (P : A → Prop) `{∀ x, Decision (P x)} (l : list A) :
  Forall P l → filter P l = l.
Proof.
  induction 1 as [|x l Hx Hl IH]; [done|].
  rewrite filter_cons, decide_True by done. by rewrite IH.
Qed.

Lemma list_max_Z_zeros n : list_max_Z (replicate (S n) 0%Z) = Return 0%Z.
Proof.
  simpl. f_equal. induction n as [|n IH]; simpl; [done|]. exact IH.
Qed.

Lemma imap_index_fst {A} (l : list A) (k : nat) :
  (imap (λ i c, (k + i, c)) l).*1 = seq k (length l).
Proof.
  revert k. induction l as [|x l IH]; intros k; [done|].
  rewrite imap_cons, fmap_cons. cbn [fst length seq]. rewrite Nat.add_0_r. f_equal.
  rewrite <- (IH (S k)). f_equal. apply imap_ext. intros i c _. simpl. f_equal. lia.
Qed.

Lemma imap_index_fst_0 {A} (l : list A) :
  (imap (λ i c, (i, c)) l).*1 = seq 0 (length l).
Proof. exact (imap_index_fst l 0). Qed.

Lemma truediv_zero_one : truediv (Zq 0) (Zq 1) = Return 0%Qc.
Proof. vm_compute. f_equal; by apply Qc_is_canon. Qed.

Lemma normalized_zeros (k : nat) (acc : list Qc) :
  ofoldl (λ acc x, q ↤ truediv (Zq x) (Zq 1) ;; Return (acc ++ [q])) acc
         (replicate k 0%Z)
  = Return (acc ++ replicate k 0%Qc).
Proof.
  revert acc. induction k as [|k IH]; intros acc; cbn [replicate ofoldl].
  - by rewrite app_nil_r.
  - rewrite truediv_zero_one. cbn [obind]. rewrite IH. by rewrite <- app_assoc.
Qed.

Lemma work_steal_zeros rand s n :
  num_gpus s = S n → mem_cost s = replicate (S n) 0%Z →
  (20 ≤ counter s)%Z → (rand 0%nat < 1)%Qc →
  work_steal_low_loaded_prefixes rand s = Return (Some 0).
Proof.
  intros Hn Hm Hc Hrand. unfold work_steal_low_loaded_prefixes.
  rewrite Hm, list_max_Z_zeros. cbn [obind]. change (Z.max 0 1) with 1%Z.
  rewrite (normalized_zeros (S n) []). cbn [obind app].
  rewrite decide_False by lia.
  rewrite filter_all.
  2:{ apply Forall_forall. intros [i q] (j & c & [= -> ->] & Hj)%elem_of_lookup_imap.
      apply lookup_replicate in Hj as [-> _]. simpl. reflexivity. }
  rewrite imap_index_fst_0, length_replicate.
  cbn [seq length]. rewrite length_seq, Hn.
  replace (Z.of_nat (S n) - Z.of_nat (S n) + Z.of_nat (S n))%Z with (Z.of_nat (S n)) by lia.
  unfold truediv. fold (Nq (S n)).
  rewrite decide_False by by apply Nq_nonzero.
  cbn [obind steal_draws].
  assert (H1 : (Nq (S n) / Nq (S n))%Qc = 1%Qc).
  { field. by apply Nq_nonzero. }
  rewrite H1. by rewrite decide_True.
Qed.

(** X23.  Nothing writes [mem_cost]: on a scheduler with at least one
    worker where it is all zeros, as the constructor leaves it, after any
    sequence of calls and once [counter] is 20 or more, every worker counts
    as low loaded and [work_steal_low_loaded_prefixes] returns worker 0 at
    the first draw, a draw being below 1. *)
Theorem work_steal_idle fuel calls rand s0 :
  1 ≤ num_gpus s0 →
  mem_cost s0 = replicate (num_gpus s0) 0%Z →
  let s := serve fuel calls s0 in
  (20 ≤ counter s)%Z → (rand 0%nat < 1)%Qc →
  work_steal_low_loaded_prefixes rand s = Return (Some 0).
Proof.
  intros Hn Hm s Hc Hrand.
  pose proof (serve_config fuel calls s0) as Hcf. fold s in Hcf.
  unfold config in Hcf. injection Hcf as Hnum _ _ Hmem _.
  destruct (num_gpus s0) as [|n] eqn:En; [lia|].
  apply (work_steal_zeros rand s n); [done | congruence | done | done].
Qed.

Lemma work_steal_idle_witness :
  work_steal_low_loaded_prefixes (λ _, Q2Qc (1 # 2))
    (serve 3 [Route (at_second 0) [10; 11; 12; 13]%Z None]
       (set_counter_metrics 19 [] (init 2 false false)))
  = Return (Some 0).
Proof.
  apply (work_steal_idle 3 [Route (at_second 0) [10; 11; 12; 13]%Z None]
           (λ _, Q2Qc (1 # 2)) (set_counter_metrics 19 [] (init 2 false false))).
  - simpl. lia.
  - reflexivity.
  - vm_compute. discriminate.
  - reflexivity.
Defined.
End WorkStealing.

Section Commitment.
Import GlobalScheduler.
Implicit Types (s : t) (n : option node) (w : gset gpu).

Lemma on_path_inv st h x :
  on_path st (Some h) x → x = h ∨ on_path st (parent (deref st h)) x.
Proof. inversion 1; subst; [by left | by right]. Qed.

Lemma update_gpu_allocation_for_parent_returned fuel n w s s' :
  update_gpu_allocation_for_parent fuel n w s = (Return tt, s') →
  tree s' = tree s
  ∧ (∀ x a, gpu_allocations s !! x = Some a →
            ∃ a', gpu_allocations s' !! x = Some a' ∧ a ⊆ a')
  ∧ ∀ x, on_path (tree s) n x → ∃ a, gpu_allocations s' !! x = Some a ∧ w ⊆ a.
Proof.
  revert n s. induction fuel as [|fuel IH]; intros n s; simpl; [done|].
  destruct n as [h|].
  - unfold bind at 1, get. unfold bind at 1, put.
    set (s1 := set_gpu_allocations _ s). intros Hr.
    assert (Ht0 : tree s1 = tree s) by reflexivity.
    apply IH in Hr as (Ht & Hkeep & Hpath).
    assert (Hh : gpu_allocations s1 !! h
                 = Some (default ∅ (gpu_allocations s !! h) ∪ w)).
    { subst s1. rewrite gpu_allocations_set. apply lookup_insert_eq. }
    assert (Hkeep1 : ∀ x a, gpu_allocations s !! x = Some a →
                            ∃ a', gpu_allocations s' !! x = Some a' ∧ a ⊆ a').
    { intros x a Ha. destruct (decide (x = h)) as [->|Hne].
      - destruct (Hkeep h _ Hh) as (a' & Ha' & Hsub). exists a'. split; [done|].
        rewrite Ha in Hsub. simpl in Hsub.
        etrans; [|exact Hsub]. apply union_subseteq_l.
      - apply Hkeep. subst s1. rewrite gpu_allocations_set.
        by rewrite lookup_insert_ne. }
    split_and!; [done | done |].
    intros x Hx. destruct (on_path_inv _ _ _ Hx) as [-> | Hup].
    + destruct (Hkeep h _ Hh) as (a' & Ha' & Hsub). exists a'. split; [done|].
      etrans; [|exact Hsub]. apply union_subseteq_r.
    + apply Hpath. by rewrite Ht0.
  - intros [= <-]. split_and!; [done| |].
    + intros x a Ha. by exists a.
    + intros x Hx. inversion Hx.
Qed.

Lemma zoom_cache_allocations {A} (c : M LPRadixCache A) s :
  gpu_allocations (zoom cache set_cache c s).2 = gpu_allocations s
  ∧ enable_rebalancing (zoom cache set_cache c s).2 = enable_rebalancing s.
Proof. unfold zoom. by destruct (c (cache s)). Qed.

Lemma commit_placement_allocations fuel clock rnd text rid p s v s' :
  enable_rebalancing s = false →
  commit_placement fuel clock rnd text rid p s = (Return v, s') →
  v ∈ selected_of p
  ∧ ∃ s2, update_gpu_allocation_for_parent fuel (Some (leaf_of p)) (selected_of p) s
          = (Return tt, s2)
          ∧ gpu_allocations s' = gpu_allocations s2.
Proof.
  intros Hreb. unfold commit_placement. unfold bind at 1.
  destruct (framed_update_gpu_allocation_for_parent (λ _, True) fuel (Some (leaf_of p))
              (selected_of p) (λ _ _, I) s) as [Hr2 _].
  destruct (update_gpu_allocation_for_parent fuel (Some (leaf_of p))
              (selected_of p) s) as [[[]|e] s2]; [|done]. simpl in Hr2.
  apply requests_ledger, ledger_config, config_fields in Hr2 as (_ & _ & _ & _ & Hreb2).
  unfold bind at 1, pure_of.
  destruct (pick_runtime rnd (selected_of p)) as [idx|e] eqn:Hpick; [|done].
  apply pick_runtime_elem in Hpick.
  unfold bind at 1, get.
  destruct (per_gpu_load s2 !! idx) as [load|] eqn:Hload; [|done].
  unfold bind at 1, put. unfold bind at 1.
  set (s3 := set_per_gpu_load _ s2).
  destruct (zoom_cache_allocations (update_allocated_size fuel (Some (leaf_of p)) idx)
              s3) as [Ha4 Hreb4].
  destruct (zoom cache set_cache _ s3) as [[[]|e] s4]; [|done]. simpl in Ha4, Hreb4.
  unfold bind at 1, get. unfold bind at 1.
  assert (Hoff : enable_rebalancing s4 = false) by (rewrite Hreb4; simpl; congruence).
  rewrite Hoff. unfold ret at 1. unfold bind, modify, ret. intros [= <- <-].
  split; [done|]. exists s2. split; [done|]. exact Ha4.
Qed.

(** X24.  Without rebalancing, when [runtime_selector] returns [v], the
    leaf of the request and each of its ancestors have [v] in their
    allocation set. *)
Theorem runtime_selector_allocates fuel now clock rnd text rid input_ids hint s v s' :
  enable_rebalancing s = false →
  runtime_selector fuel now clock rnd text rid input_ids hint s = (Return v, s') →
  ∃ p s1,
    place_request fuel input_ids hint s = (Return p, s1)
    ∧ ∀ x, on_path (tree s1) (Some (leaf_of p)) x →
           ∃ a, gpu_allocations s' !! x = Some a ∧ v ∈ a.
Proof.
  intros Hreb. rewrite runtime_selector_parts.
  destruct (framed_place_request (λ _, True) fuel input_ids hint s) as [Hl1 _].
  destruct (place_request fuel input_ids hint s) as [[p|e] s1] eqn:Hp; [|done].
  simpl in Hl1. apply ledger_config, config_fields in Hl1 as (_ & _ & _ & _ & Hreb1).
  intros Hc. apply commit_placement_allocations in Hc as (Hv & s2 & Hup & Ha).
  2:{ simpl. congruence. }
  exists p, s1. split; [done|].
  apply update_gpu_allocation_for_parent_returned in Hup as (_ & _ & Hpath).
  intros x Hx. destruct (Hpath x Hx) as (a & Hxa & Hsub).
  exists a. rewrite Ha. split; [done|]. by apply Hsub.
Qed.

Lemma runtime_selector_allocates_witness :
  ∃ p s1,
    place_request 3 [10; 11; 12; 13]%Z None (init 2 false false) = (Return p, s1)
    ∧ ∀ x, on_path (tree s1) (Some (leaf_of p)) x →
           ∃ a, gpu_allocations
                  (runtime_selector 3 0 (λ _, 0%Z) 0 None None [10; 11; 12; 13]%Z None
                     (init 2 false false)).2 !! x = Some a
                ∧ 0 ∈ a.
Proof.
  destruct (runtime_selector 3 0 (λ _, 0%Z) 0 None None
              [10; 11; 12; 13]%Z None (init 2 false false)) as [o s'] eqn:E.
  assert (Ho : o = Return 0).
  { change o with (o, s').1. rewrite <- E. vm_compute. reflexivity. }
  subst o.
  apply (runtime_selector_allocates 3 0 (λ _, 0%Z) 0 None None
           [10; 11; 12; 13]%Z None (init 2 false false) 0 s').
  - reflexivity.
  - exact E.
Defined.

(** *** Costs move, they are not made *)





Lemma insert_sorted_cons (x : gpu * Qc) l : insert_sorted x l ≠ [].
Proof. destruct l as [|y l]; simpl; [done|]. by destruct (decide _). Qed.

(** X26.  When there is a worker and every worker's load is below
    [HIGH_LOAD_THRESHOLD] times every worker's load,
    [handle_important_node_stealing] returns and changes nothing. *)
Theorem handle_important_node_stealing_balanced fuel clock scheduled_idx s v :
  H.current_allocation_per_gpu (histogram s) = Return v → v ≠ [] →
  (∀ g g' c c', v !! g = Some c → v !! g' = Some c' →
                (c < HIGH_LOAD_THRESHOLD s * c')%Qc) →
  handle_important_node_stealing fuel clock scheduled_idx s = (Return tt, s).
Proof.
  intros Hv Hne Hbal. unfold handle_important_node_stealing, bind at 1, get.
  destruct (decide _); [done|]. unfold bind, pure_of. rewrite Hv.
  unfold handle_important_node_stealing_recursive.
  set (l := sorted_desc _).
  assert (Hl : ∀ x, x ∈ l → ∃ g, v !! g = Some x.2).
  { intros x Hx. subst l. apply sorted_desc_elem in Hx.
    apply elem_of_lookup_imap in Hx as (i & c & -> & Hi). by exists i. }
  assert (Hl0 : l ≠ []).
  { subst l. destruct v as [|c v]; [done|]. rewrite imap_cons. simpl.
    apply insert_sorted_cons. }
  clearbody l. destruct l as [|first [|second rest]]; [done|done|].
  destruct (Hl first) as [g Hg]; [by left|].
  destruct (Hl (List.last (first :: second :: rest) first)) as [g' Hg'].
  { by apply last_elem. }
  change (removelast (first :: second :: rest))
    with (first :: removelast (second :: rest)).
  destruct first as [hot hot_cost].
  destruct (List.last _ _) as [cold cold_cost]. simpl in Hg, Hg'.
  cbn [stealing_levels]. unfold bind, get.
  by rewrite decide_True by by eapply Hbal.
Qed.

Lemma handle_important_node_stealing_balanced_witness :
  handle_important_node_stealing 3 (λ _, 0%Z) 0
    (set_per_gpu_load {[ 0 := 30%Z; 1 := 30%Z ]}
       (set_gpu_allocations {[ 1 := {[ 0; 1 ]} ]} one_route))
  = (Return tt,
     set_per_gpu_load {[ 0 := 30%Z; 1 := 30%Z ]}
       (set_gpu_allocations {[ 1 := {[ 0; 1 ]} ]} one_route)).
Proof.
  apply (handle_important_node_stealing_balanced 3 (λ _, 0%Z) 0
           (set_per_gpu_load {[ 0 := 30%Z; 1 := 30%Z ]}
              (set_gpu_allocations {[ 1 := {[ 0; 1 ]} ]} one_route))
           [Zq 2; Zq 2]).
  - vm_compute. reflexivity.
  - done.
  - intros g g' c c' Hc Hc'.
    assert (Hall : ∀ i x, [Zq 2; Zq 2] !! i = Some x → x = Zq 2).
    { intros [|[|i]] x Hx; simpl in Hx; [by injection Hx | by injection Hx | done]. }
    rewrite (Hall g c Hc), (Hall g' c' Hc'). reflexivity.
Defined.
End Commitment.
